(** * Detached Point Arithmetic DSP pipeline (src/main.c)

    A shallow embedding of the numeric core of the RP2040 firmware:
    the scaled-value type [dpa_t] with its four operations, the FIR
    filter over a circular delay line, the table-driven DFT, the
    delay-and-sum beamformer and the block-processing pipeline.

    Conventions.
    - [int32_t], [int8_t] and [int64_t] values are integers of [Z]; every
      C operation whose result is stored in such a type is followed by the
      wrap-around of that width ([wrap32], [wrap8], [wrap64]).
    - C's [/] and [%] truncate towards zero: [Z.quot] and [Z.rem].
    - Arrays are lists, read with [l !! i] and written with [<[i:=x]> l];
      an access outside the array, and a division by zero, abort the
      computation ([None]).
    - The global variables of the program are the fields of [state]; code
      that reads or writes them runs in the monad [M]. *)

From Stdlib Require Import ZArith QArith Qpower Qabs Lia List.
From stdpp Require Import base option list.
Import ListNotations.

Open Scope Z_scope.

(** ** Machine integers *)

Definition wrap (bits : Z) (z : Z) : Z :=
  (z + 2 ^ (bits - 1)) mod 2 ^ bits - 2 ^ (bits - 1).

Definition wrap8 : Z -> Z := wrap 8.
Definition wrap32 : Z -> Z := wrap 32.
Definition wrap64 : Z -> Z := wrap 64.

Definition INT32_MAX : Z := 2147483647.
Definition INT32_MIN : Z := -2147483648.

Definition in_int8 (z : Z) : Prop := -128 <= z <= 127.
Definition in_int32 (z : Z) : Prop := INT32_MIN <= z <= INT32_MAX.

(** ** DPA core *)

(** [typedef struct { int32_t mantissa; int8_t point; } dpa_t;] *)
Record dpa_t : Type := mk_dpa { mantissa : Z; point : Z }.

(** The values a [dpa_t] object can hold. *)
Definition dpa_wf (a : dpa_t) : Prop :=
  in_int32 (mantissa a) /\ in_int8 (point a).

(** The quantity a scaled value stands for: mantissa * 10^point. *)
Definition denote (a : dpa_t) : Q :=
  (inject_Z (mantissa a) * Qpower (inject_Z 10) (point a))%Q.

(** [int32_t scale = 1; for (int i = 0; i < n; i++) scale *= 10;] *)
Fixpoint pow10_loop (n : nat) (scale : Z) : Z :=
  match n with
  | O => scale
  | S n' => pow10_loop n' (wrap32 (scale * 10))
  end.

Definition pow10_i32 (n : Z) : Z := pow10_loop (Z.to_nat n) 1.

Definition dpa_add (a b : dpa_t) : dpa_t :=
  if point a =? point b then
    mk_dpa (wrap32 (mantissa a + mantissa b)) (point a)
  else if point a >? point b then
    let shift := point a - point b in
    if shift >? 10 then a
    else
      let scale := pow10_i32 shift in
      mk_dpa (wrap32 (mantissa a + wrap32 (mantissa b * scale))) (point a)
  else
    let shift := point b - point a in
    if shift >? 10 then b
    else
      let scale := pow10_i32 shift in
      mk_dpa (wrap32 (wrap32 (mantissa a * scale) + mantissa b)) (point b).

Definition dpa_multiply (a b : dpa_t) : dpa_t :=
  let result := wrap64 (mantissa a * mantissa b) in
  if (result >? INT32_MAX) || (result <? INT32_MIN) then
    let result := wrap64 (Z.quot result 1000) in
    mk_dpa (wrap32 result) (wrap8 (point a + point b + 3))
  else
    mk_dpa (wrap32 result) (wrap8 (point a + point b)).

Definition dpa_from_int (value : Z) (decimal_places : Z) : dpa_t :=
  let scale := pow10_i32 decimal_places in
  mk_dpa (wrap32 (value * scale)) (wrap8 (- decimal_places)).

Definition dpa_to_int (num : dpa_t) : option Z :=
  if point num >=? 0 then
    let scale := pow10_i32 (point num) in
    Some (wrap32 (mantissa num * scale))
  else
    let scale := pow10_i32 (- point num) in
    if scale =? 0 then None
    else Some (wrap32 (Z.quot (mantissa num) scale)).

(** ** DSP configuration *)

Definition BUFFER_SIZE : Z := 256.
Definition FIR_TAPS : Z := 32.
Definition FFT_SIZE : Z := 64.
Definition NUM_SENSORS : Z := 4.
Definition ADC_CHANNELS : Z := 3.

(** FIR filter coefficients (low-pass, Fs=8kHz, Fc=1kHz). *)
Definition fir_coeffs : list dpa_t :=
  [ mk_dpa (-41) (-6);    mk_dpa (-134) (-6);   mk_dpa (-207) (-6);   mk_dpa (-180) (-6);
    mk_dpa (-12) (-6);    mk_dpa 244 (-6);      mk_dpa 494 (-6);      mk_dpa 583 (-6);
    mk_dpa 394 (-6);      mk_dpa (-67) (-6);    mk_dpa (-693) (-6);   mk_dpa (-1266) (-6);
    mk_dpa (-1528) (-6);  mk_dpa (-1246) (-6);  mk_dpa (-434) (-6);   mk_dpa 1116 (-6);
    mk_dpa 3395 (-6);     mk_dpa 6251 (-6);     mk_dpa 9367 (-6);     mk_dpa 12358 (-6);
    mk_dpa 14808 (-6);    mk_dpa 16371 (-6);    mk_dpa 16763 (-6);    mk_dpa 15808 (-6);
    mk_dpa 13459 (-6);    mk_dpa 9806 (-6);     mk_dpa 5081 (-6);     mk_dpa (-331) (-6);
    mk_dpa (-5806) (-6);  mk_dpa (-10646) (-6); mk_dpa (-14308) (-6); mk_dpa (-16540) (-6) ].

(** Sine and cosine tables of [dpa_dft]. *)
Definition cos_table : list dpa_t :=
  [ mk_dpa 10000 (-4);   mk_dpa 9808 (-4);    mk_dpa 9239 (-4);    mk_dpa 8315 (-4);
    mk_dpa 7071 (-4);    mk_dpa 5556 (-4);    mk_dpa 3827 (-4);    mk_dpa 1951 (-4);
    mk_dpa 0 (-4);       mk_dpa (-1951) (-4); mk_dpa (-3827) (-4); mk_dpa (-5556) (-4);
    mk_dpa (-7071) (-4); mk_dpa (-8315) (-4); mk_dpa (-9239) (-4); mk_dpa (-9808) (-4) ].

Definition sin_table : list dpa_t :=
  [ mk_dpa 0 (-4);     mk_dpa 1951 (-4);  mk_dpa 3827 (-4);  mk_dpa 5556 (-4);
    mk_dpa 7071 (-4);  mk_dpa 8315 (-4);  mk_dpa 9239 (-4);  mk_dpa 9808 (-4);
    mk_dpa 10000 (-4); mk_dpa 9808 (-4);  mk_dpa 9239 (-4);  mk_dpa 8315 (-4);
    mk_dpa 7071 (-4);  mk_dpa 5556 (-4);  mk_dpa 3827 (-4);  mk_dpa 1951 (-4) ].

(** Sample delays of the beamformer. *)
Definition delays : list Z := [0; 2; 4; 6].

(** ** Arrays *)

(** [l[i]] as an rvalue. *)
Definition load {A} (l : list A) (i : Z) : option A :=
  if i <? 0 then None else l !! Z.to_nat i.

(** [l[i] = x]. *)
Definition store {A} (l : list A) (i : Z) (x : A) : option (list A) :=
  if (0 <=? i) && (i <? Z.of_nat (length l))
  then Some (<[Z.to_nat i := x]> l) else None.

(** [m[r][i]] as an rvalue. *)
Definition load2 {A} (m : list (list A)) (r i : Z) : option A :=
  match load m r with
  | Some row => load row i
  | None => None
  end.

(** [m[r][i] = x]. *)
Definition store2 {A} (m : list (list A)) (r i : Z) (x : A) : option (list (list A)) :=
  match load m r with
  | Some row =>
      match store row i x with
      | Some row' => store m r row'
      | None => None
      end
  | None => None
  end.

(** ** Program state *)

(** What the pipeline does to the shared cursor, in program order: a
    record of each [fir_filter] call made by [process_audio_block] and of
    each assignment to [fir_index]. *)
Inductive event : Type :=
| EvFilter (channel sample cursor : Z)
| EvAdvance (cursor : Z).

Record state : Type := mk_state {
  adc_buffer : list (list Z);          (* uint16_t [ADC_CHANNELS][BUFFER_SIZE] *)
  signal_buffer : list (list dpa_t);   (* dpa_t [ADC_CHANNELS][BUFFER_SIZE] *)
  output_buffer : list dpa_t;          (* dpa_t [BUFFER_SIZE] *)
  fir_delay : list (list dpa_t);       (* dpa_t [ADC_CHANNELS][FIR_TAPS] *)
  fir_index : Z;
  fft_real : list dpa_t;               (* static dpa_t [FFT_SIZE] *)
  fft_imag : list dpa_t;               (* static dpa_t [FFT_SIZE] *)
  console : list Z;                    (* magnitudes printed so far *)
  trace : list event                   (* ghost: cursor history *)
}.

Definition set_signal_buffer (v : list (list dpa_t)) (s : state) : state :=
  mk_state (adc_buffer s) v (output_buffer s) (fir_delay s) (fir_index s)
           (fft_real s) (fft_imag s) (console s) (trace s).

Definition set_output_buffer (v : list dpa_t) (s : state) : state :=
  mk_state (adc_buffer s) (signal_buffer s) v (fir_delay s) (fir_index s)
           (fft_real s) (fft_imag s) (console s) (trace s).

Definition set_fir_delay (v : list (list dpa_t)) (s : state) : state :=
  mk_state (adc_buffer s) (signal_buffer s) (output_buffer s) v (fir_index s)
           (fft_real s) (fft_imag s) (console s) (trace s).

Definition set_fir_index (v : Z) (s : state) : state :=
  mk_state (adc_buffer s) (signal_buffer s) (output_buffer s) (fir_delay s) v
           (fft_real s) (fft_imag s) (console s) (trace s).

Definition set_fft (re im : list dpa_t) (s : state) : state :=
  mk_state (adc_buffer s) (signal_buffer s) (output_buffer s) (fir_delay s)
           (fir_index s) re im (console s) (trace s).

Definition set_console (v : list Z) (s : state) : state :=
  mk_state (adc_buffer s) (signal_buffer s) (output_buffer s) (fir_delay s)
           (fir_index s) (fft_real s) (fft_imag s) v (trace s).

(** [printf("%ld ", (long)v);] *)
Definition print (v : Z) (s : state) : state :=
  set_console (console s ++ [v]) s.

Definition log (e : event) (s : state) : state :=
  mk_state (adc_buffer s) (signal_buffer s) (output_buffer s) (fir_delay s)
           (fir_index s) (fft_real s) (fft_imag s) (console s) (trace s ++ [e]).

(** ** State and error monad *)

Definition M (A : Type) : Type := state -> option (A * state).

Definition ret {A} (a : A) : M A := fun s => Some (a, s).

Definition bind {A B} (m : M A) (k : A -> M B) : M B :=
  fun s => match m s with
           | Some (a, s') => k a s'
           | None => None
           end.

Definition lift {A} (o : option A) : M A :=
  fun s => match o with
           | Some a => Some (a, s)
           | None => None
           end.

Definition gets {A} (f : state -> A) : M A := fun s => Some (f s, s).

Definition modify (f : state -> state) : M unit := fun s => Some (tt, f s).

Notation "'let*' x ':=' c 'in' k" := (bind c (fun x => k))
  (at level 10, x name, c at level 100, k at level 200).
Notation "'exec' c 'in' k" := (bind c (fun _ => k))
  (at level 10, c at level 100, k at level 200).

(** [for (int i = i0; i < i0 + n; i++) acc = body(i, acc);] *)
Fixpoint for_M {A} (n : nat) (i : Z) (body : Z -> A -> M A) (acc : A) : M A :=
  match n with
  | O => ret acc
  | S n' => let* acc' := body i acc in for_M n' (i + 1) body acc'
  end.

Definition for_ (n : Z) (body : Z -> M unit) : M unit :=
  for_M (Z.to_nat n) 0 (fun i _ => body i) tt.

(** The same loop for code without global state. *)
Fixpoint for_opt {A} (n : nat) (i : Z) (body : Z -> A -> option A) (acc : A) : option A :=
  match n with
  | O => Some acc
  | S n' =>
      match body i acc with
      | Some acc' => for_opt n' (i + 1) body acc'
      | None => None
      end
  end.

(** ** FIR filter *)

(** Store the new sample in the circular buffer, then accumulate the
    taps from [{0, 0}]. *)
Definition fir_filter (channel : Z) (input : dpa_t) : M dpa_t :=
  let* cursor := gets fir_index in
  let* delay := gets fir_delay in
  let* delay' := lift (store2 delay channel cursor input) in
  exec modify (set_fir_delay delay') in
  for_M (Z.to_nat FIR_TAPS) 0
    (fun i output =>
       let delay_idx := Z.rem (cursor - i + FIR_TAPS) FIR_TAPS in
       let* coeff := lift (load fir_coeffs i) in
       let* line := gets fir_delay in
       let* sample := lift (load2 line channel delay_idx) in
       ret (dpa_add output (dpa_multiply coeff sample)))
    (mk_dpa 0 0).

(** ** Discrete transform *)

(** The body of the loop over [n]: one term of bin [k], added to
    [real_out[k]] and [imag_out[k]]. *)
Definition dft_term (input : list dpa_t) (N k n : Z)
    (out : list dpa_t * list dpa_t) : option (list dpa_t * list dpa_t) :=
  let '(real_out, imag_out) := out in
  let angle_idx := Z.rem (Z.quot (wrap32 (wrap32 (k * n) * 16)) N) 16 in
  x ← load input n;
  c ← load cos_table angle_idx;
  s ← load sin_table angle_idx;
  let cos_term := dpa_multiply x c in
  let sin_term := dpa_multiply x s in
  re ← load real_out k;
  real_out ← store real_out k (dpa_add re cos_term);
  im ← load imag_out k;
  imag_out ← store imag_out k (dpa_add im sin_term);
  Some (real_out, imag_out).

(** The body of the loop over [k]: bin [k] is cleared, then accumulated. *)
Definition dft_bin (input : list dpa_t) (N k : Z)
    (out : list dpa_t * list dpa_t) : option (list dpa_t * list dpa_t) :=
  let '(real_out, imag_out) := out in
  real_out ← store real_out k (mk_dpa 0 0);
  imag_out ← store imag_out k (mk_dpa 0 0);
  for_opt (Z.to_nat N) 0 (dft_term input N k) (real_out, imag_out).

(** [input], [real_out] and [imag_out] are three distinct arrays at the
    only call site, so the function is a map from their contents to the
    new contents of the two output arrays. *)
Definition dpa_dft (input real_out imag_out : list dpa_t) (N : Z)
  : option (list dpa_t * list dpa_t) :=
  for_opt (Z.to_nat (Z.quot N 2)) 0 (dft_bin input N) (real_out, imag_out).

(** ** Beamforming *)

(** [output[i].mantissa /= NUM_SENSORS;] *)
Definition div_mantissa (a : dpa_t) (d : Z) : dpa_t :=
  mk_dpa (wrap32 (Z.quot (mantissa a) d)) (point a).

(** The body of the loop over the channels: the delayed sample of
    channel [ch] is added to [output[i]] when its index is not negative. *)
Definition beam_channel (input : list (list dpa_t)) (i ch : Z) (output : list dpa_t)
  : option (list dpa_t) :=
  d ← load delays ch;
  let delayed_idx := i - d in
  if delayed_idx >=? 0 then
    acc ← load output i;
    x ← load2 input ch delayed_idx;
    store output i (dpa_add acc x)
  else Some output.

(** The body of the loop over the samples. The loop over the channels
    runs while [ch < NUM_SENSORS && ch < ADC_CHANNELS], that is for
    [ch < Z.min NUM_SENSORS ADC_CHANNELS]; the sum is then averaged by
    dividing by the number of sensors. *)
Definition beam_sample (input : list (list dpa_t)) (i : Z) (output : list dpa_t)
  : option (list dpa_t) :=
  output ← store output i (mk_dpa 0 0);
  output ← for_opt (Z.to_nat (Z.min NUM_SENSORS ADC_CHANNELS)) 0
             (beam_channel input i) output;
  acc ← load output i;
  store output i (div_mantissa acc NUM_SENSORS).

(** [input_channels] and [output] are distinct arrays at the only call
    site. *)
Definition delay_and_sum_beamforming
    (input_channels : list (list dpa_t)) (output : list dpa_t) (samples : Z)
  : option (list dpa_t) :=
  for_opt (Z.to_nat samples) 0 (beam_sample input_channels) output.

(** ** Processing pipeline *)

(** [int32_t sample = (int32_t)adc_buffer[ch][i] - 2048;]
    [signal_buffer[ch][i] = dpa_from_int(sample, 4);] *)
Definition convert_body (ch i : Z) : M unit :=
  let* adc := gets adc_buffer in
  let* raw := lift (load2 adc ch i) in
  let sample := wrap32 (raw - 2048) in
  let* sig := gets signal_buffer in
  let* sig' := lift (store2 sig ch i (dpa_from_int sample 4)) in
  modify (set_signal_buffer sig').

(** Convert ADC samples to DPA format. *)
Definition convert_stage : M unit :=
  for_ ADC_CHANNELS (fun ch => for_ BUFFER_SIZE (convert_body ch)).

(** [signal_buffer[ch][i] = fir_filter(ch, signal_buffer[ch][i]);]
    [fir_index = (fir_index + 1) % FIR_TAPS;]
    The two [log] steps record the call and the assignment in [trace]. *)
Definition fir_body (ch i : Z) : M unit :=
  let* sig := gets signal_buffer in
  let* x := lift (load2 sig ch i) in
  let* cursor := gets fir_index in
  exec modify (log (EvFilter ch i cursor)) in
  let* y := fir_filter ch x in
  let* sig := gets signal_buffer in
  let* sig' := lift (store2 sig ch i y) in
  exec modify (set_signal_buffer sig') in
  let* cursor := gets fir_index in
  let cursor' := Z.rem (cursor + 1) FIR_TAPS in
  exec modify (set_fir_index cursor') in
  modify (log (EvAdvance cursor')).

(** Apply FIR filtering to each channel. *)
Definition fir_stage : M unit :=
  for_ ADC_CHANNELS (fun ch => for_ BUFFER_SIZE (fir_body ch)).

(** Apply beamforming. *)
Definition beam_stage : M unit :=
  let* sig := gets signal_buffer in
  let* out := gets output_buffer in
  let* out' := lift (delay_and_sum_beamforming sig out BUFFER_SIZE) in
  modify (set_output_buffer out').

(** [int32_t magnitude = dpa_to_int(fft_real[i]); printf(...);] *)
Definition print_body (i : Z) : M unit :=
  let* re := gets fft_real in
  let* bin := lift (load re i) in
  let* magnitude := lift (dpa_to_int bin) in
  modify (print magnitude).

(** Compute the DFT of the beamformed output and print the first bins. *)
Definition dft_stage : M unit :=
  if BUFFER_SIZE >=? FFT_SIZE then
    let* out := gets output_buffer in
    let* re := gets fft_real in
    let* im := gets fft_imag in
    let* bins := lift (dpa_dft out re im FFT_SIZE) in
    exec modify (set_fft (fst bins) (snd bins)) in
    for_ 8 print_body
  else ret tt.

Definition process_audio_block : M unit :=
  exec convert_stage in
  exec fir_stage in
  exec beam_stage in
  dft_stage.

Definition zeros (n : Z) : list dpa_t := replicate (Z.to_nat n) (mk_dpa 0 0).

(** The state at the first block: objects of static storage are zero,
    [main] has cleared the delay lines, and the acquisition has filled
    [adc_buffer]. *)
Definition initial_state (adc : list (list Z)) : state :=
  mk_state adc
           (replicate (Z.to_nat ADC_CHANNELS) (zeros BUFFER_SIZE))
           (zeros BUFFER_SIZE)
           (replicate (Z.to_nat ADC_CHANNELS) (zeros FIR_TAPS))
           0
           (zeros FFT_SIZE) (zeros FFT_SIZE)
           [] [].

(** * Specification vocabulary *)

(** ** What the specification says of multiplication *)

(** The result of [multiply] in the words of the specification. *)
Definition multiply_claim (a b : dpa_t) : dpa_t :=
  let product := mantissa a * mantissa b in
  if (product >? INT32_MAX) || (product <? INT32_MIN)
  then mk_dpa (Z.quot product 1000) (point a + point b + 3)
  else mk_dpa product (point a + point b).

(** ** Array shapes *)

(** A two-dimensional array of [rows] rows of [cols] elements. *)
Definition rect {A} (rows cols : Z) (m : list (list A)) : Prop :=
  Z.of_nat (length m) = rows /\ Forall (fun row => Z.of_nat (length row) = cols) m.

(** Every element of a two-dimensional array satisfies [P]. *)
Definition all2 {A} (P : A -> Prop) (m : list (list A)) : Prop := Forall (Forall P) m.

(** The elements before position [(ch, i)], in row-major order, satisfy [P]. *)
Definition filled {A} (P : A -> Prop) (m : list (list A)) (ch i : Z) : Prop :=
  forall r c x, load2 m r c = Some x -> r < ch \/ (r = ch /\ c < i) -> P x.

(** ** Cursor history *)

(** The events of sample [i] of channel [ch] in a block entered with the
    cursor at [c0]. *)
Definition cursor_events (c0 ch i : Z) : list event :=
  [EvFilter ch i (Z.rem (c0 + i) FIR_TAPS); EvAdvance (Z.rem (c0 + i + 1) FIR_TAPS)].

(** The events of the first [n] samples of channel [ch]. *)
Definition channel_trace (c0 ch n : Z) : list event :=
  flat_map (cursor_events c0 ch) (seqZ 0 n).

(** The events of a block: the channels one after the other, each with
    all its samples, every call of the filter followed by one assignment
    of the cursor. *)
Definition block_trace (c0 channels : Z) : list event :=
  flat_map (fun ch => channel_trace c0 ch BUFFER_SIZE) (seqZ 0 channels).

Definition is_advance (e : event) : bool :=
  match e with EvAdvance _ => true | EvFilter _ _ _ => false end.

(** How many times the cursor is assigned in a trace. *)
Definition advances (tr : list event) : Z :=
  Z.of_nat (length (List.filter is_advance tr)).

(** The state during the FIR stage: everything but the two buffers, the
    cursor and the trace is as in [s]. *)
Definition fir_state (s : state) (sig line : list (list dpa_t)) (cursor : Z)
    (tr : list event) : state :=
  mk_state (adc_buffer s) sig (output_buffer s) line cursor
           (fft_real s) (fft_imag s) (console s) tr.

(** What holds of the two buffers between two iterations of the FIR
    stage: their sizes, and a property [Zr] of all their elements. *)
Definition fir_buffers (Zr : dpa_t -> Prop) (sig line : list (list dpa_t)) : Prop :=
  rect ADC_CHANNELS BUFFER_SIZE sig /\ rect ADC_CHANNELS FIR_TAPS line /\
  all2 Zr sig /\ all2 Zr line.

(** ** Beamformer output *)

(** The contribution of channel [ch] to output sample [i]. *)
Definition beam_add (input : list (list dpa_t)) (i : Z)
    (acc : option dpa_t) (ch : Z) : option dpa_t :=
  acc ← acc;
  d ← load delays ch;
  if i - d >=? 0 then x ← load2 input ch (i - d); Some (dpa_add acc x)
  else Some acc.

(** The sum, from [{0,0}], of the delayed samples of the first
    [channels] channels whose delayed index is not negative. *)
Definition beam_sum (channels : Z) (input : list (list dpa_t)) (i : Z) : option dpa_t :=
  fold_left (beam_add input i) (seqZ 0 channels) (Some (mk_dpa 0 0)).

(** That sum with its mantissa divided by [divisor]. *)
Definition beam_formula (channels divisor : Z) (input : list (list dpa_t)) (i : Z)
  : option dpa_t :=
  sum ← beam_sum channels input i; Some (div_mantissa sum divisor).

(** ** Transform accumulators *)

(** The accumulator of a bin: its value satisfies [P], the other entries
    of the array are those of [old]. *)
Definition bin_acc (P : dpa_t -> Prop) (k : Z) (old new : list dpa_t) : Prop :=
  length new = length old /\
  (forall j, j <> k -> load new j = load old j) /\
  exists acc, load new k = Some acc /\ P acc.

(** After [k] bins: the bins below [k] satisfy [P], the entries from
    [Z.quot FFT_SIZE 2] on are untouched. *)
Definition bins_done (P : dpa_t -> Prop) (k : Z) (old new : list dpa_t) : Prop :=
  length new = length old /\
  (forall j, 0 <= j < k -> exists b, load new j = Some b /\ P b) /\
  (forall j, Z.quot FFT_SIZE 2 <= j -> load new j = load old j).

(** ** Blocks *)

(** A state in which a block can be processed: the arrays have their
    declared sizes, the cursor is inside the delay line, the raw samples
    satisfy [R] and the delay lines hold values satisfying [S]. *)
Definition block_ready (R : Z -> Prop) (S : dpa_t -> Prop) (s : state) : Prop :=
  rect ADC_CHANNELS BUFFER_SIZE (adc_buffer s) /\
  all2 R (adc_buffer s) /\
  rect ADC_CHANNELS BUFFER_SIZE (signal_buffer s) /\
  Z.of_nat (length (output_buffer s)) = BUFFER_SIZE /\
  rect ADC_CHANNELS FIR_TAPS (fir_delay s) /\
  all2 S (fir_delay s) /\
  0 <= fir_index s < FIR_TAPS /\
  Z.of_nat (length (fft_real s)) = FFT_SIZE /\
  Z.of_nat (length (fft_imag s)) = FFT_SIZE.

(** The state after a block, with what holds of the new contents. *)
Definition block_done (S B P : dpa_t -> Prop) (Q : Z -> Prop) (s s' : state) : Prop :=
  adc_buffer s' = adc_buffer s /\
  rect ADC_CHANNELS BUFFER_SIZE (signal_buffer s') /\
  all2 S (signal_buffer s') /\
  Z.of_nat (length (output_buffer s')) = BUFFER_SIZE /\
  Forall B (output_buffer s') /\
  rect ADC_CHANNELS FIR_TAPS (fir_delay s') /\
  all2 S (fir_delay s') /\
  fir_index s' = fir_index s /\
  bins_done P (Z.quot FFT_SIZE 2) (fft_real s) (fft_real s') /\
  bins_done P (Z.quot FFT_SIZE 2) (fft_imag s) (fft_imag s') /\
  (exists printed, console s' = console s ++ printed /\
                   length printed = 8%nat /\ Forall Q printed) /\
  trace s' = trace s ++ block_trace (fir_index s) ADC_CHANNELS.

(** A block of raw samples all equal to [v]. *)
Definition constant_block (v : Z) : list (list Z) :=
  replicate (Z.to_nat ADC_CHANNELS) (replicate (Z.to_nat BUFFER_SIZE) v).

(** The experiment of the impulse response: [FIR_TAPS] calls of the
    filter on one channel, the first with [one], the others with [zero],
    the cursor advanced after each call; the outputs in order. *)
Definition impulse_response (channel : Z) (one zero : dpa_t) : M (list dpa_t) :=
  for_M (Z.to_nat FIR_TAPS) 0
    (fun j outputs =>
       let* y := fir_filter channel (if j =? 0 then one else zero) in
       let* cursor := gets fir_index in
       exec modify (set_fir_index (Z.rem (cursor + 1) FIR_TAPS)) in
       ret (outputs ++ [y]))
    [].

(** ** Filter output *)

(** The weighted sum of [fir_filter] as a function of the delay lines:
    the taps of [channel] read backwards from [cursor], accumulated from
    [{0, 0}]. *)
Definition fir_sum (line : list (list dpa_t)) (channel cursor : Z) : option dpa_t :=
  for_opt (Z.to_nat FIR_TAPS) 0
    (fun i output =>
       coeff ← load fir_coeffs i;
       sample ← load2 line channel (Z.rem (cursor - i + FIR_TAPS) FIR_TAPS);
       Some (dpa_add output (dpa_multiply coeff sample)))
    (mk_dpa 0 0).

(** ** Conversion and history *)

(** The value the conversion stage stores for the raw sample [raw]. *)
Definition centred (raw : Z) : dpa_t := dpa_from_int (wrap32 (raw - 2048)) 4.

(** The positions before [(ch, i)], in row-major order, hold the
    converted raw samples. *)
Definition converted (adc : list (list Z)) (sig : list (list dpa_t)) (ch i : Z) : Prop :=
  forall r c raw,
    load2 adc r c = Some raw -> r < ch \/ (r = ch /\ c < i) ->
    load2 sig r c = Some (centred raw).

(** What holds of the buffers before sample [i] of channel [ch] is
    filtered, in a block entered with the cursor at [c0] and the samples
    [sig0]: the samples still to filter are those of [sig0]; the delay
    line of [ch] holds the last samples filtered, at most [FIR_TAPS] of
    them; the delay lines of the channels done hold their last
    [FIR_TAPS] samples. *)
Definition history (sig0 : list (list dpa_t)) (c0 ch i : Z)
    (sig line : list (list dpa_t)) : Prop :=
  rect ADC_CHANNELS BUFFER_SIZE sig /\ rect ADC_CHANNELS FIR_TAPS line /\
  (forall r j, ch < r \/ (r = ch /\ i <= j) -> load2 sig r j = load2 sig0 r j) /\
  (forall j, 0 <= j < i -> i - FIR_TAPS <= j ->
     load2 line ch (Z.rem (c0 + j) FIR_TAPS) = load2 sig0 ch j) /\
  (forall r j, 0 <= r < ch -> BUFFER_SIZE - FIR_TAPS <= j < BUFFER_SIZE ->
     load2 line r (Z.rem (c0 + j) FIR_TAPS) = load2 sig0 r j).

(** ** Consecutive blocks *)

Definition set_adc_buffer (v : list (list Z)) (s : state) : state :=
  mk_state v (signal_buffer s) (output_buffer s) (fir_delay s) (fir_index s)
           (fft_real s) (fft_imag s) (console s) (trace s).

(** The core of the main loop: for each block the acquisition delivers,
    [adc_buffer] is filled and [process_audio_block] runs. The hardware
    set-up, the wait for the end of the sampling and the frame-rate
    report are left out. *)
Fixpoint run_blocks (blocks : list (list (list Z))) : M unit :=
  match blocks with
  | [] => ret tt
  | adc :: rest =>
      exec modify (set_adc_buffer adc) in
      exec process_audio_block in
      run_blocks rest
  end.

(** * Properties *)

(** ** Machine integers *)

Ltac sizes :=
  unfold FFT_SIZE, FIR_TAPS, BUFFER_SIZE, ADC_CHANNELS, NUM_SENSORS in *;
  change (Z.quot 64 2) with 32 in *; lia.

Ltac solve_range :=
  unfold dpa_wf, in_int32, in_int8, INT32_MIN, INT32_MAX; simpl; lia.

Lemma wrap8_small z : in_int8 z -> wrap8 z = z.
Proof.
  unfold in_int8, wrap8, wrap. intros H.
  change (2 ^ (8 - 1)) with 128. change (2 ^ 8) with 256.
  rewrite Z.mod_small; lia.
Qed.

Lemma wrap32_small z : in_int32 z -> wrap32 z = z.
Proof.
  unfold in_int32, INT32_MIN, INT32_MAX, wrap32, wrap. intros H.
  change (2 ^ (32 - 1)) with 2147483648. change (2 ^ 32) with 4294967296.
  rewrite Z.mod_small; lia.
Qed.

Lemma wrap64_small z :
  - 9223372036854775808 <= z <= 9223372036854775807 -> wrap64 z = z.
Proof.
  unfold wrap64, wrap. intros H.
  change (2 ^ (64 - 1)) with 9223372036854775808.
  change (2 ^ 64) with 18446744073709551616.
  rewrite Z.mod_small; lia.
Qed.

Lemma wrap8_range z : in_int8 (wrap8 z).
Proof.
  unfold in_int8, wrap8, wrap.
  change (2 ^ (8 - 1)) with 128. change (2 ^ 8) with 256.
  pose proof (Z.mod_pos_bound (z + 128) 256). lia.
Qed.

Lemma wrap32_range z : in_int32 (wrap32 z).
Proof.
  unfold in_int32, INT32_MIN, INT32_MAX, wrap32, wrap.
  change (2 ^ (32 - 1)) with 2147483648. change (2 ^ 32) with 4294967296.
  pose proof (Z.mod_pos_bound (z + 2147483648) 4294967296). lia.
Qed.

(** The product of two [int32_t] values is exact in [int64_t]. *)
Lemma product_exact a b :
  dpa_wf a -> dpa_wf b ->
  wrap64 (mantissa a * mantissa b) = mantissa a * mantissa b.
Proof.
  intros [[Ha1 Ha2] _] [[Hb1 Hb2] _]. apply wrap64_small.
  unfold INT32_MIN, INT32_MAX in *. nia.
Qed.

Lemma quot_1000_bounds z :
  - 9223372036854775808 <= z <= 9223372036854775807 ->
  - 9223372036854775808 <= Z.quot z 1000 <= 9223372036854775807.
Proof.
  intros H. destruct (Z.le_gt_cases 0 z) as [Hz | Hz].
  - pose proof (Z.quot_pos z 1000 Hz ltac:(lia)).
    pose proof (Z.quot_le_upper_bound z 1000 z ltac:(lia) ltac:(lia)). lia.
  - assert (Hq : Z.quot z 1000 = - Z.quot (- z) 1000).
    { rewrite Z.quot_opp_l by lia. lia. }
    pose proof (Z.quot_pos (- z) 1000 ltac:(lia) ltac:(lia)).
    pose proof (Z.quot_le_upper_bound (- z) 1000 (- z) ltac:(lia) ltac:(lia)). lia.
Qed.

(** The scale loop computes the power of ten while it fits 32 bits. *)
Lemma pow10_i32_exact d : 0 <= d <= 9 -> pow10_i32 d = 10 ^ d.
Proof.
  intros H.
  assert (Hd : d = 0 \/ d = 1 \/ d = 2 \/ d = 3 \/ d = 4 \/ d = 5 \/ d = 6
               \/ d = 7 \/ d = 8 \/ d = 9) by lia.
  repeat (destruct Hd as [-> | Hd]; [reflexivity |]). subst d. reflexivity.
Qed.

Lemma pow10_fits_small d : 0 <= d -> in_int32 (10 ^ d) -> d <= 9.
Proof.
  intros Hd [_ H]. unfold INT32_MAX in H.
  destruct (Z.le_gt_cases d 9) as [|Hgt]; [assumption | exfalso].
  assert (10 ^ 10 <= 10 ^ d) by (apply Z.pow_le_mono_r; lia).
  change (10 ^ 10) with 10000000000 in *. lia.
Qed.

(** ** Scaled-value addition *)

Lemma Qeq_decide (x y : Q) : Qeq_bool x y = false -> ~ (x == y)%Q.
Proof. intros H E. apply Qeq_bool_iff in E. congruence. Qed.

(** C1. The code aligns 1.00 + 5 to [{10005, 0}], which stands for
    10005, where the claim expects [{600, -2}], that is 6.00: the
    mantissa of the operand with the smaller scale is the one multiplied
    by the power of ten, and the result keeps the larger scale. *)
Theorem dpa_add_alignment_1_00_plus_5 :
  dpa_add (mk_dpa 100 (-2)) (mk_dpa 5 0) = mk_dpa 10005 0 /\
  dpa_add (mk_dpa 100 (-2)) (mk_dpa 5 0) <> mk_dpa 600 (-2) /\
  ~ (denote (dpa_add (mk_dpa 100 (-2)) (mk_dpa 5 0)) == inject_Z 6)%Q.
Proof.
  split; [reflexivity |]. split; [discriminate |].
  apply Qeq_decide. reflexivity.
Qed.

(** C2. [{0,0}] is not an identity of [dpa_add] on values of negative
    scale: added to 0.5, written [{5, -1}], it gives [{50, 0}], that is
    50. The alignment stays within 32 bits and the scales differ by 1. *)
Theorem dpa_add_zero_not_identity :
  dpa_add (mk_dpa 0 0) (mk_dpa 5 (-1)) = mk_dpa 50 0 /\
  ~ (denote (dpa_add (mk_dpa 0 0) (mk_dpa 5 (-1))) == denote (mk_dpa 5 (-1)))%Q.
Proof.
  split; [reflexivity |]. apply Qeq_decide. reflexivity.
Qed.

(** More generally, added to a value of scale -10..-1 the accumulator
    [{0,0}] keeps its scale 0 and takes the mantissa multiplied by the
    power of ten. *)
Lemma dpa_add_zero_negative_scale v :
  -10 <= point v < 0 ->
  dpa_add (mk_dpa 0 0) v
  = mk_dpa (wrap32 (0 + wrap32 (mantissa v * pow10_i32 (0 - point v)))) 0.
Proof.
  intros Hp. unfold dpa_add. cbn [mantissa point].
  destruct (Z.eqb_spec 0 (point v)); [lia |].
  destruct (Z.gtb_spec 0 (point v)); [| lia].
  destruct (Z.gtb_spec (0 - point v) 10); [lia | reflexivity].
Qed.

(** On values of non-negative scale [{0,0}] is an identity: the slip of
    the alignment only shows when the accumulator has the larger scale. *)
Lemma dpa_add_zero_identity_nonneg v :
  dpa_wf v -> 0 <= point v <= 10 -> dpa_add (mk_dpa 0 0) v = v.
Proof.
  intros [Hm _] Hp. destruct v as [m p]. unfold dpa_add.
  cbn [mantissa point] in *.
  destruct (Z.eqb_spec 0 p) as [<- | Hne].
  - now rewrite Z.add_0_l, wrap32_small.
  - destruct (Z.gtb_spec 0 p); [lia |].
    rewrite Z.sub_0_r. destruct (Z.gtb_spec p 10); [lia |].
    rewrite Z.mul_0_l. change (wrap32 0) with 0.
    now rewrite Z.add_0_l, wrap32_small.
Qed.

(** C3. When the scales differ by more than 10, [dpa_add] returns the
    operand of larger scale as it is, in whichever position it is passed. *)
Theorem dpa_add_skips_alignment (hi lo : dpa_t) :
  point hi - point lo > 10 ->
  dpa_add hi lo = hi /\ dpa_add lo hi = hi.
Proof.
  intros H. unfold dpa_add. split.
  - destruct (Z.eqb_spec (point hi) (point lo)); [lia |].
    destruct (Z.gtb_spec (point hi) (point lo)); [| lia].
    destruct (Z.gtb_spec (point hi - point lo) 10); [reflexivity | lia].
  - destruct (Z.eqb_spec (point lo) (point hi)); [lia |].
    destruct (Z.gtb_spec (point lo) (point hi)); [lia |].
    destruct (Z.gtb_spec (point hi - point lo) 10); [reflexivity | lia].
Qed.

Lemma dpa_add_skips_alignment_witness :
  (point (mk_dpa 7 5) - point (mk_dpa 123 (-6)) > 10) /\
  dpa_add (mk_dpa 7 5) (mk_dpa 123 (-6)) = mk_dpa 7 5 /\
  dpa_add (mk_dpa 123 (-6)) (mk_dpa 7 5) = mk_dpa 7 5.
Proof.
  split; [simpl; lia |].
  apply (dpa_add_skips_alignment (mk_dpa 7 5) (mk_dpa 123 (-6))). simpl; lia.
Defined.

(** ** Scaled-value multiplication *)

(** C4, as stated, fails where the sum of the scales leaves the 8-bit
    scale field: 127 + 1 is stored as -128. *)
Lemma dpa_multiply_scale_field_wraps :
  ~ (forall a b, dpa_wf a -> dpa_wf b -> dpa_multiply a b = multiply_claim a b).
Proof.
  intros H.
  specialize (H (mk_dpa 1 127) (mk_dpa 1 1)).
  discriminate H; solve_range.
Qed.

(** The largest mantissas: a thousandth of the product is still far
    outside 32 bits, and the mantissa stored is its low 32 bits. *)
Example dpa_multiply_quotient_truncated :
  dpa_multiply (mk_dpa 2147483647 0) (mk_dpa 2147483647 0) = mk_dpa (-760209212) 3 /\
  multiply_claim (mk_dpa 2147483647 0) (mk_dpa 2147483647 0)
    = mk_dpa 4611686014132420 3.
Proof. split; reflexivity. Qed.

(** C4, amended. The product is exact; within the 32-bit range it is the
    mantissa, outside it the mantissa is the product divided by 1000
    whenever that quotient fits 32 bits; the scale is the sum of the
    scales (plus 3 on the second path) as the 8-bit field stores it, the
    sum itself whenever it lies in -128..127. *)
Theorem dpa_multiply_spec (a b : dpa_t) :
  dpa_wf a -> dpa_wf b ->
  let product := mantissa a * mantissa b in
  (in_int32 product ->
     dpa_multiply a b = mk_dpa product (wrap8 (point a + point b))) /\
  (~ in_int32 product ->
     point (dpa_multiply a b) = wrap8 (point a + point b + 3) /\
     (in_int32 (Z.quot product 1000) ->
        mantissa (dpa_multiply a b) = Z.quot product 1000)) /\
  (in_int8 (point a + point b) -> wrap8 (point a + point b) = point a + point b) /\
  (in_int8 (point a + point b + 3) ->
     wrap8 (point a + point b + 3) = point a + point b + 3).
Proof.
  intros Ha Hb product.
  pose proof (product_exact a b Ha Hb) as Hex. fold product in Hex.
  assert (Hrange : - 9223372036854775808 <= product <= 9223372036854775807).
  { destruct Ha as [[? ?] _], Hb as [[? ?] _].
    unfold product, INT32_MIN, INT32_MAX in *. nia. }
  unfold dpa_multiply. fold product. rewrite Hex.
  repeat split.
  - intros Hin. pose proof Hin as [Hlo Hhi].
    destruct (Z.gtb_spec product INT32_MAX); [lia |].
    destruct (Z.ltb_spec product INT32_MIN); [lia |].
    simpl. now rewrite wrap32_small.
  - destruct ((product >? INT32_MAX) || (product <? INT32_MIN)) eqn:E;
      [reflexivity |].
    exfalso. apply H. apply orb_false_iff in E as [E1 E2].
    unfold in_int32. split; lia.
  - intros Hq.
    destruct ((product >? INT32_MAX) || (product <? INT32_MIN)) eqn:E.
    + simpl. rewrite wrap64_small by now apply quot_1000_bounds.
      now apply wrap32_small.
    + exfalso. apply H. apply orb_false_iff in E as [E1 E2].
      unfold in_int32. split; lia.
  - apply wrap8_small.
  - apply wrap8_small.
Qed.

Lemma dpa_multiply_spec_witness :
  let a := mk_dpa 100000 (-4) in
  let b := mk_dpa 300000 (-6) in
  dpa_wf a /\ dpa_wf b /\ ~ in_int32 (mantissa a * mantissa b) /\
  point (dpa_multiply a b) = wrap8 (point a + point b + 3) /\
  mantissa (dpa_multiply a b) = Z.quot (mantissa a * mantissa b) 1000.
Proof.
  intros a b.
  assert (Ha : dpa_wf a) by (unfold a; solve_range).
  assert (Hb : dpa_wf b) by (unfold b; solve_range).
  assert (Hout : ~ in_int32 (mantissa a * mantissa b)) by (unfold a, b; solve_range).
  destruct (dpa_multiply_spec a b Ha Hb) as (_ & Hover & _).
  destruct (Hover Hout) as [Hp Hm].
  split; [exact Ha |]. split; [exact Hb |]. split; [exact Hout |].
  split; [exact Hp |]. apply Hm. split; vm_compute; discriminate.
Defined.

(** ** Conversions *)

(** C5, as stated, fails at [v = 0], [d = 32]: the product 0 fits, but
    the scale loop leaves [10^32 mod 2^32 = 0] and [dpa_to_int] divides
    by it. *)
Lemma dpa_round_trip_zero_scale :
  ~ (forall v d, 0 <= d -> in_int32 (v * 10 ^ d) ->
       dpa_to_int (dpa_from_int v d) = Some v).
Proof.
  intros H. specialize (H 0 32).
  discriminate H; [lia | solve_range].
Qed.

Lemma in_int32_factor v k : 1 <= k -> in_int32 (v * k) -> in_int32 v.
Proof. unfold in_int32, INT32_MIN, INT32_MAX. intros Hk [H1 H2]. split; nia. Qed.

(** C5, amended: the round trip is exact whenever the scale [10^d]
    itself fits 32 bits, together with the product. *)
Theorem dpa_round_trip (v d : Z) :
  0 <= d -> in_int32 (10 ^ d) -> in_int32 (v * 10 ^ d) ->
  dpa_to_int (dpa_from_int v d) = Some v.
Proof.
  intros Hd Hscale Hprod.
  pose proof (pow10_fits_small d Hd Hscale) as Hd9.
  assert (Hpos : 1 <= 10 ^ d) by (pose proof (Z.pow_pos_nonneg 10 d); lia).
  pose proof (in_int32_factor v (10 ^ d) Hpos Hprod) as Hv.
  unfold dpa_from_int, dpa_to_int. cbn [mantissa point].
  rewrite (pow10_i32_exact d) by lia.
  rewrite (wrap32_small (v * 10 ^ d)) by assumption.
  rewrite (wrap8_small (- d)) by (unfold in_int8; lia).
  destruct (Z.geb_spec (- d) 0) as [Hge | Hlt].
  - assert (d = 0) by lia. subst d.
    change (pow10_i32 (- 0)) with 1. change (10 ^ 0) with 1.
    rewrite !Z.mul_1_r. now rewrite wrap32_small.
  - rewrite Z.opp_involutive, (pow10_i32_exact d) by lia.
    destruct (Z.eqb_spec (10 ^ d) 0) as [E | _]; [lia |].
    rewrite Z.quot_mul by lia. now rewrite wrap32_small.
Qed.

Lemma dpa_round_trip_witness :
  0 <= 4 /\ in_int32 (10 ^ 4) /\ in_int32 (-2048 * 10 ^ 4) /\
  dpa_to_int (dpa_from_int (-2048) 4) = Some (-2048).
Proof.
  split; [lia |]. split; [solve_range |]. split; [solve_range |].
  apply (dpa_round_trip (-2048) 4); [lia | solve_range | solve_range].
Defined.

(** Under wrap-around the round trip of 0 also succeeds for the decimal
    places 10..31, where the scale overflows to a non-zero value. *)
Lemma dpa_round_trip_zero d : 0 <= d <= 31 -> dpa_to_int (dpa_from_int 0 d) = Some 0.
Proof.
  intros H.
  assert (Hn : exists n, d = Z.of_nat n /\ (n < 32)%nat)
    by (exists (Z.to_nat d); lia).
  destruct Hn as (n & -> & Hn).
  do 32 (destruct n as [|n]; [vm_compute; reflexivity |]). lia.
Qed.

(** ** Arrays *)

Section ArrayFacts.
Context {A : Type}.
Implicit Types (l : list A) (m : list (list A)) (x : A).

Lemma load_in_range l i :
  0 <= i < Z.of_nat (length l) -> exists x, load l i = Some x.
Proof.
  intros H. unfold load. destruct (Z.ltb_spec i 0); [lia |].
  destruct (lookup_lt_is_Some_2 l (Z.to_nat i)) as [x Hx]; [lia |].
  now exists x.
Qed.

Lemma load_bound l i x : load l i = Some x -> 0 <= i < Z.of_nat (length l).
Proof.
  unfold load. destruct (Z.ltb_spec i 0); [discriminate |].
  intros Hx%lookup_lt_Some. lia.
Qed.

Lemma store_in_range l i x :
  0 <= i < Z.of_nat (length l) -> store l i x = Some (<[Z.to_nat i := x]> l).
Proof.
  intros H. unfold store.
  destruct (Z.leb_spec 0 i); [| lia].
  destruct (Z.ltb_spec i (Z.of_nat (length l))); [reflexivity | lia].
Qed.

Lemma store_inv l i x l' :
  store l i x = Some l' ->
  0 <= i < Z.of_nat (length l) /\ l' = <[Z.to_nat i := x]> l.
Proof.
  unfold store.
  destruct (Z.leb_spec 0 i); [| discriminate].
  destruct (Z.ltb_spec i (Z.of_nat (length l))); [| discriminate].
  intros [= <-]. split; [lia | reflexivity].
Qed.

Lemma store_length l i x l' : store l i x = Some l' -> length l' = length l.
Proof. intros [_ ->]%store_inv. apply length_insert. Qed.

Lemma load_store_eq l i x l' : store l i x = Some l' -> load l' i = Some x.
Proof.
  intros [Hi ->]%store_inv. unfold load.
  destruct (Z.ltb_spec i 0); [lia |].
  apply list_lookup_insert_eq. lia.
Qed.

Lemma load_store_ne l i x l' j :
  store l i x = Some l' -> j <> i -> load l' j = load l j.
Proof.
  intros [Hi ->]%store_inv Hne. unfold load.
  destruct (Z.ltb_spec j 0); [reflexivity |].
  apply list_lookup_insert_ne. lia.
Qed.

Lemma store_Forall (P : A -> Prop) l i x l' :
  store l i x = Some l' -> Forall P l -> P x -> Forall P l'.
Proof. intros [_ ->]%store_inv Hl Hx. now apply Forall_insert. Qed.

Lemma load_Forall (P : A -> Prop) l i x :
  load l i = Some x -> Forall P l -> P x.
Proof.
  unfold load. destruct (Z.ltb_spec i 0); [discriminate |].
  intros Hx Hl. exact (Forall_lookup_1 P l _ x Hl Hx).
Qed.

End ArrayFacts.

Section Array2Facts.
Context {A : Type}.
Implicit Types (m : list (list A)) (x : A).

Lemma rect_row rows cols m r row :
  rect rows cols m -> load m r = Some row -> Z.of_nat (length row) = cols.
Proof.
  intros [_ Hm] Hr.
  exact (load_Forall (fun row => Z.of_nat (length row) = cols) m r row Hr Hm).
Qed.

Lemma load2_in_range rows cols m r i :
  rect rows cols m -> 0 <= r < rows -> 0 <= i < cols ->
  exists x, load2 m r i = Some x.
Proof.
  intros Hm Hr Hi. unfold load2.
  destruct (load_in_range m r) as [row Hrow]; [destruct Hm; lia |].
  rewrite Hrow. apply load_in_range.
  rewrite (rect_row _ _ _ _ _ Hm Hrow). lia.
Qed.

Lemma store2_in_range rows cols m r i x :
  rect rows cols m -> 0 <= r < rows -> 0 <= i < cols ->
  exists m', store2 m r i x = Some m'.
Proof.
  intros Hm Hr Hi. unfold store2.
  destruct (load_in_range m r) as [row Hrow]; [destruct Hm; lia |].
  rewrite Hrow, store_in_range
    by (rewrite (rect_row _ _ _ _ _ Hm Hrow); lia).
  rewrite store_in_range by (destruct Hm; lia). eauto.
Qed.

Lemma store2_inv m r i x m' :
  store2 m r i x = Some m' ->
  exists row row', load m r = Some row /\ store row i x = Some row' /\
                   store m r row' = Some m'.
Proof.
  unfold store2. destruct (load m r) as [row|]; [| discriminate].
  destruct (store row i x) as [row'|] eqn:E; [| discriminate].
  intros H. now exists row, row'.
Qed.

Lemma store2_rect rows cols m r i x m' :
  store2 m r i x = Some m' -> rect rows cols m -> rect rows cols m'.
Proof.
  intros (row & row' & Hrow & Hrow' & Hm')%store2_inv Hm.
  pose proof Hm as [Hlen Hall]. split.
  - now rewrite (store_length _ _ _ _ Hm').
  - apply (store_Forall _ _ _ _ _ Hm' Hall).
    rewrite (store_length _ _ _ _ Hrow').
    exact (rect_row _ _ _ _ _ Hm Hrow).
Qed.

Lemma load2_store2_eq m r i x m' :
  store2 m r i x = Some m' -> load2 m' r i = Some x.
Proof.
  intros (row & row' & Hrow & Hrow' & Hm')%store2_inv. unfold load2.
  rewrite (load_store_eq _ _ _ _ Hm'). exact (load_store_eq _ _ _ _ Hrow').
Qed.

Lemma load2_store2_ne m r i x m' r' i' :
  store2 m r i x = Some m' -> (r', i') <> (r, i) ->
  load2 m' r' i' = load2 m r' i'.
Proof.
  intros (row & row' & Hrow & Hrow' & Hm')%store2_inv Hne. unfold load2.
  destruct (Z.eq_dec r' r) as [-> | Hr].
  - rewrite (load_store_eq _ _ _ _ Hm'), Hrow.
    apply (load_store_ne _ _ _ _ _ Hrow'). congruence.
  - now rewrite (load_store_ne _ _ _ _ _ Hm' Hr).
Qed.

Lemma load2_all2 (P : A -> Prop) m r i x :
  load2 m r i = Some x -> all2 P m -> P x.
Proof.
  unfold load2. destruct (load m r) as [row|] eqn:Hrow; [| discriminate].
  intros Hx Hm. apply (load_Forall P row i x Hx).
  exact (load_Forall (Forall P) m r row Hrow Hm).
Qed.

Lemma store2_all2 (P : A -> Prop) m r i x m' :
  store2 m r i x = Some m' -> all2 P m -> P x -> all2 P m'.
Proof.
  intros (row & row' & Hrow & Hrow' & Hm')%store2_inv Hm Hx.
  apply (store_Forall _ _ _ _ _ Hm' Hm).
  apply (store_Forall _ _ _ _ _ Hrow'); [| assumption].
  exact (load_Forall (Forall P) m r row Hrow Hm).
Qed.
End Array2Facts.

(** ** Loops *)

Lemma for_M_inv {A} (I : Z -> A -> state -> Prop) (body : Z -> A -> M A) :
  forall n i0 acc s,
    I i0 acc s ->
    (forall i acc s, i0 <= i < i0 + Z.of_nat n -> I i acc s ->
       exists acc' s', body i acc s = Some (acc', s') /\ I (i + 1) acc' s') ->
    exists acc' s',
      for_M n i0 body acc s = Some (acc', s') /\ I (i0 + Z.of_nat n) acc' s'.
Proof.
  induction n as [|n IH]; intros i0 acc s H0 Hstep.
  - exists acc, s. split; [reflexivity |]. now rewrite Z.add_0_r.
  - destruct (Hstep i0 acc s ltac:(lia) H0) as (acc1 & s1 & Hbody & H1).
    destruct (IH (i0 + 1) acc1 s1 H1) as (acc2 & s2 & Hrest & H2).
    { intros i acc' s' Hi. apply Hstep. lia. }
    exists acc2, s2. split.
    + cbn [for_M]. unfold bind. now rewrite Hbody.
    + now replace (i0 + Z.of_nat (S n)) with (i0 + 1 + Z.of_nat n) by lia.
Qed.

Lemma for_inv (I : Z -> state -> Prop) (body : Z -> M unit) n s :
  0 <= n ->
  I 0 s ->
  (forall i s, 0 <= i < n -> I i s ->
     exists s', body i s = Some (tt, s') /\ I (i + 1) s') ->
  exists s', for_ n body s = Some (tt, s') /\ I n s'.
Proof.
  intros Hn H0 Hstep. unfold for_.
  destruct (for_M_inv (fun i _ s => I i s) (fun i _ => body i)
              (Z.to_nat n) 0 tt s H0) as ([] & s' & Hrun & Hend).
  - intros i [] s1 Hi Hs1.
    destruct (Hstep i s1 ltac:(lia) Hs1) as (s2 & Hb & H2).
    now exists tt, s2.
  - exists s'. split; [assumption |].
    now replace n with (0 + Z.of_nat (Z.to_nat n)) by lia.
Qed.

Lemma for_opt_inv {A} (I : Z -> A -> Prop) (body : Z -> A -> option A) :
  forall n i0 acc,
    I i0 acc ->
    (forall i acc, i0 <= i < i0 + Z.of_nat n -> I i acc ->
       exists acc', body i acc = Some acc' /\ I (i + 1) acc') ->
    exists acc', for_opt n i0 body acc = Some acc' /\ I (i0 + Z.of_nat n) acc'.
Proof.
  induction n as [|n IH]; intros i0 acc H0 Hstep.
  - exists acc. split; [reflexivity |]. now rewrite Z.add_0_r.
  - destruct (Hstep i0 acc ltac:(lia) H0) as (acc1 & Hbody & H1).
    destruct (IH (i0 + 1) acc1 H1) as (acc2 & Hrest & H2).
    { intros i acc' Hi. apply Hstep. lia. }
    exists acc2. split.
    + cbn [for_opt]. now rewrite Hbody.
    + now replace (i0 + Z.of_nat (S n)) with (i0 + 1 + Z.of_nat n) by lia.
Qed.

(** ** FIR filter *)

Lemma fir_coeffs_length : Z.of_nat (length fir_coeffs) = FIR_TAPS.
Proof. reflexivity. Qed.

Lemma delay_idx_range cursor i :
  0 <= cursor < FIR_TAPS -> 0 <= i < FIR_TAPS ->
  0 <= Z.rem (cursor - i + FIR_TAPS) FIR_TAPS < FIR_TAPS.
Proof. unfold FIR_TAPS. intros Hc Hi. apply Z.rem_bound_pos; lia. Qed.

(** One call of [fir_filter]: the only change of the state is the store
    of [input] at [fir_delay[channel][fir_index]], and the output
    satisfies every property [P] that holds of [{0,0}] and is kept by
    accumulating one tap. *)
Lemma fir_filter_run (P : dpa_t -> Prop) (s : state) (channel : Z) (input : dpa_t) :
  rect ADC_CHANNELS FIR_TAPS (fir_delay s) ->
  0 <= channel < ADC_CHANNELS ->
  0 <= fir_index s < FIR_TAPS ->
  P (mk_dpa 0 0) ->
  (forall line i coeff sample acc,
     store2 (fir_delay s) channel (fir_index s) input = Some line ->
     load fir_coeffs i = Some coeff ->
     load2 line channel (Z.rem (fir_index s - i + FIR_TAPS) FIR_TAPS) = Some sample ->
     P acc -> P (dpa_add acc (dpa_multiply coeff sample))) ->
  exists line output,
    store2 (fir_delay s) channel (fir_index s) input = Some line /\
    fir_filter channel input s = Some (output, set_fir_delay line s) /\
    P output.
Proof.
  intros Hrect Hch Hcur P0 Pstep.
  destruct (store2_in_range _ _ _ channel (fir_index s) input Hrect Hch Hcur)
    as [line Hline].
  pose proof (store2_rect _ _ _ _ _ _ _ Hline Hrect) as Hrect'.
  destruct (for_M_inv
              (fun _ acc st => st = set_fir_delay line s /\ P acc)
              (fun i output =>
                 let delay_idx := Z.rem (fir_index s - i + FIR_TAPS) FIR_TAPS in
                 let* coeff := lift (load fir_coeffs i) in
                 let* line := gets fir_delay in
                 let* sample := lift (load2 line channel delay_idx) in
                 ret (dpa_add output (dpa_multiply coeff sample)))
              (Z.to_nat FIR_TAPS) 0 (mk_dpa 0 0) (set_fir_delay line s))
    as (output & s' & Hrun & -> & Hout).
  - split; [reflexivity | assumption].
  - intros i acc st Hi [-> Hacc].
    destruct (load_in_range fir_coeffs i) as [coeff Hcoeff];
      [rewrite fir_coeffs_length; unfold FIR_TAPS in *; lia |].
    destruct (load2_in_range _ _ line channel
                (Z.rem (fir_index s - i + FIR_TAPS) FIR_TAPS) Hrect' Hch)
      as [sample Hsample];
      [apply delay_idx_range; [assumption | unfold FIR_TAPS in *; lia] |].
    exists (dpa_add acc (dpa_multiply coeff sample)), (set_fir_delay line s).
    split.
    + unfold bind, lift, gets, ret. rewrite Hcoeff.
      cbn [fir_delay set_fir_delay]. now rewrite Hsample.
    + split; [reflexivity |]. now apply (Pstep line i).
  - exists line, output. split; [assumption |]. split; [| assumption].
    unfold fir_filter, bind, gets, lift, modify. now rewrite Hline.
Qed.

(** C10. A call of [fir_filter] stores the input at the cursor position
    of the delay line of its channel and changes nothing else: no other
    entry of any delay line, not the cursor, and no other variable of
    the program. The coefficient table is a constant. *)
Theorem fir_filter_frame (s : state) (channel : Z) (input : dpa_t) :
  rect ADC_CHANNELS FIR_TAPS (fir_delay s) ->
  0 <= channel < ADC_CHANNELS ->
  0 <= fir_index s < FIR_TAPS ->
  exists output s',
    fir_filter channel input s = Some (output, s') /\
    load2 (fir_delay s') channel (fir_index s) = Some input /\
    (forall c k, (c, k) <> (channel, fir_index s) ->
       load2 (fir_delay s') c k = load2 (fir_delay s) c k) /\
    rect ADC_CHANNELS FIR_TAPS (fir_delay s') /\
    fir_index s' = fir_index s /\
    adc_buffer s' = adc_buffer s /\
    signal_buffer s' = signal_buffer s /\
    output_buffer s' = output_buffer s /\
    fft_real s' = fft_real s /\
    fft_imag s' = fft_imag s /\
    console s' = console s /\
    trace s' = trace s.
Proof.
  intros Hrect Hch Hcur.
  destruct (fir_filter_run (fun _ => True) s channel input Hrect Hch Hcur I)
    as (line & output & Hline & Hrun & _); [trivial |].
  exists output, (set_fir_delay line s).
  split; [assumption |]. cbn [set_fir_delay fir_delay fir_index adc_buffer
    signal_buffer output_buffer fft_real fft_imag console trace].
  split; [exact (load2_store2_eq _ _ _ _ _ Hline) |].
  split; [intros c k Hne; exact (load2_store2_ne _ _ _ _ _ _ _ Hline Hne) |].
  split; [exact (store2_rect _ _ _ _ _ _ _ Hline Hrect) |].
  repeat split.
Qed.

Lemma fir_filter_frame_witness :
  let s := initial_state [] in
  exists output s',
    fir_filter 1 (mk_dpa 10000 (-4)) s = Some (output, s') /\
    load2 (fir_delay s') 1 0 = Some (mk_dpa 10000 (-4)) /\
    fir_index s' = 0.
Proof.
  intros s.
  assert (Hrect : rect ADC_CHANNELS FIR_TAPS (fir_delay s)).
  { split; [reflexivity |]. repeat constructor. }
  assert (Hch : 0 <= 1 < ADC_CHANNELS) by (unfold ADC_CHANNELS; lia).
  assert (Hcur : 0 <= fir_index s < FIR_TAPS) by (unfold FIR_TAPS; simpl; lia).
  destruct (fir_filter_frame s 1 (mk_dpa 10000 (-4)) Hrect Hch Hcur)
    as (output & s' & Hrun & Hin & _ & _ & Hidx & _).
  exists output, s'. split; [exact Hrun |]. split; [exact Hin | exact Hidx].
Defined.

(** ** FIR stage of the pipeline *)

Lemma seqZ_snoc n : 0 <= n -> seqZ 0 (n + 1) = seqZ 0 n ++ [n].
Proof.
  intros Hn. rewrite seqZ_app by lia. f_equal.
Qed.

Lemma flat_map_snoc {A B} (f : A -> list B) l x :
  flat_map f (l ++ [x]) = flat_map f l ++ f x.
Proof. rewrite flat_map_app. cbn. now rewrite app_nil_r. Qed.

Lemma channel_trace_step c0 ch i :
  0 <= i ->
  channel_trace c0 ch (i + 1) = channel_trace c0 ch i ++ cursor_events c0 ch i.
Proof.
  intros Hi. unfold channel_trace. now rewrite seqZ_snoc, flat_map_snoc.
Qed.

Lemma block_trace_step c0 ch :
  0 <= ch ->
  block_trace c0 (ch + 1) = block_trace c0 ch ++ channel_trace c0 ch BUFFER_SIZE.
Proof.
  intros Hch. unfold block_trace. now rewrite seqZ_snoc, flat_map_snoc.
Qed.

Lemma cursor_next c0 i :
  0 <= c0 -> 0 <= i ->
  Z.rem (Z.rem (c0 + i) FIR_TAPS + 1) FIR_TAPS = Z.rem (c0 + i + 1) FIR_TAPS.
Proof.
  unfold FIR_TAPS. intros H0 Hi.
  pose proof (Z.rem_bound_pos (c0 + i) 32 ltac:(lia) ltac:(lia)).
  rewrite !Z.rem_mod_nonneg by lia.
  now rewrite Z.add_mod_idemp_l by lia.
Qed.

(** The block size is a multiple of the tap count: after a channel the
    cursor is back where the block started. *)
Lemma cursor_after_channel c0 :
  0 <= c0 < FIR_TAPS -> Z.rem (c0 + BUFFER_SIZE) FIR_TAPS = c0.
Proof.
  unfold FIR_TAPS, BUFFER_SIZE. intros H.
  rewrite Z.rem_mod_nonneg by lia.
  replace (c0 + 256) with (c0 + 8 * 32) by lia.
  rewrite Z.mod_add by lia. apply Z.mod_small. lia.
Qed.

Ltac state_simpl :=
  unfold fir_state, log, print, set_console, set_fir_delay, set_signal_buffer,
    set_fir_index, set_output_buffer, set_fft;
  cbn [adc_buffer signal_buffer output_buffer fir_delay fir_index
       fft_real fft_imag console trace].

Tactic Notation "state_simpl" "in" hyp(H) :=
  unfold fir_state, log, print, set_console, set_fir_delay, set_signal_buffer,
    set_fir_index, set_output_buffer, set_fft in H;
  cbn [adc_buffer signal_buffer output_buffer fir_delay fir_index
       fft_real fft_imag console trace] in H.

Section FirStage.
(** A property of samples kept by one tap of the filter. *)
Variable Zr : dpa_t -> Prop.
Hypothesis Zr_zero : Zr (mk_dpa 0 0).
Hypothesis Zr_tap : forall coeff sample acc,
  Zr sample -> Zr acc -> Zr (dpa_add acc (dpa_multiply coeff sample)).

Variable s : state.
Variable c0 : Z.
Hypothesis c0_range : 0 <= c0 < FIR_TAPS.

Lemma fir_body_run ch i sig line tr :
  0 <= ch < ADC_CHANNELS -> 0 <= i < BUFFER_SIZE ->
  fir_buffers Zr sig line ->
  exists sig' line',
    fir_body ch i (fir_state s sig line (Z.rem (c0 + i) FIR_TAPS) tr)
    = Some (tt, fir_state s sig' line' (Z.rem (c0 + i + 1) FIR_TAPS)
                  (tr ++ cursor_events c0 ch i)) /\
    fir_buffers Zr sig' line'.
Proof.
  intros Hch Hi (Hsig & Hline & Zsig & Zline).
  set (cur := Z.rem (c0 + i) FIR_TAPS).
  assert (Hcur : 0 <= cur < FIR_TAPS)
    by (unfold cur, FIR_TAPS in *; apply Z.rem_bound_pos; lia).
  destruct (load2_in_range _ _ sig ch i Hsig Hch Hi) as [x Hx].
  pose proof (load2_all2 Zr _ _ _ _ Hx Zsig) as Zx.
  set (st := log (EvFilter ch i cur) (fir_state s sig line cur tr)).
  destruct (fir_filter_run Zr st ch x) as (line' & y & Hstore & Hrun & Zy);
    try assumption.
  { intros l k coeff sample acc Hl _ Hsample Hacc. apply Zr_tap; [| assumption].
    apply (load2_all2 Zr _ _ _ _ Hsample).
    apply (store2_all2 Zr _ _ _ _ _ Hl Zline Zx). }
  subst st. state_simpl in Hstore.
  destruct (store2_in_range _ _ sig ch i y Hsig Hch Hi) as [sig' Hsig'].
  exists sig', line'. split.
  - unfold fir_body, bind, gets, lift, modify.
    change (signal_buffer (fir_state s sig line cur tr)) with sig.
    rewrite Hx.
    change (fir_index (fir_state s sig line cur tr)) with cur.
    rewrite Hrun. state_simpl. rewrite Hsig'. state_simpl.
    unfold cur. rewrite cursor_next by lia.
    unfold cursor_events. now rewrite <- app_assoc.
  - split; [exact (store2_rect _ _ _ _ _ _ _ Hsig' Hsig) |].
    split; [exact (store2_rect _ _ _ _ _ _ _ Hstore Hline) |].
    split; [exact (store2_all2 Zr _ _ _ _ _ Hsig' Zsig Zy) |].
    exact (store2_all2 Zr _ _ _ _ _ Hstore Zline Zx).
Qed.

Lemma fir_channel_run ch sig line tr :
  0 <= ch < ADC_CHANNELS ->
  fir_buffers Zr sig line ->
  exists sig' line',
    for_ BUFFER_SIZE (fir_body ch) (fir_state s sig line c0 tr)
    = Some (tt, fir_state s sig' line' c0 (tr ++ channel_trace c0 ch BUFFER_SIZE)) /\
    fir_buffers Zr sig' line'.
Proof.
  intros Hch Hbuf.
  destruct (for_inv
              (fun i st => exists sig' line',
                   st = fir_state s sig' line' (Z.rem (c0 + i) FIR_TAPS)
                          (tr ++ channel_trace c0 ch i) /\
                   fir_buffers Zr sig' line')
              (fir_body ch) BUFFER_SIZE (fir_state s sig line c0 tr))
    as (s' & Hrun & sig' & line' & -> & Hbuf').
  - unfold BUFFER_SIZE. lia.
  - exists sig, line. split; [| assumption].
    rewrite Z.add_0_r, Z.rem_small by (unfold FIR_TAPS in *; lia).
    unfold channel_trace. now rewrite seqZ_nil, app_nil_r by lia.
  - intros i st Hi (sig1 & line1 & -> & Hbuf1).
    destruct (fir_body_run ch i sig1 line1 (tr ++ channel_trace c0 ch i) Hch Hi Hbuf1)
      as (sig2 & line2 & Hstep & Hbuf2).
    eexists. split; [exact Hstep |]. exists sig2, line2.
    split; [| assumption].
    rewrite channel_trace_step, app_assoc by lia.
    now replace (c0 + (i + 1)) with (c0 + i + 1) by lia.
  - exists sig', line'. split; [| assumption].
    now rewrite Hrun, cursor_after_channel.
Qed.

Lemma fir_stage_run sig line tr :
  fir_buffers Zr sig line ->
  exists sig' line',
    fir_stage (fir_state s sig line c0 tr)
    = Some (tt, fir_state s sig' line' c0 (tr ++ block_trace c0 ADC_CHANNELS)) /\
    fir_buffers Zr sig' line'.
Proof.
  intros Hbuf.
  destruct (for_inv
              (fun ch st => exists sig' line',
                   st = fir_state s sig' line' c0 (tr ++ block_trace c0 ch) /\
                   fir_buffers Zr sig' line')
              (fun ch => for_ BUFFER_SIZE (fir_body ch)) ADC_CHANNELS
              (fir_state s sig line c0 tr))
    as (s' & Hrun & sig' & line' & -> & Hbuf').
  - unfold ADC_CHANNELS. lia.
  - exists sig, line. split; [| assumption].
    unfold block_trace. now rewrite seqZ_nil, app_nil_r by lia.
  - intros ch st Hch (sig1 & line1 & -> & Hbuf1).
    destruct (fir_channel_run ch sig1 line1 (tr ++ block_trace c0 ch) Hch Hbuf1)
      as (sig2 & line2 & Hstep & Hbuf2).
    eexists. split; [exact Hstep |]. exists sig2, line2.
    split; [| assumption].
    now rewrite block_trace_step, app_assoc by lia.
  - exists sig', line'. split; [exact Hrun | assumption].
Qed.
End FirStage.

(** ** Conversion stage of the pipeline *)

Lemma all2_intro {A} (P : A -> Prop) (m : list (list A)) :
  (forall r c x, load2 m r c = Some x -> P x) -> all2 P m.
Proof.
  intros H. apply Forall_lookup_2. intros r row Hrow.
  apply Forall_lookup_2. intros c x Hx.
  apply (H (Z.of_nat r) (Z.of_nat c)). unfold load2, load.
  destruct (Z.ltb_spec (Z.of_nat r) 0); [lia |].
  destruct (Z.ltb_spec (Z.of_nat c) 0); [lia |].
  now rewrite !Nat2Z.id, Hrow.
Qed.

Lemma load2_bound {A} rows cols (m : list (list A)) r c x :
  rect rows cols m -> load2 m r c = Some x -> 0 <= r < rows /\ 0 <= c < cols.
Proof.
  intros Hm. unfold load2. destruct (load m r) as [row|] eqn:Hrow; [| discriminate].
  intros Hx. pose proof (load_bound _ _ _ Hrow). pose proof (load_bound _ _ _ Hx).
  rewrite (rect_row _ _ _ _ _ Hm Hrow) in *. destruct Hm. lia.
Qed.

Lemma filled_store {A} (P : A -> Prop) (m m' : list (list A)) ch i v :
  store2 m ch i v = Some m' -> P v -> filled P m ch i -> filled P m' ch (i + 1).
Proof.
  intros Hst Hv Hm r c x Hx Hrc.
  destruct (decide ((r, c) = (ch, i))) as [[= -> ->] | Hne].
  - rewrite (load2_store2_eq _ _ _ _ _ Hst) in Hx. now injection Hx as <-.
  - rewrite (load2_store2_ne _ _ _ _ _ _ _ Hst Hne) in Hx.
    apply (Hm r c x Hx). destruct Hrc as [? | [-> ?]]; [now left | right].
    split; [reflexivity |]. assert (c <> i) by congruence. lia.
Qed.

Lemma filled_next_row {A} (P : A -> Prop) rows cols (m : list (list A)) ch :
  rect rows cols m -> filled P m ch cols -> filled P m (ch + 1) 0.
Proof.
  intros Hm Hf r c x Hx Hrc. apply (Hf r c x Hx).
  destruct (load2_bound _ _ _ _ _ _ Hm Hx). lia.
Qed.

Lemma filled_all2 {A} (P : A -> Prop) rows cols (m : list (list A)) :
  rect rows cols m -> filled P m rows 0 -> all2 P m.
Proof.
  intros Hm Hf. apply all2_intro. intros r c x Hx. apply (Hf r c x Hx).
  destruct (load2_bound _ _ _ _ _ _ Hm Hx). lia.
Qed.

Section ConvertStage.
Variable R : Z -> Prop.
Variable P : dpa_t -> Prop.
Hypothesis convert_ok : forall raw, R raw -> P (dpa_from_int (wrap32 (raw - 2048)) 4).

Variable s : state.
Hypothesis adc_rect : rect ADC_CHANNELS BUFFER_SIZE (adc_buffer s).
Hypothesis adc_all : all2 R (adc_buffer s).

Lemma convert_body_run ch i sig :
  0 <= ch < ADC_CHANNELS -> 0 <= i < BUFFER_SIZE ->
  rect ADC_CHANNELS BUFFER_SIZE sig -> filled P sig ch i ->
  exists sig',
    convert_body ch i (set_signal_buffer sig s) = Some (tt, set_signal_buffer sig' s) /\
    rect ADC_CHANNELS BUFFER_SIZE sig' /\ filled P sig' ch (i + 1).
Proof.
  intros Hch Hi Hsig Hf.
  destruct (load2_in_range _ _ _ ch i adc_rect Hch Hi) as [raw Hraw].
  pose proof (convert_ok raw (load2_all2 R _ _ _ _ Hraw adc_all)) as Hv.
  destruct (store2_in_range _ _ sig ch i
              (dpa_from_int (wrap32 (raw - 2048)) 4) Hsig Hch Hi) as [sig' Hsig'].
  exists sig'. split; [| split].
  - unfold convert_body, bind, gets, lift, modify. state_simpl.
    rewrite Hraw. state_simpl. rewrite Hsig'. reflexivity.
  - exact (store2_rect _ _ _ _ _ _ _ Hsig' Hsig).
  - exact (filled_store P _ _ _ _ _ Hsig' Hv Hf).
Qed.

Lemma convert_stage_run :
  rect ADC_CHANNELS BUFFER_SIZE (signal_buffer s) ->
  exists sig',
    convert_stage s = Some (tt, set_signal_buffer sig' s) /\
    rect ADC_CHANNELS BUFFER_SIZE sig' /\ all2 P sig'.
Proof.
  intros Hsig.
  assert (Hs : s = set_signal_buffer (signal_buffer s) s) by now destruct s.
  destruct (for_inv
              (fun ch st => exists sig,
                   st = set_signal_buffer sig s /\
                   rect ADC_CHANNELS BUFFER_SIZE sig /\ filled P sig ch 0)
              (fun ch => for_ BUFFER_SIZE (convert_body ch)) ADC_CHANNELS s)
    as (s' & Hrun & sig' & -> & Hrect' & Hf').
  - unfold ADC_CHANNELS. lia.
  - exists (signal_buffer s). split; [assumption |]. split; [assumption |].
    intros r c x Hx Hrc. destruct (load2_bound _ _ _ _ _ _ Hsig Hx). lia.
  - intros ch st Hch (sig & -> & Hrect & Hf).
    destruct (for_inv
                (fun i st => exists sig1,
                     st = set_signal_buffer sig1 s /\
                     rect ADC_CHANNELS BUFFER_SIZE sig1 /\ filled P sig1 ch i)
                (convert_body ch) BUFFER_SIZE (set_signal_buffer sig s))
      as (s1 & Hrun1 & sig1 & -> & Hrect1 & Hf1).
    + unfold BUFFER_SIZE. lia.
    + now exists sig.
    + intros i st Hi (sig1 & -> & Hrect1 & Hf1).
      destruct (convert_body_run ch i sig1 Hch Hi Hrect1 Hf1)
        as (sig2 & Hstep & Hrect2 & Hf2).
      eexists. split; [exact Hstep |]. now exists sig2.
    + eexists. split; [exact Hrun1 |]. exists sig1.
      split; [reflexivity |]. split; [assumption |].
      exact (filled_next_row P _ _ _ _ Hrect1 Hf1).
  - exists sig'. split; [exact Hrun |]. split; [assumption |].
    exact (filled_all2 P _ _ _ Hrect' Hf').
Qed.
End ConvertStage.

(** ** Beamformer *)

Lemma beam_sum_step channels input i :
  0 <= channels ->
  beam_sum (channels + 1) input i = beam_add input i (beam_sum channels input i) channels.
Proof.
  intros H. unfold beam_sum. now rewrite seqZ_snoc, fold_left_app by lia.
Qed.

Lemma delays_range ch d :
  load delays ch = Some d -> 0 <= d.
Proof.
  intros H. pose proof (load_bound _ _ _ H) as Hb. cbn in Hb.
  assert (Hc : ch = 0 \/ ch = 1 \/ ch = 2 \/ ch = 3) by lia.
  destruct Hc as [-> | [-> | [-> | ->]]]; cbn in H; injection H as <-; lia.
Qed.

Section Beamformer.
Variable input : list (list dpa_t).
Variables rows cols : Z.
Hypothesis input_rect : rect rows cols input.
Hypothesis rows_enough : Z.min NUM_SENSORS ADC_CHANNELS <= rows.

Lemma beam_channel_run i ch output acc :
  0 <= i < cols -> 0 <= ch < Z.min NUM_SENSORS ADC_CHANNELS ->
  load output i = Some acc ->
  exists acc',
    beam_add input i (Some acc) ch = Some acc' /\
    (beam_channel input i ch output = store output i acc' \/
     (acc' = acc /\ beam_channel input i ch output = Some output)).
Proof.
  intros Hi Hch Hacc.
  destruct (load_in_range delays ch) as [d Hd];
    [unfold NUM_SENSORS, ADC_CHANNELS in Hch; cbn; lia |].
  pose proof (delays_range ch d Hd) as Hd0.
  unfold beam_add, beam_channel. cbn [mbind option_bind]. rewrite Hd.
  cbn [mbind option_bind].
  destruct (Z.geb_spec (i - d) 0) as [Hge | Hlt].
  - destruct (load2_in_range _ _ input ch (i - d) input_rect) as [x Hx]; [lia | lia |].
    rewrite Hacc, Hx. cbn [mbind option_bind]. eauto.
  - exists acc. split; [reflexivity |]. now right.
Qed.

Lemma beam_sample_run i output :
  0 <= i < cols -> 0 <= i < Z.of_nat (length output) ->
  exists sum output',
    beam_sum (Z.min NUM_SENSORS ADC_CHANNELS) input i = Some sum /\
    beam_sample input i output = Some output' /\
    length output' = length output /\
    load output' i = Some (div_mantissa sum NUM_SENSORS) /\
    (forall j, j <> i -> load output' j = load output j).
Proof.
  intros Hi Hlen.
  destruct (for_opt_inv
              (fun ch out =>
                 length out = length output /\
                 (forall j, j <> i -> load out j = load output j) /\
                 exists acc, load out i = Some acc /\
                             beam_sum ch input i = Some acc)
              (beam_channel input i)
              (Z.to_nat (Z.min NUM_SENSORS ADC_CHANNELS)) 0
              (<[Z.to_nat i := mk_dpa 0 0]> output))
    as (out1 & Hrun & Hlen1 & Hother1 & sum & Hsum1 & Hsum).
  - split; [apply length_insert |]. split.
    + intros j Hj.
      exact (load_store_ne _ _ _ _ _ (store_in_range output i _ Hlen) Hj).
    + exists (mk_dpa 0 0). split; [| reflexivity].
      exact (load_store_eq _ _ _ _ (store_in_range output i _ Hlen)).
  - intros ch out Hch (Hl & Hother & acc & Hacc & Hs).
    rewrite Z.add_0_l, Z2Nat.id in Hch by (unfold NUM_SENSORS, ADC_CHANNELS; lia).
    destruct (beam_channel_run i ch out acc Hi Hch Hacc) as (acc' & Hadd & Hcase).
    rewrite beam_sum_step, Hs, Hadd by lia.
    destruct Hcase as [Hst | [-> Hst]].
    + assert (Hin : 0 <= i < Z.of_nat (length out)) by (rewrite Hl; lia).
      rewrite (store_in_range out i acc' Hin) in Hst.
      eexists. split; [exact Hst |].
      split; [rewrite length_insert; exact Hl |]. split.
      * intros j Hj.
        rewrite (load_store_ne _ _ _ _ _ (store_in_range out i acc' Hin) Hj).
        now apply Hother.
      * exists acc'. split; [| reflexivity].
        exact (load_store_eq _ _ _ _ (store_in_range out i acc' Hin)).
    + exists out. split; [exact Hst |]. split; [exact Hl |].
      split; [exact Hother |]. now exists acc.
  - rewrite Z.add_0_l, Z2Nat.id in Hsum by (unfold NUM_SENSORS, ADC_CHANNELS; lia).
    assert (Hin : 0 <= i < Z.of_nat (length out1)) by (rewrite Hlen1; lia).
    exists sum, (<[Z.to_nat i := div_mantissa sum NUM_SENSORS]> out1).
    split; [exact Hsum |]. split; [| split; [| split]].
    + unfold beam_sample. rewrite (store_in_range output i _ Hlen).
      cbn [mbind option_bind]. rewrite Hrun. cbn [mbind option_bind].
      rewrite Hsum1. cbn [mbind option_bind].
      exact (store_in_range out1 i _ Hin).
    + now rewrite length_insert.
    + exact (load_store_eq _ _ _ _ (store_in_range out1 i _ Hin)).
    + intros j Hj.
      rewrite (load_store_ne _ _ _ _ _ (store_in_range out1 i _ Hin) Hj).
      now apply Hother1.
Qed.

Lemma beamforming_run output samples :
  0 <= samples <= cols -> samples <= Z.of_nat (length output) ->
  exists output',
    delay_and_sum_beamforming input output samples = Some output' /\
    length output' = length output /\
    forall i, 0 <= i < samples ->
      exists sum,
        beam_sum (Z.min NUM_SENSORS ADC_CHANNELS) input i = Some sum /\
        load output' i = Some (div_mantissa sum NUM_SENSORS).
Proof.
  intros Hs Hlen.
  destruct (for_opt_inv
              (fun i out =>
                 length out = length output /\
                 forall j, 0 <= j < i ->
                   exists sum,
                     beam_sum (Z.min NUM_SENSORS ADC_CHANNELS) input j = Some sum /\
                     load out j = Some (div_mantissa sum NUM_SENSORS))
              (beam_sample input) (Z.to_nat samples) 0 output)
    as (out' & Hrun & Hlen' & Hall).
  - split; [reflexivity |]. intros j Hj. lia.
  - intros i out Hi (Hl & Hdone).
    destruct (beam_sample_run i out) as (sum & out1 & Hsum & Hstep & Hl1 & Hi1 & Hother);
      [lia | rewrite Hl; lia |].
    exists out1. split; [exact Hstep |]. split; [congruence |].
    intros j Hj. destruct (Z.eq_dec j i) as [-> | Hne].
    + now exists sum.
    + rewrite (Hother j Hne). apply Hdone. lia.
  - exists out'. split; [exact Hrun |]. split; [exact Hlen' |].
    intros i Hi. apply Hall. lia.
Qed.
End Beamformer.

(** C8, as stated, fails whichever of the two channel constants is read
    as the channel count: on four channels of constant 4 the code sums
    three samples and divides by four, so output 6 is 3; the claim
    gives 12/3 = 4 for three channels and 16/4 = 4 for four. *)
Lemma beamformer_sum_and_divisor_differ :
  ~ (exists count, (count = ADC_CHANNELS \/ count = NUM_SENSORS) /\
       forall input output samples output' i,
         delay_and_sum_beamforming input output samples = Some output' ->
         0 <= i < samples ->
         load output' i = beam_formula count count input i).
Proof.
  intros (count & Hcount & H).
  set (input := replicate 4 (replicate 256 (mk_dpa 4 0))).
  destruct (delay_and_sum_beamforming input (zeros BUFFER_SIZE) BUFFER_SIZE)
    as [output'|] eqn:Hrun; [| vm_compute in Hrun; discriminate].
  specialize (H input (zeros BUFFER_SIZE) BUFFER_SIZE output' 6 Hrun
                ltac:(unfold BUFFER_SIZE; lia)).
  assert (Hout : load output' 6 = Some (mk_dpa 3 0)).
  { vm_compute in Hrun. injection Hrun as <-. reflexivity. }
  rewrite Hout in H.
  destruct Hcount as [-> | ->]; vm_compute in H; discriminate H.
Qed.

(** C8, amended. Output sample [i] is the scaled-value sum, from
    [{0,0}], of the samples at [i - delay[ch]] of the channels
    [ch < min(NUM_SENSORS, ADC_CHANNELS) = 3] for which that index is
    not negative, with its mantissa divided by [NUM_SENSORS = 4],
    truncating, and its scale unchanged. *)
Theorem beamformer_output (input : list (list dpa_t)) (rows cols : Z)
    (output : list dpa_t) (samples i : Z) :
  rect rows cols input ->
  Z.min NUM_SENSORS ADC_CHANNELS <= rows ->
  0 <= samples <= cols ->
  samples <= Z.of_nat (length output) ->
  0 <= i < samples ->
  exists output' y,
    delay_and_sum_beamforming input output samples = Some output' /\
    load output' i = Some y /\
    beam_formula (Z.min NUM_SENSORS ADC_CHANNELS) NUM_SENSORS input i = Some y.
Proof.
  intros Hrect Hrows Hs Hlen Hi.
  destruct (beamforming_run input rows cols Hrect Hrows output samples Hs Hlen)
    as (output' & Hrun & _ & Hall).
  destruct (Hall i Hi) as (sum & Hsum & Hload).
  exists output', (div_mantissa sum NUM_SENSORS).
  split; [exact Hrun |]. split; [exact Hload |].
  unfold beam_formula. now rewrite Hsum.
Qed.

Lemma beamformer_output_witness :
  let input := [[mk_dpa 8 0; mk_dpa 8 0; mk_dpa 8 0];
                [mk_dpa 4 0; mk_dpa 4 0; mk_dpa 4 0];
                [mk_dpa 1 0; mk_dpa 1 0; mk_dpa 1 0]] in
  exists output' y,
    delay_and_sum_beamforming input (zeros 3) 3 = Some output' /\
    load output' 2 = Some y /\
    beam_formula (Z.min NUM_SENSORS ADC_CHANNELS) NUM_SENSORS input 2 = Some y.
Proof.
  intros input.
  apply (beamformer_output input 3 3 (zeros 3) 3 2).
  - split; [reflexivity |]. repeat constructor.
  - vm_compute. discriminate.
  - lia.
  - vm_compute. discriminate.
  - lia.
Defined.

(** ** Discrete transform *)

Lemma angle_idx_range k n :
  0 <= k < Z.quot FFT_SIZE 2 -> 0 <= n < FFT_SIZE ->
  0 <= Z.rem (Z.quot (wrap32 (wrap32 (k * n) * 16)) FFT_SIZE) 16 < 16.
Proof.
  unfold FFT_SIZE. change (Z.quot 64 2) with 32. intros Hk Hn.
  assert (0 <= k * n <= 31 * 63) by nia.
  rewrite (wrap32_small (k * n)) by solve_range.
  rewrite wrap32_small by solve_range.
  apply Z.rem_bound_pos; [| lia].
  apply Z.quot_pos; lia.
Qed.

Lemma bin_acc_store (P : dpa_t -> Prop) k old cur v :
  bin_acc P k old cur -> P v ->
  exists new, store cur k v = Some new /\ bin_acc P k old new.
Proof.
  intros (Hlen & Hother & acc & Hacc & _) Hv.
  pose proof (load_bound _ _ _ Hacc) as Hk.
  exists (<[Z.to_nat k := v]> cur).
  pose proof (store_in_range cur k v Hk) as Hst.
  split; [exact Hst |]. split; [| split].
  - now rewrite length_insert.
  - intros j Hj. rewrite (load_store_ne _ _ _ _ _ Hst Hj). now apply Hother.
  - exists v. split; [exact (load_store_eq _ _ _ _ Hst) | assumption].
Qed.

Lemma bin_acc_init (P : dpa_t -> Prop) k old :
  0 <= k < Z.of_nat (length old) -> P (mk_dpa 0 0) ->
  exists new, store old k (mk_dpa 0 0) = Some new /\ bin_acc P k old new.
Proof.
  intros Hk H0. exists (<[Z.to_nat k := mk_dpa 0 0]> old).
  pose proof (store_in_range old k (mk_dpa 0 0) Hk) as Hst.
  split; [exact Hst |]. split; [| split].
  - now rewrite length_insert.
  - intros j Hj. exact (load_store_ne _ _ _ _ _ Hst Hj).
  - exists (mk_dpa 0 0). split; [exact (load_store_eq _ _ _ _ Hst) | assumption].
Qed.

Section Transform.
(** [X] holds of the input samples, [P] of the accumulators. *)
Variables X P : dpa_t -> Prop.
Hypothesis P_zero : P (mk_dpa 0 0).
Hypothesis P_term : forall x c acc, X x -> P acc -> P (dpa_add acc (dpa_multiply x c)).

Variable input : list dpa_t.
Hypothesis input_length : FFT_SIZE <= Z.of_nat (length input).
Hypothesis input_all : Forall X input.

Lemma dft_term_run k n re0 im0 re im :
  0 <= k < Z.quot FFT_SIZE 2 -> 0 <= n < FFT_SIZE ->
  bin_acc P k re0 re -> bin_acc P k im0 im ->
  exists re' im',
    dft_term input FFT_SIZE k n (re, im) = Some (re', im') /\
    bin_acc P k re0 re' /\ bin_acc P k im0 im'.
Proof.
  intros Hk Hn Hre Him.
  pose proof (angle_idx_range k n Hk Hn) as Hidx.
  destruct (load_in_range input n) as [x Hx]; [lia |].
  pose proof (load_Forall X _ _ _ Hx input_all) as Xx.
  destruct (load_in_range cos_table
              (Z.rem (Z.quot (wrap32 (wrap32 (k * n) * 16)) FFT_SIZE) 16))
    as [c Hc]; [exact Hidx |].
  destruct (load_in_range sin_table
              (Z.rem (Z.quot (wrap32 (wrap32 (k * n) * 16)) FFT_SIZE) 16))
    as [sn Hsn]; [exact Hidx |].
  pose proof Hre as (_ & _ & a & Ha & Pa).
  pose proof Him as (_ & _ & b & Hb & Pb).
  destruct (bin_acc_store P k re0 re (dpa_add a (dpa_multiply x c)) Hre)
    as (re' & Hre' & Hacc_re); [now apply P_term |].
  destruct (bin_acc_store P k im0 im (dpa_add b (dpa_multiply x sn)) Him)
    as (im' & Him' & Hacc_im); [now apply P_term |].
  exists re', im'. split; [| split; assumption].
  unfold dft_term. rewrite Hx. cbn [mbind option_bind].
  rewrite Hc. cbn [mbind option_bind]. rewrite Hsn. cbn [mbind option_bind].
  rewrite Ha. cbn [mbind option_bind]. rewrite Hre'. cbn [mbind option_bind].
  rewrite Hb. cbn [mbind option_bind]. rewrite Him'. reflexivity.
Qed.

Lemma dft_bin_run k re im :
  0 <= k < Z.quot FFT_SIZE 2 ->
  k < Z.of_nat (length re) -> k < Z.of_nat (length im) ->
  exists re' im',
    dft_bin input FFT_SIZE k (re, im) = Some (re', im') /\
    bin_acc P k re re' /\ bin_acc P k im im'.
Proof.
  intros Hk Hlre Hlim.
  destruct (bin_acc_init P k re) as (re1 & Hre1 & Hacc_re); [lia | assumption |].
  destruct (bin_acc_init P k im) as (im1 & Him1 & Hacc_im); [lia | assumption |].
  destruct (for_opt_inv
              (fun _ out => bin_acc P k re (fst out) /\ bin_acc P k im (snd out))
              (dft_term input FFT_SIZE k) (Z.to_nat FFT_SIZE) 0 (re1, im1))
    as ([re' im'] & Hrun & Hre' & Him').
  - now split.
  - intros n [re2 im2] Hn [Hre2 Him2]. cbn [fst snd] in *.
    destruct (dft_term_run k n re im re2 im2 Hk) as (re3 & im3 & Hstep & ? & ?);
      [unfold FFT_SIZE in *; lia | assumption | assumption |].
    exists (re3, im3). now split.
  - exists re', im'. split; [| now split].
    unfold dft_bin. rewrite Hre1. cbn [mbind option_bind].
    rewrite Him1. exact Hrun.
Qed.

Lemma bins_done_step k old cur new :
  0 <= k < Z.quot FFT_SIZE 2 ->
  bins_done P k old cur -> bin_acc P k cur new -> bins_done P (k + 1) old new.
Proof.
  intros Hk (Hlen & Hdone & Hrest) (Hlen' & Hother & b & Hb & Pb).
  split; [congruence |]. split.
  - intros j Hj. destruct (Z.eq_dec j k) as [-> | Hne]; [now exists b |].
    rewrite (Hother j Hne). apply Hdone. lia.
  - intros j Hj. rewrite Hother by lia. now apply Hrest.
Qed.

Lemma dpa_dft_run re im :
  FFT_SIZE <= Z.of_nat (length re) -> FFT_SIZE <= Z.of_nat (length im) ->
  exists re' im',
    dpa_dft input re im FFT_SIZE = Some (re', im') /\
    bins_done P (Z.quot FFT_SIZE 2) re re' /\
    bins_done P (Z.quot FFT_SIZE 2) im im'.
Proof.
  intros Hlre Hlim.
  destruct (for_opt_inv
              (fun k out => bins_done P k re (fst out) /\ bins_done P k im (snd out))
              (dft_bin input FFT_SIZE) (Z.to_nat (Z.quot FFT_SIZE 2)) 0 (re, im))
    as ([re' im'] & Hrun & Hre' & Him').
  - split; (split; [reflexivity |]; split; [intros j Hj; lia | reflexivity]).
  - intros k [re1 im1] Hk [Hre1 Him1]. cbn [fst snd] in *.
    assert (Hk' : 0 <= k < Z.quot FFT_SIZE 2) by sizes.
    destruct (dft_bin_run k re1 im1 Hk') as (re2 & im2 & Hstep & Hre2 & Him2).
    + destruct Hre1 as [-> _]. sizes.
    + destruct Him1 as [-> _]. sizes.
    + exists (re2, im2). split; [exact Hstep |]. cbn [fst snd].
      split; eapply bins_done_step; eassumption.
  - exists re', im'. split; [exact Hrun |]. now split.
Qed.
End Transform.

(** ** The pipeline *)

Lemma Forall_intro_load {A} (P : A -> Prop) (l : list A) :
  (forall i x, load l i = Some x -> P x) -> Forall P l.
Proof.
  intros H. apply Forall_lookup_2. intros i x Hx.
  apply (H (Z.of_nat i)). unfold load.
  destruct (Z.ltb_spec (Z.of_nat i) 0); [lia |]. now rewrite Nat2Z.id.
Qed.

Section Pipeline.
Variable R : Z -> Prop.
Variables S B P : dpa_t -> Prop.
Variable Q : Z -> Prop.

Hypothesis R_convert : forall raw, R raw -> S (dpa_from_int (wrap32 (raw - 2048)) 4).
Hypothesis S_zero : S (mk_dpa 0 0).
Hypothesis S_tap : forall coeff sample acc,
  S sample -> S acc -> S (dpa_add acc (dpa_multiply coeff sample)).
Hypothesis S_beam : forall input i sum,
  all2 S input ->
  beam_sum (Z.min NUM_SENSORS ADC_CHANNELS) input i = Some sum ->
  B (div_mantissa sum NUM_SENSORS).
Hypothesis P_zero : P (mk_dpa 0 0).
Hypothesis P_term : forall x c acc, B x -> P acc -> P (dpa_add acc (dpa_multiply x c)).
Hypothesis P_print : forall b, P b -> exists v, dpa_to_int b = Some v /\ Q v.

Lemma beam_stage_run s :
  rect ADC_CHANNELS BUFFER_SIZE (signal_buffer s) ->
  all2 S (signal_buffer s) ->
  Z.of_nat (length (output_buffer s)) = BUFFER_SIZE ->
  exists out',
    beam_stage s = Some (tt, set_output_buffer out' s) /\
    Z.of_nat (length out') = BUFFER_SIZE /\ Forall B out'.
Proof.
  intros Hrect Hall Hlen.
  destruct (beamforming_run (signal_buffer s) ADC_CHANNELS BUFFER_SIZE Hrect
              ltac:(sizes) (output_buffer s) BUFFER_SIZE)
    as (out' & Hrun & Hlen' & Hout); [sizes | lia |].
  exists out'. split; [| split].
  - unfold beam_stage, bind, gets, lift, modify. now rewrite Hrun.
  - now rewrite Hlen'.
  - apply Forall_intro_load. intros i x Hx.
    pose proof (load_bound _ _ _ Hx) as Hi.
    destruct (Hout i ltac:(lia)) as (sum & Hsum & Hy).
    rewrite Hx in Hy. injection Hy as ->.
    exact (S_beam _ _ _ Hall Hsum).
Qed.

Lemma print_loop_run s :
  bins_done P (Z.quot FFT_SIZE 2) (fft_real s) (fft_real s) ->
  exists printed,
    for_ 8 print_body s = Some (tt, set_console (console s ++ printed) s) /\
    length printed = 8%nat /\ Forall Q printed.
Proof.
  intros (_ & Hbins & _).
  destruct (for_inv
              (fun i st => exists printed,
                   st = set_console (console s ++ printed) s /\
                   Z.of_nat (length printed) = i /\ Forall Q printed)
              print_body 8 s)
    as (s' & Hrun & printed & -> & Hlen & HQ).
  - lia.
  - exists []. split; [| split; [reflexivity | constructor]].
    rewrite app_nil_r. now destruct s.
  - intros i st Hi (printed & -> & Hlen & HQ).
    destruct (Hbins i ltac:(sizes)) as (b & Hb & Pb).
    destruct (P_print b Pb) as (v & Hv & Qv).
    eexists. split.
    + unfold print_body, bind, gets, lift, modify. state_simpl.
      rewrite Hb, Hv. reflexivity.
    + exists (printed ++ [v]). split; [| split].
      * state_simpl. now rewrite app_assoc.
      * rewrite length_app. cbn. lia.
      * apply Forall_app. split; [assumption | now constructor].
  - exists printed. split; [exact Hrun |]. split; [lia | assumption].
Qed.

Lemma dft_stage_run s :
  Z.of_nat (length (output_buffer s)) = BUFFER_SIZE ->
  Forall B (output_buffer s) ->
  Z.of_nat (length (fft_real s)) = FFT_SIZE ->
  Z.of_nat (length (fft_imag s)) = FFT_SIZE ->
  exists re' im' printed,
    dft_stage s = Some (tt, set_console (console s ++ printed) (set_fft re' im' s)) /\
    bins_done P (Z.quot FFT_SIZE 2) (fft_real s) re' /\
    bins_done P (Z.quot FFT_SIZE 2) (fft_imag s) im' /\
    length printed = 8%nat /\ Forall Q printed.
Proof.
  intros Hlen HB Hre Him.
  destruct (dpa_dft_run B P P_zero P_term (output_buffer s) ltac:(sizes) HB
              (fft_real s) (fft_imag s))
    as (re' & im' & Hrun & Hre' & Him'); [lia | lia |].
  destruct (print_loop_run (set_fft re' im' s)) as (printed & Hprint & Hl & HQ).
  { state_simpl. destruct Hre' as (Hl & Hdone & _).
    split; [reflexivity |]. split; [assumption | reflexivity]. }
  exists re', im', printed.
  split; [| split; [exact Hre' | split; [exact Him' | split; assumption]]].
  unfold dft_stage. change (BUFFER_SIZE >=? FFT_SIZE) with true. cbv iota.
  unfold bind at 1 2 3 4 5. unfold gets, lift, modify.
  rewrite Hrun. cbn [fst snd]. exact Hprint.
Qed.

(** One block, from any state in which a block can be processed. *)
Lemma process_audio_block_run s :
  block_ready R S s ->
  exists s', process_audio_block s = Some (tt, s') /\ block_done S B P Q s s'.
Proof.
  intros (Hadc & HR & Hsig & Hout & Hline & HS & Hcur & Hre & Him).
  destruct (convert_stage_run R S R_convert s Hadc HR Hsig)
    as (sig1 & Hconv & Hsig1 & HS1).
  assert (Hs1 : set_signal_buffer sig1 s
                = fir_state s sig1 (fir_delay s) (fir_index s) (trace s))
    by reflexivity.
  destruct (fir_stage_run S S_zero S_tap s (fir_index s) Hcur sig1 (fir_delay s)
              (trace s)) as (sig2 & line2 & Hfir & Hsig2 & Hline2 & HS2 & HSl2).
  { repeat split; assumption || apply Hsig1 || apply Hline. }
  set (s2 := fir_state s sig2 line2 (fir_index s)
               (trace s ++ block_trace (fir_index s) ADC_CHANNELS)) in *.
  destruct (beam_stage_run s2 Hsig2 HS2 Hout) as (out3 & Hbeam & Hout3 & HB3).
  destruct (dft_stage_run (set_output_buffer out3 s2) Hout3 HB3 Hre Him)
    as (re4 & im4 & printed & Hdft & Hre4 & Him4 & Hl & HQ).
  eexists. split.
  - unfold process_audio_block, bind.
    rewrite Hconv, Hs1, Hfir. fold s2. rewrite Hbeam. exact Hdft.
  - unfold block_done. subst s2. state_simpl.
    repeat (split; [first [assumption | reflexivity] |]).
    split; [now exists printed | reflexivity].
Qed.
End Pipeline.

(** ** Values of mantissa zero, and the scale of a sum *)

Lemma wrap32_0 : wrap32 0 = 0.
Proof. reflexivity. Qed.

Lemma dpa_multiply_zero_l a b : mantissa a = 0 -> mantissa (dpa_multiply a b) = 0.
Proof. intros H. unfold dpa_multiply. rewrite H, Z.mul_0_l. reflexivity. Qed.

Lemma dpa_multiply_zero_r a b : mantissa b = 0 -> mantissa (dpa_multiply a b) = 0.
Proof. intros H. unfold dpa_multiply. rewrite H, Z.mul_0_r. reflexivity. Qed.

Lemma dpa_add_zero a b :
  mantissa a = 0 -> mantissa b = 0 -> mantissa (dpa_add a b) = 0.
Proof.
  intros Ha Hb. unfold dpa_add.
  destruct (point a =? point b); [cbn; now rewrite Ha, Hb |].
  destruct (point a >? point b).
  - destruct (point a - point b >? 10); [assumption |].
    cbn. now rewrite Ha, Hb, Z.mul_0_l.
  - destruct (point b - point a >? 10); [assumption |].
    cbn. now rewrite Ha, Hb, Z.mul_0_l.
Qed.

(** The sum has the scale of the larger operand: never below the first. *)
Lemma dpa_add_point_ge a b : point a <= point (dpa_add a b).
Proof.
  unfold dpa_add.
  destruct (Z.eqb_spec (point a) (point b)); [cbn; lia |].
  destruct (Z.gtb_spec (point a) (point b)).
  - destruct (point a - point b >? 10); cbn; lia.
  - destruct (point b - point a >? 10); cbn; lia.
Qed.

Lemma div_mantissa_zero a d : mantissa a = 0 -> mantissa (div_mantissa a d) = 0.
Proof. intros H. unfold div_mantissa. cbn. rewrite H. now destruct d. Qed.

Lemma dpa_to_int_nonneg b :
  0 <= point b -> dpa_to_int b = Some (wrap32 (mantissa b * pow10_i32 (point b))).
Proof.
  intros H. unfold dpa_to_int. destruct (Z.geb_spec (point b) 0); [reflexivity | lia].
Qed.

Lemma denote_zero a : mantissa a = 0 -> (denote a == 0)%Q.
Proof. intros H. unfold denote. rewrite H. apply Qmult_0_l. Qed.

Lemma beam_sum_zero channels input i sum :
  all2 (fun x => mantissa x = 0) input ->
  beam_sum channels input i = Some sum -> mantissa sum = 0.
Proof.
  intros Hin. unfold beam_sum.
  assert (Hgen : forall l acc,
             (forall a, acc = Some a -> mantissa a = 0) ->
             fold_left (beam_add input i) l acc = Some sum -> mantissa sum = 0).
  { induction l as [|ch l IH]; intros acc Hacc Hf; cbn in Hf; [now apply Hacc |].
    refine (IH _ _ Hf). clear Hf IH.
    intros a Ha. unfold beam_add in Ha.
    destruct acc as [a0|]; [| discriminate]. cbn [mbind option_bind] in Ha.
    destruct (load delays ch) as [d|]; [| discriminate]. cbn [mbind option_bind] in Ha.
    destruct (i - d >=? 0).
    - destruct (load2 input ch (i - d)) as [x|] eqn:Hx; [| discriminate].
      cbn [mbind option_bind] in Ha. injection Ha as <-.
      apply dpa_add_zero; [now apply Hacc |].
      exact (load2_all2 _ _ _ _ _ Hx Hin).
    - injection Ha as <-. now apply Hacc. }
  apply Hgen. now intros a [= <-].
Qed.

(** ** Cursor history of a block *)

Lemma advances_app tr1 tr2 : advances (tr1 ++ tr2) = advances tr1 + advances tr2.
Proof. unfold advances. rewrite List.filter_app, length_app. lia. Qed.

Lemma advances_flat_map {A} (f : A -> list event) (k : Z) (l : list A) :
  (forall x, advances (f x) = k) ->
  advances (flat_map f l) = k * Z.of_nat (length l).
Proof.
  intros Hf. induction l as [|x l IH].
  - cbn [flat_map length]. change (Z.of_nat 0) with 0. now rewrite Z.mul_0_r.
  - cbn [flat_map length]. rewrite advances_app, Hf, IH. lia.
Qed.

(** The cursor is assigned once after each of the
    [ADC_CHANNELS * BUFFER_SIZE] calls of the filter. *)
Lemma advances_block_trace c0 :
  advances (block_trace c0 ADC_CHANNELS) = ADC_CHANNELS * BUFFER_SIZE.
Proof.
  unfold block_trace.
  rewrite (advances_flat_map _ BUFFER_SIZE).
  - rewrite length_seqZ. unfold ADC_CHANNELS, BUFFER_SIZE. lia.
  - intros ch. unfold channel_trace.
    rewrite (advances_flat_map _ 1); [| reflexivity].
    rewrite length_seqZ. unfold BUFFER_SIZE. lia.
Qed.

Lemma In_seqZ x n : In x (seqZ 0 n) -> 0 <= x < n.
Proof. intros H%list_elem_of_In%elem_of_seqZ. lia. Qed.

(** Sample [i] of every channel is filtered with the cursor at
    [(c0 + i) % FIR_TAPS]. *)
Lemma filter_events_block_trace c0 ch i c :
  In (EvFilter ch i c) (block_trace c0 ADC_CHANNELS) ->
  0 <= ch < ADC_CHANNELS /\ 0 <= i < BUFFER_SIZE /\ c = Z.rem (c0 + i) FIR_TAPS.
Proof.
  unfold block_trace, channel_trace.
  intros (ch' & Hch & (i' & Hi & He)%in_flat_map)%in_flat_map.
  apply In_seqZ in Hch, Hi.
  destruct He as [[= <- <- <-] | [[=] | []]]. now repeat split.
Qed.

Lemma block_trace_filter_events c0 ch i :
  0 <= ch < ADC_CHANNELS -> 0 <= i < BUFFER_SIZE ->
  In (EvFilter ch i (Z.rem (c0 + i) FIR_TAPS)) (block_trace c0 ADC_CHANNELS).
Proof.
  intros Hch Hi. unfold block_trace, channel_trace.
  apply in_flat_map. exists ch. split.
  - apply list_elem_of_In, elem_of_seqZ. lia.
  - apply in_flat_map. exists i. split.
    + apply list_elem_of_In, elem_of_seqZ. lia.
    + now left.
Qed.

Lemma all2_True {A} (m : list (list A)) : all2 (fun _ => True) m.
Proof. apply all2_intro. trivial. Qed.

(** Without any assumption on the contents of the buffers a block is
    processed to the end: no index leaves its array, and the bins
    printed have a non-negative scale, so that no division takes place. *)
Lemma process_audio_block_total s :
  block_ready (fun _ => True) (fun _ => True) s ->
  exists s',
    process_audio_block s = Some (tt, s') /\
    block_done (fun _ => True) (fun _ => True) (fun b => 0 <= point b)
               (fun _ => True) s s'.
Proof.
  apply process_audio_block_run.
  - trivial.
  - trivial.
  - trivial.
  - trivial.
  - cbn. lia.
  - intros x c acc _ H. pose proof (dpa_add_point_ge acc (dpa_multiply x c)). lia.
  - intros b Hb. eexists. split; [exact (dpa_to_int_nonneg b Hb) | trivial].
Qed.

Lemma rect_replicate {A} (n m : nat) (x : A) :
  rect (Z.of_nat n) (Z.of_nat m) (replicate n (replicate m x)).
Proof.
  split; [now rewrite length_replicate |].
  apply Forall_replicate. now rewrite length_replicate.
Qed.

Lemma all2_replicate {A} (P : A -> Prop) (n m : nat) (x : A) :
  P x -> all2 P (replicate n (replicate m x)).
Proof. intros H. apply Forall_replicate. now apply Forall_replicate. Qed.

(** The state at the first block is one in which a block can be processed. *)
Lemma initial_state_ready (R : Z -> Prop) (S : dpa_t -> Prop) adc :
  rect ADC_CHANNELS BUFFER_SIZE adc -> all2 R adc -> S (mk_dpa 0 0) ->
  block_ready R S (initial_state adc).
Proof.
  intros Hadc HR HS. unfold block_ready, initial_state, zeros.
  cbn [adc_buffer signal_buffer output_buffer fir_delay fir_index fft_real fft_imag].
  split; [assumption |]. split; [assumption |].
  split; [apply (rect_replicate 3 256) |].
  split; [now rewrite length_replicate |].
  split; [apply (rect_replicate 3 32) |].
  split; [now apply all2_replicate |].
  split; [sizes |].
  split; now rewrite length_replicate.
Qed.

Lemma constant_block_ready (R : Z -> Prop) (S : dpa_t -> Prop) v :
  R v -> S (mk_dpa 0 0) -> block_ready R S (initial_state (constant_block v)).
Proof.
  intros HR HS. apply initial_state_ready; [| | assumption].
  - apply (rect_replicate 3 256).
  - now apply all2_replicate.
Qed.

(** C7, as stated, fails: in a block the cursor is assigned 768 times,
    not 256 times. *)
Lemma cursor_not_advanced_once_per_index :
  ~ (forall s s',
       block_ready (fun _ => True) (fun _ => True) s ->
       process_audio_block s = Some (tt, s') ->
       exists new, trace s' = trace s ++ new /\ advances new = BUFFER_SIZE).
Proof.
  intros H.
  set (s := initial_state (constant_block 2048)).
  assert (Hready : block_ready (fun _ => True) (fun _ => True) s)
    by now apply constant_block_ready.
  destruct (process_audio_block_total s Hready) as (s' & Hrun & Hdone).
  destruct (H s s' Hready Hrun) as (new & Hnew & Hcount).
  destruct Hdone as (_ & _ & _ & _ & _ & _ & _ & _ & _ & _ & _ & Htrace).
  rewrite Htrace in Hnew. apply app_inv_head in Hnew. subst new.
  rewrite advances_block_trace in Hcount. discriminate Hcount.
Qed.

(** C7, amended. In a block the cursor is advanced once after each call
    of the filter, [ADC_CHANNELS * BUFFER_SIZE = 768] times, channel by
    channel; the block size being a multiple of the tap count, sample
    [i] of every channel is filtered with the cursor at
    [(c0 + i) % FIR_TAPS], where [c0] is the cursor at the start of the
    block, and the cursor ends the block at [c0]. *)
Theorem cursor_advanced_after_each_call (s : state) :
  block_ready (fun _ => True) (fun _ => True) s ->
  exists s',
    process_audio_block s = Some (tt, s') /\
    trace s' = trace s ++ block_trace (fir_index s) ADC_CHANNELS /\
    advances (block_trace (fir_index s) ADC_CHANNELS) = ADC_CHANNELS * BUFFER_SIZE /\
    (forall ch i, 0 <= ch < ADC_CHANNELS -> 0 <= i < BUFFER_SIZE ->
       In (EvFilter ch i (Z.rem (fir_index s + i) FIR_TAPS))
          (block_trace (fir_index s) ADC_CHANNELS)) /\
    (forall ch i c, In (EvFilter ch i c) (block_trace (fir_index s) ADC_CHANNELS) ->
       c = Z.rem (fir_index s + i) FIR_TAPS) /\
    fir_index s' = fir_index s.
Proof.
  intros Hready.
  destruct (process_audio_block_total s Hready) as (s' & Hrun & Hdone).
  destruct Hdone as (_ & _ & _ & _ & _ & _ & _ & Hcur & _ & _ & _ & Htrace).
  exists s'. split; [exact Hrun |]. split; [exact Htrace |].
  split; [apply advances_block_trace |].
  split; [intros ch i; apply block_trace_filter_events |].
  split; [| exact Hcur].
  intros ch i c Hin. now destruct (filter_events_block_trace _ _ _ _ Hin) as (_ & _ & ->).
Qed.

Lemma cursor_advanced_after_each_call_witness :
  let s := initial_state (constant_block 100) in
  exists s',
    process_audio_block s = Some (tt, s') /\
    advances (trace s') = 768 /\ fir_index s' = 0.
Proof.
  intros s.
  assert (Hready : block_ready (fun _ => True) (fun _ => True) s)
    by (apply constant_block_ready; exact I).
  destruct (cursor_advanced_after_each_call s Hready)
    as (s' & Hrun & Htrace & Hcount & _ & _ & Hcur).
  exists s'. split; [exact Hrun |]. split; [| exact Hcur].
  rewrite Htrace. exact Hcount.
Defined.

(** ** End to end on a mid-scale block *)

Lemma Forall_eq_replicate (l : list Z) v : Forall (fun x => x = v) l -> l = replicate (length l) v.
Proof. induction 1 as [|x l -> _ IH]; [reflexivity |]. cbn. now rewrite <- IH. Qed.

(** C9. When every raw sample of the block is 2048 and the delay lines
    hold zeros (cleared, or left by such a block), the block is
    processed to the end, every filtered sample and every beamformed
    sample stands for zero, every bin of the transform converts to the
    integer 0, and eight zeros are printed. *)
Theorem midscale_block_all_zero (s : state) :
  block_ready (fun raw => raw = 2048) (fun x => mantissa x = 0) s ->
  exists s',
    process_audio_block s = Some (tt, s') /\
    all2 (fun x => (denote x == 0)%Q) (signal_buffer s') /\
    Forall (fun x => (denote x == 0)%Q) (output_buffer s') /\
    (forall k, 0 <= k < Z.quot FFT_SIZE 2 ->
       exists re im,
         load (fft_real s') k = Some re /\ load (fft_imag s') k = Some im /\
         dpa_to_int re = Some 0 /\ dpa_to_int im = Some 0) /\
    console s' = console s ++ [0; 0; 0; 0; 0; 0; 0; 0].
Proof.
  intros Hready.
  destruct (process_audio_block_run
              (fun raw => raw = 2048) (fun x => mantissa x = 0)
              (fun x => mantissa x = 0)
              (fun b => mantissa b = 0 /\ 0 <= point b) (fun v => v = 0))
    with (s := s) as (s' & Hrun & Hdone); try assumption.
  - intros raw ->. reflexivity.
  - reflexivity.
  - intros coeff sample acc Hs Ha.
    apply dpa_add_zero; [assumption | now apply dpa_multiply_zero_r].
  - intros input i sum Hin Hsum. apply div_mantissa_zero.
    exact (beam_sum_zero _ _ _ _ Hin Hsum).
  - split; [reflexivity | cbn; lia].
  - intros x c acc Hx [Ha Hp]. split.
    + apply dpa_add_zero; [assumption | now apply dpa_multiply_zero_l].
    + pose proof (dpa_add_point_ge acc (dpa_multiply x c)). lia.
  - intros b [Hm Hp]. exists 0. split; [| reflexivity].
    rewrite (dpa_to_int_nonneg b Hp), Hm, Z.mul_0_l. reflexivity.
  - destruct Hdone as (_ & _ & Hsig & _ & Hout & _ & _ & _ & Hre & Him & Hprint & _).
    exists s'. split; [exact Hrun |].
    split; [| split; [| split]].
    + eapply Forall_impl; [exact Hsig |]. intros row Hrow.
      eapply Forall_impl; [exact Hrow |]. intros x. apply denote_zero.
    + eapply Forall_impl; [exact Hout |]. intros x. apply denote_zero.
    + intros k Hk.
      destruct Hre as (_ & Hre & _). destruct Him as (_ & Him & _).
      destruct (Hre k Hk) as (re & Hlre & Hmre & Hpre).
      destruct (Him k Hk) as (im & Hlim & Hmim & Hpim).
      exists re, im. split; [assumption |]. split; [assumption |].
      rewrite (dpa_to_int_nonneg re Hpre), (dpa_to_int_nonneg im Hpim).
      rewrite Hmre, Hmim, !Z.mul_0_l. split; reflexivity.
    + destruct Hprint as (printed & -> & Hlen & HQ).
      apply Forall_eq_replicate in HQ. rewrite Hlen in HQ. now rewrite HQ.
Qed.

Lemma midscale_block_all_zero_witness :
  let s := initial_state (constant_block 2048) in
  exists s',
    process_audio_block s = Some (tt, s') /\
    all2 (fun x => (denote x == 0)%Q) (signal_buffer s') /\
    Forall (fun x => (denote x == 0)%Q) (output_buffer s') /\
    console s' = [0; 0; 0; 0; 0; 0; 0; 0].
Proof.
  intros s.
  assert (Hready : block_ready (fun raw => raw = 2048) (fun x => mantissa x = 0) s)
    by (apply constant_block_ready; reflexivity).
  destruct (midscale_block_all_zero s Hready) as (s' & Hrun & Hsig & Hout & _ & Hcon).
  exists s'. split; [exact Hrun |]. split; [exact Hsig |]. split; [exact Hout |].
  exact Hcon.
Defined.

(** ** Impulse response *)

(** C6. From cleared delay lines and the cursor at 0, the impulse
    [{1,0}] followed by [{0,0}] gives 32 outputs of scale 0: the
    mantissa of coefficient [k] times [10^6], reduced to 32 bits from
    coefficient 16 on. None of them stands for its coefficient; the
    first one is -41000000 where the coefficient is -0.000041. *)
Theorem fir_impulse_response_scaled :
  exists outputs,
    fst <$> impulse_response 0 (mk_dpa 1 0) (mk_dpa 0 0) (initial_state []) = Some outputs /\
    outputs =
      [ mk_dpa (-41000000) 0;    mk_dpa (-134000000) 0;   mk_dpa (-207000000) 0;
        mk_dpa (-180000000) 0;   mk_dpa (-12000000) 0;    mk_dpa 244000000 0;
        mk_dpa 494000000 0;      mk_dpa 583000000 0;      mk_dpa 394000000 0;
        mk_dpa (-67000000) 0;    mk_dpa (-693000000) 0;   mk_dpa (-1266000000) 0;
        mk_dpa (-1528000000) 0;  mk_dpa (-1246000000) 0;  mk_dpa (-434000000) 0;
        mk_dpa 1116000000 0;     mk_dpa (-899967296) 0;   mk_dpa 1956032704 0;
        mk_dpa 777065408 0;      mk_dpa (-526901888) 0;   mk_dpa 1923098112 0;
        mk_dpa (-808869184) 0;   mk_dpa (-416869184) 0;   mk_dpa (-1371869184) 0;
        mk_dpa 574098112 0;      mk_dpa 1216065408 0;     mk_dpa 786032704 0;
        mk_dpa (-331000000) 0;   mk_dpa (-1511032704) 0;  mk_dpa (-2056065408) 0;
        mk_dpa (-1423098112) 0;  mk_dpa 639869184 0 ] /\
    Forall2 (fun y coeff => ~ (denote y == denote coeff)%Q) outputs fir_coeffs.
Proof.
  eexists. split; [vm_compute; reflexivity |]. split; [reflexivity |].
  repeat (constructor; [apply Qeq_decide; vm_compute; reflexivity |]).
  constructor.
Qed.

(** The same experiment on the values the pipeline produces,
    [dpa_from_int(1, 4)] and [dpa_from_int(0, 4)]: the first output is
    1550565376, again of scale 0. *)
Example fir_impulse_response_pipeline_values :
  exists outputs,
    fst <$> impulse_response 0 (dpa_from_int 1 4) (dpa_from_int 0 4) (initial_state [])
      = Some outputs /\
    outputs !! 0%nat = Some (mk_dpa 1550565376 0) /\
    Forall (fun y => point y = 0) outputs.
Proof.
  eexists. split; [vm_compute; reflexivity |]. split; [reflexivity |].
  repeat constructor.
Qed.

(** Whatever scaled value is chosen to stand for 1, the first output of
    the impulse response has scale 0 and stands for an integer, not for
    the first coefficient. *)

Lemma inject_Z_eq (x y : Z) : (inject_Z x == inject_Z y)%Q -> x = y.
Proof. apply inject_Z_injective. Qed.

Lemma Qpower_10_nonneg (n : Z) :
  0 <= n -> (Qpower (inject_Z 10) n == inject_Z (10 ^ n))%Q.
Proof. intros H. symmetry. now apply Zpower_Qpower. Qed.

Lemma denote_one_point (x : dpa_t) :
  dpa_wf x -> (denote x == 1)%Q -> -9 <= point x <= 0.
Proof.
  destruct x as [m p]. intros [Hm _]. unfold denote. cbn [mantissa point] in *.
  intros H. destruct (Z.lt_trichotomy p 0) as [Hneg | [-> | Hpos]]; [| lia |].
  - replace p with (- (- p)) in H by lia.
    rewrite Qpower_opp, Qpower_10_nonneg in H by lia.
    assert (Hpow : 0 < 10 ^ (- p)) by (apply Z.pow_pos_nonneg; lia).
    assert (Hne : ~ (inject_Z (10 ^ (- p)) == 0)%Q).
    { intros E. apply (inject_Z_eq _ 0) in E. lia. }
    assert (Hm' : (inject_Z m == inject_Z (10 ^ (- p)))%Q).
    { rewrite <- (Qmult_1_l (inject_Z (10 ^ (- p)))), <- H.
      rewrite <- Qmult_assoc, (Qmult_comm (/ _)), Qmult_inv_r by assumption.
      now rewrite Qmult_1_r. }
    apply inject_Z_eq in Hm'.
    assert (- p <= 9); [| lia].
    apply pow10_fits_small; [lia |]. now rewrite <- Hm'.
  - exfalso. rewrite Qpower_10_nonneg, <- inject_Z_mult in H by lia.
    apply (inject_Z_eq _ 1) in H.
    assert (10 ^ 1 <= 10 ^ p) by (apply Z.pow_le_mono_r; lia).
    change (10 ^ 1) with 10 in *.
    destruct (Z.le_gt_cases m 0); nia.
Qed.

Lemma fir_coeffs_point i coeff : load fir_coeffs i = Some coeff -> point coeff = -6.
Proof.
  intros H. apply (load_Forall (fun c => point c = -6) fir_coeffs i coeff H).
  repeat constructor.
Qed.

Lemma dpa_multiply_point_cases a b :
  point (dpa_multiply a b) = wrap8 (point a + point b) \/
  point (dpa_multiply a b) = wrap8 (point a + point b + 3).
Proof.
  unfold dpa_multiply.
  destruct ((_ >? INT32_MAX) || (_ <? INT32_MIN)); cbn; [now right | now left].
Qed.

Lemma dpa_add_point_left a b : point b < point a -> point (dpa_add a b) = point a.
Proof.
  intros H. unfold dpa_add.
  destruct (Z.eqb_spec (point a) (point b)); [lia |].
  destruct (Z.gtb_spec (point a) (point b)); [| lia].
  now destruct (point a - point b >? 10).
Qed.

Lemma impulse_first_output_integer (one : dpa_t) :
  dpa_wf one -> (denote one == 1)%Q ->
  exists y s',
    fir_filter 0 one (initial_state []) = Some (y, s') /\
    point y = 0 /\
    forall coeff, load fir_coeffs 0 = Some coeff -> ~ (denote y == denote coeff)%Q.
Proof.
  intros Hwf Hone. pose proof (denote_one_point one Hwf Hone) as Hp.
  set (s := initial_state []).
  assert (Hrect : rect ADC_CHANNELS FIR_TAPS (fir_delay s))
    by apply (rect_replicate 3 32).
  assert (Hall : all2 (fun x => -9 <= point x <= 0) (fir_delay s))
    by (apply all2_replicate; cbn; lia).
  destruct (fir_filter_run (fun acc => point acc = 0) s 0 one Hrect)
    as (line & y & Hline & Hrun & Hy); [sizes | cbn; sizes | reflexivity | |].
  { intros l i coeff sample acc Hl Hcoeff Hsample Hacc.
    apply fir_coeffs_point in Hcoeff.
    pose proof (load2_all2 _ _ _ _ _ Hsample
                  (store2_all2 _ _ _ _ _ _ Hl Hall Hp)) as Hs.
    cbn beta in Hs.
    rewrite dpa_add_point_left; [assumption |]. rewrite Hacc.
    destruct (dpa_multiply_point_cases coeff sample) as [-> | ->];
      rewrite Hcoeff, wrap8_small by (unfold in_int8; lia); lia. }
  exists y, (set_fir_delay line s). split; [exact Hrun |]. split; [exact Hy |].
  intros coeff [= <-]. unfold denote at 1. rewrite Hy.
  change (Qpower (inject_Z 10) 0) with 1%Q. rewrite Qmult_1_r.
  intros E. assert (E' : (inject_Z (mantissa y) == -41 # 1000000)%Q)
    by (rewrite E; reflexivity).
  unfold Qeq in E'. cbn in E'. lia.
Qed.

(** * Further properties of the arithmetic *)

(** ** Addition *)

(** Addition does not depend on the order of its operands, skipped
    alignments included. *)
Theorem dpa_add_comm (a b : dpa_t) : dpa_add a b = dpa_add b a.
Proof.
  unfold dpa_add.
  destruct (Z.eqb_spec (point a) (point b)) as [E | N].
  - rewrite E, Z.eqb_refl. now rewrite Z.add_comm.
  - destruct (Z.eqb_spec (point b) (point a)); [congruence |].
    destruct (Z.gtb_spec (point a) (point b)).
    + destruct (Z.gtb_spec (point b) (point a)); [lia |].
      destruct (point a - point b >? 10); [reflexivity |].
      now rewrite Z.add_comm.
    + destruct (Z.gtb_spec (point b) (point a)); [| lia].
      destruct (point b - point a >? 10); [reflexivity |].
      now rewrite Z.add_comm.
Qed.

(** The scale of a sum is the larger of the two scales. *)
Theorem dpa_add_point_max (a b : dpa_t) :
  point (dpa_add a b) = Z.max (point a) (point b).
Proof.
  unfold dpa_add.
  destruct (Z.eqb_spec (point a) (point b)); [cbn; lia |].
  destruct (Z.gtb_spec (point a) (point b)).
  - destruct (point a - point b >? 10); cbn; lia.
  - destruct (point b - point a >? 10); cbn; lia.
Qed.

Lemma wrap32_add_l (x y : Z) : wrap32 (wrap32 x + y) = wrap32 (x + y).
Proof.
  unfold wrap32, wrap.
  change (2 ^ (32 - 1)) with 2147483648. change (2 ^ 32) with 4294967296.
  f_equal.
  replace ((x + 2147483648) mod 4294967296 - 2147483648 + y + 2147483648)
    with ((x + 2147483648) mod 4294967296 + y) by lia.
  rewrite Z.add_mod_idemp_l by lia. f_equal. lia.
Qed.

(** On operands of one scale the addition is associative, overflows
    included: the mantissas add up modulo [2^32]. *)
Theorem dpa_add_assoc_equal_scale (a b c : dpa_t) :
  point a = point b -> point b = point c ->
  dpa_add (dpa_add a b) c = dpa_add a (dpa_add b c).
Proof.
  destruct a as [ma pa], b as [mb pb], c as [mc pc]. cbn [point].
  intros -> ->. unfold dpa_add. cbn [mantissa point].
  rewrite ?Z.eqb_refl. cbn [mantissa point]. rewrite ?Z.eqb_refl.
  f_equal. rewrite wrap32_add_l.
  rewrite (Z.add_comm ma (wrap32 _)), wrap32_add_l. f_equal. lia.
Qed.

Lemma dpa_add_assoc_equal_scale_witness :
  point (mk_dpa 2147483647 (-4)) = point (mk_dpa 1 (-4)) /\
  point (mk_dpa 1 (-4)) = point (mk_dpa (-5) (-4)) /\
  dpa_add (dpa_add (mk_dpa 2147483647 (-4)) (mk_dpa 1 (-4))) (mk_dpa (-5) (-4))
  = dpa_add (mk_dpa 2147483647 (-4)) (dpa_add (mk_dpa 1 (-4)) (mk_dpa (-5) (-4))).
Proof.
  split; [reflexivity |]. split; [reflexivity |].
  apply (dpa_add_assoc_equal_scale
           (mk_dpa 2147483647 (-4)) (mk_dpa 1 (-4)) (mk_dpa (-5) (-4)));
    reflexivity.
Defined.

(** On operands of one scale whose mantissas add up within 32 bits, the
    sum stands for the sum of the quantities. *)
Theorem dpa_add_equal_scale_exact (a b : dpa_t) :
  point a = point b -> in_int32 (mantissa a + mantissa b) ->
  (denote (dpa_add a b) == denote a + denote b)%Q.
Proof.
  intros Hp Hsum. unfold dpa_add. rewrite Hp, Z.eqb_refl.
  unfold denote. cbn [mantissa point].
  rewrite wrap32_small by assumption. rewrite inject_Z_plus, Hp. ring.
Qed.

Lemma dpa_add_equal_scale_exact_witness :
  point (mk_dpa 150 (-2)) = point (mk_dpa 275 (-2)) /\
  in_int32 (150 + 275) /\
  (denote (dpa_add (mk_dpa 150 (-2)) (mk_dpa 275 (-2)))
   == denote (mk_dpa 150 (-2)) + denote (mk_dpa 275 (-2)))%Q.
Proof.
  split; [reflexivity |]. split; [solve_range |].
  apply (dpa_add_equal_scale_exact (mk_dpa 150 (-2)) (mk_dpa 275 (-2)));
    [reflexivity | solve_range].
Defined.

Lemma dpa_add_zero_r (a z : dpa_t) :
  dpa_wf a -> mantissa z = 0 -> point z <= point a -> dpa_add a z = a.
Proof.
  intros [Hm _] Hz Hp.
  unfold dpa_add. destruct a as [m p]. cbn [mantissa point] in *. rewrite Hz.
  destruct (Z.eqb_spec p (point z)).
  - now rewrite Z.add_0_r, wrap32_small.
  - destruct (Z.gtb_spec p (point z)); [| lia].
    destruct (p - point z >? 10); [reflexivity |].
    rewrite Z.mul_0_l, wrap32_0, Z.add_0_r. now rewrite wrap32_small.
Qed.

(** A zero of the same or a smaller scale, whatever that scale, changes
    nothing, on either side: this is what the accumulations of the
    pipeline rely on when the samples are zero. *)
Theorem dpa_add_zero_of_lower_scale (a z : dpa_t) :
  dpa_wf a -> mantissa z = 0 -> point z <= point a ->
  dpa_add a z = a /\ dpa_add z a = a.
Proof.
  intros Ha Hz Hp. split; [now apply dpa_add_zero_r |].
  destruct Ha as [Hm _].
  unfold dpa_add. destruct a as [m p]. cbn [mantissa point] in *. rewrite Hz.
  destruct (Z.eqb_spec (point z) p) as [E | N].
  - rewrite Z.add_0_l, wrap32_small by assumption. now rewrite E.
  - destruct (Z.gtb_spec (point z) p); [lia |].
    destruct (p - point z >? 10); [reflexivity |].
    rewrite Z.mul_0_l, wrap32_0, Z.add_0_l. now rewrite wrap32_small.
Qed.

Lemma dpa_add_zero_of_lower_scale_witness :
  dpa_wf (mk_dpa 1234 0) /\ mantissa (mk_dpa 0 (-10)) = 0 /\
  point (mk_dpa 0 (-10)) <= point (mk_dpa 1234 0) /\
  dpa_add (mk_dpa 1234 0) (mk_dpa 0 (-10)) = mk_dpa 1234 0 /\
  dpa_add (mk_dpa 0 (-10)) (mk_dpa 1234 0) = mk_dpa 1234 0.
Proof.
  split; [solve_range |]. split; [reflexivity |]. split; [simpl; lia |].
  apply (dpa_add_zero_of_lower_scale (mk_dpa 1234 0) (mk_dpa 0 (-10)));
    [solve_range | reflexivity | simpl; lia].
Defined.

(** ** Multiplication *)

Theorem dpa_multiply_comm (a b : dpa_t) : dpa_multiply a b = dpa_multiply b a.
Proof.
  unfold dpa_multiply.
  now rewrite (Z.mul_comm (mantissa a)), (Z.add_comm (point a)).
Qed.

Lemma dpa_multiply_in_range (a b : dpa_t) :
  dpa_wf a -> dpa_wf b -> in_int32 (mantissa a * mantissa b) ->
  dpa_multiply a b = mk_dpa (mantissa a * mantissa b) (wrap8 (point a + point b)).
Proof.
  intros Ha Hb Hin. unfold dpa_multiply. rewrite product_exact by assumption.
  pose proof Hin as [Hlo Hhi].
  destruct (Z.gtb_spec (mantissa a * mantissa b) INT32_MAX); [lia |].
  destruct (Z.ltb_spec (mantissa a * mantissa b) INT32_MIN); [lia |].
  cbn [orb]. now rewrite wrap32_small.
Qed.

Lemma dpa_multiply_out_of_range (a b : dpa_t) :
  dpa_wf a -> dpa_wf b -> ~ in_int32 (mantissa a * mantissa b) ->
  dpa_multiply a b
  = mk_dpa (wrap32 (Z.quot (mantissa a * mantissa b) 1000))
           (wrap8 (point a + point b + 3)).
Proof.
  intros Ha Hb Hout. unfold dpa_multiply. rewrite product_exact by assumption.
  assert (Hrange : - 9223372036854775808 <= mantissa a * mantissa b
                   <= 9223372036854775807).
  { destruct Ha as [[? ?] _], Hb as [[? ?] _]. unfold INT32_MIN, INT32_MAX in *. nia. }
  destruct ((_ >? INT32_MAX) || (_ <? INT32_MIN)) eqn:E.
  - now rewrite wrap64_small by now apply quot_1000_bounds.
  - exfalso. apply Hout. apply orb_false_iff in E as [E1 E2].
    unfold in_int32. split; lia.
Qed.

Lemma Qpower_10_plus (n m : Z) :
  (Qpower (inject_Z 10) (n + m) == Qpower (inject_Z 10) n * Qpower (inject_Z 10) m)%Q.
Proof. apply Qpower_plus. intros E. discriminate E. Qed.

Lemma Qpower_10_pos (n : Z) : (0 < Qpower (inject_Z 10) n)%Q.
Proof. apply Qpower_0_lt. reflexivity. Qed.

(** While the product of the mantissas fits 32 bits and the sum of the
    scales fits the scale field, the product stands for the product of
    the quantities. *)
Theorem dpa_multiply_exact (a b : dpa_t) :
  dpa_wf a -> dpa_wf b ->
  in_int32 (mantissa a * mantissa b) -> in_int8 (point a + point b) ->
  (denote (dpa_multiply a b) == denote a * denote b)%Q.
Proof.
  intros Ha Hb Hm Hp. rewrite dpa_multiply_in_range by assumption.
  unfold denote. cbn [mantissa point]. rewrite wrap8_small by assumption.
  rewrite inject_Z_mult, Qpower_10_plus. ring.
Qed.

Lemma dpa_multiply_exact_witness :
  let a := mk_dpa (-1528) (-6) in
  let b := mk_dpa 204700 (-4) in
  dpa_wf a /\ dpa_wf b /\ (denote (dpa_multiply a b) == denote a * denote b)%Q.
Proof.
  intros a b.
  assert (Ha : dpa_wf a) by (unfold a; solve_range).
  assert (Hb : dpa_wf b) by (unfold b; solve_range).
  split; [exact Ha |]. split; [exact Hb |].
  apply (dpa_multiply_exact a b Ha Hb); unfold a, b; solve_range.
Defined.

(** [{1, 0}] is a unit of the multiplication, on either side. *)
Theorem dpa_multiply_one (a : dpa_t) :
  dpa_wf a ->
  dpa_multiply a (mk_dpa 1 0) = a /\ dpa_multiply (mk_dpa 1 0) a = a.
Proof.
  intros Ha. split.
  - rewrite dpa_multiply_in_range; [| assumption | solve_range |].
    + destruct a as [m p]. destruct Ha as [_ Hp]. cbn [mantissa point] in *.
      now rewrite Z.mul_1_r, Z.add_0_r, wrap8_small.
    + cbn [mantissa]. rewrite Z.mul_1_r. apply Ha.
  - rewrite dpa_multiply_in_range; [| solve_range | assumption |].
    + destruct a as [m p]. destruct Ha as [_ Hp]. cbn [mantissa point] in *.
      now rewrite Z.mul_1_l, Z.add_0_l, wrap8_small.
    + cbn [mantissa]. rewrite Z.mul_1_l. apply Ha.
Qed.

Lemma dpa_multiply_one_witness :
  dpa_wf (mk_dpa (-16540) (-6)) /\
  dpa_multiply (mk_dpa (-16540) (-6)) (mk_dpa 1 0) = mk_dpa (-16540) (-6) /\
  dpa_multiply (mk_dpa 1 0) (mk_dpa (-16540) (-6)) = mk_dpa (-16540) (-6).
Proof.
  split; [solve_range |].
  apply (dpa_multiply_one (mk_dpa (-16540) (-6))). solve_range.
Defined.

Lemma Qabs_inject_Z (z : Z) : Qabs (inject_Z z) = inject_Z (Z.abs z).
Proof. reflexivity. Qed.

Lemma Qpower_10_3 : (Qpower (inject_Z 10) 3 == inject_Z 1000)%Q.
Proof. reflexivity. Qed.

(** On the overflow path the result is an approximation: when a
    thousandth of the product fits 32 bits and the scale fits its
    field, the result differs from the product of the quantities by
    less than one unit of its own scale. *)
Theorem dpa_multiply_rescale_error (a b : dpa_t) :
  dpa_wf a -> dpa_wf b ->
  ~ in_int32 (mantissa a * mantissa b) ->
  in_int32 (Z.quot (mantissa a * mantissa b) 1000) ->
  in_int8 (point a + point b + 3) ->
  (Qabs (denote a * denote b - denote (dpa_multiply a b))
   < Qpower (inject_Z 10) (point (dpa_multiply a b)))%Q.
Proof.
  intros Ha Hb Hout Hq Hp. rewrite dpa_multiply_out_of_range by assumption.
  unfold denote. cbn [mantissa point].
  rewrite wrap32_small, wrap8_small by assumption.
  set (P := mantissa a * mantissa b) in *.
  set (T := (Qpower (inject_Z 10) (point a) * Qpower (inject_Z 10) (point b))%Q).
  assert (HT : (0 < T)%Q).
  { unfold T. rewrite <- Qpower_10_plus. apply Qpower_10_pos. }
  assert (Hpow : (Qpower (inject_Z 10) (point a + point b + 3) == T * inject_Z 1000)%Q).
  { unfold T. now rewrite !Qpower_10_plus, Qpower_10_3. }
  rewrite Hpow.
  assert (Hdiff : (inject_Z (mantissa a) * Qpower (inject_Z 10) (point a)
                   * (inject_Z (mantissa b) * Qpower (inject_Z 10) (point b))
                   - inject_Z (Z.quot P 1000) * (T * inject_Z 1000)
                   == inject_Z (Z.rem P 1000) * T)%Q).
  { assert (HP : (inject_Z (mantissa a) * inject_Z (mantissa b)
                  == inject_Z 1000 * inject_Z (Z.quot P 1000) + inject_Z (Z.rem P 1000))%Q).
    { rewrite <- !inject_Z_mult, <- inject_Z_plus. fold P.
      now rewrite <- (Z.quot_rem' P 1000). }
    unfold T.
    apply Qeq_trans
      with ((inject_Z (mantissa a) * inject_Z (mantissa b)
             - inject_Z 1000 * inject_Z (Z.quot P 1000))
            * (Qpower (inject_Z 10) (point a) * Qpower (inject_Z 10) (point b)))%Q;
      [ring |].
    rewrite HP. ring. }
  rewrite Hdiff, Qabs_Qmult, Qabs_inject_Z, (Qabs_pos T) by now apply Qlt_le_weak.
  rewrite (Qmult_comm T). apply Qmult_lt_compat_r; [exact HT |].
  rewrite <- Zlt_Qlt.
  pose proof (Z.rem_bound_abs P 1000 ltac:(lia)). lia.
Qed.

Lemma dpa_multiply_rescale_error_witness :
  let a := mk_dpa 100001 (-4) in
  let b := mk_dpa 300007 (-6) in
  dpa_wf a /\ dpa_wf b /\ ~ in_int32 (mantissa a * mantissa b) /\
  (Qabs (denote a * denote b - denote (dpa_multiply a b))
   < Qpower (inject_Z 10) (point (dpa_multiply a b)))%Q.
Proof.
  intros a b.
  assert (Ha : dpa_wf a) by (unfold a; solve_range).
  assert (Hb : dpa_wf b) by (unfold b; solve_range).
  assert (Hout : ~ in_int32 (mantissa a * mantissa b)) by (unfold a, b; solve_range).
  split; [exact Ha |]. split; [exact Hb |]. split; [exact Hout |].
  apply (dpa_multiply_rescale_error a b Ha Hb Hout).
  - split; vm_compute; discriminate.
  - unfold a, b. solve_range.
Defined.

(** ** Conversions *)

Lemma dpa_from_int_small (v d : Z) :
  0 <= d <= 9 -> in_int32 (v * 10 ^ d) ->
  dpa_from_int v d = mk_dpa (v * 10 ^ d) (- d).
Proof.
  intros Hd Hprod. unfold dpa_from_int. rewrite (pow10_i32_exact d) by lia.
  now rewrite wrap32_small, wrap8_small by (assumption || (unfold in_int8; lia)).
Qed.

(** While the scale [10^d] and the scaled value fit 32 bits, the
    conversion of an integer stands for that integer. *)
Theorem dpa_from_int_exact (v d : Z) :
  0 <= d -> in_int32 (10 ^ d) -> in_int32 (v * 10 ^ d) ->
  dpa_from_int v d = mk_dpa (v * 10 ^ d) (- d) /\
  (denote (dpa_from_int v d) == inject_Z v)%Q.
Proof.
  intros Hd Hscale Hprod.
  pose proof (pow10_fits_small d Hd Hscale) as Hd9.
  assert (E : dpa_from_int v d = mk_dpa (v * 10 ^ d) (- d))
    by (apply dpa_from_int_small; [lia | assumption]).
  split; [exact E |]. rewrite E. unfold denote. cbn [mantissa point].
  rewrite Qpower_opp, Qpower_10_nonneg, inject_Z_mult by lia.
  assert (Hne : ~ (inject_Z (10 ^ d) == 0)%Q).
  { intros H. apply (inject_Z_eq _ 0) in H.
    pose proof (Z.pow_pos_nonneg 10 d). lia. }
  rewrite <- Qmult_assoc, Qmult_inv_r by assumption. apply Qmult_1_r.
Qed.

Lemma dpa_from_int_exact_witness :
  0 <= 4 /\ in_int32 (10 ^ 4) /\ in_int32 (2047 * 10 ^ 4) /\
  dpa_from_int 2047 4 = mk_dpa (2047 * 10 ^ 4) (- 4) /\
  (denote (dpa_from_int 2047 4) == inject_Z 2047)%Q.
Proof.
  split; [lia |]. split; [solve_range |]. split; [solve_range |].
  apply (dpa_from_int_exact 2047 4); [lia | solve_range | solve_range].
Defined.

Lemma pow10_loop_zero (n : nat) : pow10_loop n 0 = 0.
Proof. induction n as [|n IH]; [reflexivity | exact IH]. Qed.

Lemma pow10_loop_add (a b : nat) (scale : Z) :
  pow10_loop (a + b) scale = pow10_loop b (pow10_loop a scale).
Proof.
  revert scale. induction a as [|a IH]; intros scale; [reflexivity |].
  cbn [Nat.add pow10_loop]. apply IH.
Qed.

(** The scale loop leaves zero exactly from 32 iterations on, where
    [2^32] divides the power of ten. *)
Lemma pow10_i32_zero_iff (n : Z) : pow10_i32 n = 0 <-> 32 <= n.
Proof.
  unfold pow10_i32. split.
  - intros H. destruct (Z.le_gt_cases 32 n) as [|Hlt]; [assumption | exfalso].
    assert (Hn : (Z.to_nat n < 32)%nat) by lia.
    revert H. generalize (Z.to_nat n) Hn. clear. intros k Hk.
    do 32 (destruct k as [|k]; [vm_compute; discriminate |]). lia.
  - intros H. replace (Z.to_nat n) with (32 + (Z.to_nat n - 32))%nat by lia.
    rewrite pow10_loop_add. change (pow10_loop 32 1) with 0.
    apply pow10_loop_zero.
Qed.

(** The conversion to an integer fails, by a division by zero, exactly
    on the scales -32 and below. *)
Theorem dpa_to_int_fails_iff (num : dpa_t) :
  dpa_to_int num = None <-> point num <= -32.
Proof.
  unfold dpa_to_int. destruct (Z.geb_spec (point num) 0) as [Hge | Hlt].
  - split; [discriminate | lia].
  - destruct (Z.eqb_spec (pow10_i32 (- point num)) 0) as [E | N].
    + apply pow10_i32_zero_iff in E. split; [lia | reflexivity].
    + split; [discriminate |]. intros H. exfalso. apply N.
      apply pow10_i32_zero_iff. lia.
Qed.

(** On a scale 0..9, while the scaled mantissa fits 32 bits, the integer
    returned is the quantity itself. *)
Theorem dpa_to_int_exact (num : dpa_t) :
  0 <= point num <= 9 ->
  in_int32 (mantissa num * 10 ^ point num) ->
  dpa_to_int num = Some (mantissa num * 10 ^ point num) /\
  (denote num == inject_Z (mantissa num * 10 ^ point num))%Q.
Proof.
  intros Hp Hin. split.
  - rewrite dpa_to_int_nonneg by lia.
    now rewrite pow10_i32_exact, wrap32_small by assumption.
  - unfold denote. now rewrite Qpower_10_nonneg, inject_Z_mult by lia.
Qed.

Lemma dpa_to_int_exact_witness :
  0 <= point (mk_dpa (-41) 3) <= 9 /\
  in_int32 (mantissa (mk_dpa (-41) 3) * 10 ^ point (mk_dpa (-41) 3)) /\
  dpa_to_int (mk_dpa (-41) 3) = Some (-41 * 10 ^ 3).
Proof.
  split; [simpl; lia |]. split; [solve_range |].
  apply (dpa_to_int_exact (mk_dpa (-41) 3)); [simpl; lia | solve_range].
Defined.

Lemma quot_abs_le (m K : Z) : 0 < K -> K * Z.abs (Z.quot m K) <= Z.abs m.
Proof.
  intros HK. destruct (Z.le_gt_cases 0 m) as [Hm | Hm].
  - pose proof (Z.quot_pos m K Hm HK).
    pose proof (Z.mul_quot_le m K Hm ltac:(lia)). lia.
  - assert (Hq : Z.quot m K = - Z.quot (- m) K).
    { rewrite Z.quot_opp_l by lia. lia. }
    pose proof (Z.quot_pos (- m) K ltac:(lia) HK).
    pose proof (Z.mul_quot_le (- m) K ltac:(lia) ltac:(lia)). lia.
Qed.

(** On a scale -9..-1 the integer returned is the quantity with its
    fraction cut off, towards zero: it is the truncated quotient, less
    than 1 away from the quantity. *)
Theorem dpa_to_int_truncates (num : dpa_t) :
  in_int32 (mantissa num) -> -9 <= point num < 0 ->
  dpa_to_int num = Some (Z.quot (mantissa num) (10 ^ (- point num))) /\
  (Qabs (denote num - inject_Z (Z.quot (mantissa num) (10 ^ (- point num)))) < 1)%Q /\
  Z.abs (Z.quot (mantissa num) (10 ^ (- point num))) <= Z.abs (mantissa num).
Proof.
  intros Hm Hp. destruct num as [m p]. cbn [mantissa point] in *.
  set (K := 10 ^ (- p)).
  assert (HK : 1 < K).
  { unfold K. assert (10 ^ 1 <= 10 ^ (- p)) by (apply Z.pow_le_mono_r; lia).
    change (10 ^ 1) with 10 in *. lia. }
  assert (Hv : in_int32 (Z.quot m K)).
  { pose proof (quot_abs_le m K ltac:(lia)).
    unfold in_int32, INT32_MIN, INT32_MAX in *. nia. }
  split; [| split].
  - unfold dpa_to_int. cbn [mantissa point].
    destruct (Z.geb_spec p 0); [lia |].
    rewrite pow10_i32_exact by lia. fold K.
    destruct (Z.eqb_spec K 0); [lia |]. now rewrite wrap32_small.
  - unfold denote. cbn [mantissa point].
    replace p with (- (- p)) at 1 by lia.
    rewrite Qpower_opp, Qpower_10_nonneg by lia. fold K.
    assert (Hne : ~ (inject_Z K == 0)%Q).
    { intros H. apply (inject_Z_eq _ 0) in H. lia. }
    assert (Hpos : (0 < / inject_Z K)%Q).
    { apply Qinv_lt_0_compat. change (inject_Z 0 < inject_Z K)%Q.
      rewrite <- Zlt_Qlt. lia. }
    assert (Hdiff : (inject_Z m * / inject_Z K - inject_Z (Z.quot m K)
                     == inject_Z (Z.rem m K) * / inject_Z K)%Q).
    { rewrite (Z.quot_rem' m K) at 1. rewrite inject_Z_plus, inject_Z_mult.
      field. exact Hne. }
    rewrite Hdiff, Qabs_Qmult, Qabs_inject_Z, (Qabs_pos (/ inject_Z K))
      by now apply Qlt_le_weak.
    rewrite <- (Qmult_inv_r (inject_Z K)) by exact Hne.
    apply Qmult_lt_compat_r; [exact Hpos |].
    rewrite <- Zlt_Qlt. pose proof (Z.rem_bound_abs m K ltac:(lia)). lia.
  - pose proof (quot_abs_le m K ltac:(lia)). nia.
Qed.

Lemma dpa_to_int_truncates_witness :
  in_int32 (mantissa (mk_dpa (-12999) (-3))) /\
  -9 <= point (mk_dpa (-12999) (-3)) < 0 /\
  dpa_to_int (mk_dpa (-12999) (-3)) = Some (Z.quot (-12999) (10 ^ 3)).
Proof.
  split; [solve_range |]. split; [simpl; lia |].
  apply (dpa_to_int_truncates (mk_dpa (-12999) (-3))); [solve_range | simpl; lia].
Defined.

(** * Further properties of the filter *)

Lemma for_M_pure {A} (f : Z -> A -> option A) (body : Z -> A -> M A) (st : state) :
  (forall i acc,
     body i acc st = match f i acc with Some a => Some (a, st) | None => None end) ->
  forall n i acc,
    for_M n i body acc st
    = match for_opt n i f acc with Some a => Some (a, st) | None => None end.
Proof.
  intros Hbody. induction n as [|n IH]; intros i acc; [reflexivity |].
  cbn [for_M for_opt]. unfold bind. rewrite Hbody.
  destruct (f i acc) as [a|]; [apply IH | reflexivity].
Qed.

Lemma for_opt_ext {A} (f g : Z -> A -> option A) :
  (forall i acc, f i acc = g i acc) ->
  forall n i acc, for_opt n i f acc = for_opt n i g acc.
Proof.
  intros H. induction n as [|n IH]; intros i acc; [reflexivity |].
  cbn [for_opt]. rewrite H. destruct (g i acc); [apply IH | reflexivity].
Qed.

(** A call of the filter is the store of the input followed by the
    weighted sum over the new contents of the delay lines. *)
Lemma fir_filter_eq (channel : Z) (input : dpa_t) (s : state) :
  fir_filter channel input s
  = match store2 (fir_delay s) channel (fir_index s) input with
    | Some line =>
        match fir_sum line channel (fir_index s) with
        | Some output => Some (output, set_fir_delay line s)
        | None => None
        end
    | None => None
    end.
Proof.
  unfold fir_filter, bind, gets, lift, modify.
  destruct (store2 (fir_delay s) channel (fir_index s) input) as [line|];
    [| reflexivity].
  unfold fir_sum. apply for_M_pure. intros i acc.
  unfold bind, lift, gets, ret.
  destruct (load fir_coeffs i) as [coeff|]; [| reflexivity].
  cbn [mbind option_bind].
  change (fir_delay (set_fir_delay line s)) with line.
  now destruct (load2 line channel (Z.rem (fir_index s - i + FIR_TAPS) FIR_TAPS)).
Qed.

(** The sum reads the delay line of its channel only. *)
Lemma fir_sum_ext (line line' : list (list dpa_t)) (channel cursor : Z) :
  (forall j, load2 line channel j = load2 line' channel j) ->
  fir_sum line channel cursor = fir_sum line' channel cursor.
Proof.
  intros H. unfold fir_sum. apply for_opt_ext. intros i acc. now rewrite H.
Qed.

Lemma store2_explicit {A} (m : list (list A)) r i x m' :
  store2 m r i x = Some m' ->
  exists row, load m r = Some row /\
              m' = <[Z.to_nat r := <[Z.to_nat i := x]> row]> m /\
              0 <= r < Z.of_nat (length m) /\ 0 <= i < Z.of_nat (length row).
Proof.
  intros (row & row' & Hrow & Hrow' & Hm')%store2_inv.
  apply store_inv in Hrow' as [Hi ->]. apply store_inv in Hm' as [Hr ->].
  exists row. now repeat split.
Qed.

Lemma load_lookup {A} (l : list A) i x :
  load l i = Some x -> l !! Z.to_nat i = Some x.
Proof. unfold load. now destruct (i <? 0). Qed.

(** Stores in two different rows can be exchanged. *)
Lemma store2_commute {A} (m : list (list A)) r1 r2 i1 i2 x1 x2 m1 m12 m2 m21 :
  r1 <> r2 ->
  store2 m r1 i1 x1 = Some m1 -> store2 m1 r2 i2 x2 = Some m12 ->
  store2 m r2 i2 x2 = Some m2 -> store2 m2 r1 i1 x1 = Some m21 ->
  m12 = m21.
Proof.
  intros Hne H1 H12 H2 H21.
  apply store2_explicit in H1 as (row1 & Hrow1 & -> & Hr1 & _).
  apply store2_explicit in H2 as (row2 & Hrow2 & -> & Hr2 & _).
  apply store2_explicit in H12 as (row2' & Hrow2' & -> & _ & _).
  apply store2_explicit in H21 as (row1' & Hrow1' & -> & _ & _).
  apply load_lookup in Hrow1, Hrow2, Hrow2', Hrow1'.
  rewrite list_lookup_insert_ne in Hrow2' by lia.
  rewrite list_lookup_insert_ne in Hrow1' by lia.
  assert (row2' = row2) by congruence. assert (row1' = row1) by congruence.
  subst. apply list_insert_insert_ne. lia.
Qed.

(** A second store at the same place replaces the first. *)
Lemma store2_overwrite {A} (m : list (list A)) r i x y m1 m2 m' :
  store2 m r i x = Some m1 -> store2 m1 r i y = Some m2 ->
  store2 m r i y = Some m' -> m2 = m'.
Proof.
  intros H1 H2 H'.
  apply store2_explicit in H1 as (row & Hrow & -> & Hr & _).
  apply store2_explicit in H' as (row0 & Hrow0 & -> & _ & _).
  apply store2_explicit in H2 as (row1 & Hrow1 & -> & _ & _).
  apply load_lookup in Hrow, Hrow0, Hrow1.
  rewrite list_lookup_insert_eq in Hrow1 by lia.
  assert (row0 = row) by congruence. injection Hrow1 as <-. subst.
  now rewrite list_insert_insert_eq, list_insert_insert_eq.
Qed.

(** Whatever the samples, the output of the filter has a scale that is
    not negative: the accumulator starts at scale 0 and an addition never
    lowers the scale of its first operand. *)
Theorem fir_filter_output_scale (s : state) (channel : Z) (input : dpa_t) :
  rect ADC_CHANNELS FIR_TAPS (fir_delay s) ->
  0 <= channel < ADC_CHANNELS ->
  0 <= fir_index s < FIR_TAPS ->
  exists output s',
    fir_filter channel input s = Some (output, s') /\ 0 <= point output.
Proof.
  intros Hrect Hch Hcur.
  destruct (fir_filter_run (fun acc => 0 <= point acc) s channel input Hrect Hch Hcur)
    as (line & output & _ & Hrun & Hout).
  - cbn. lia.
  - intros line i coeff sample acc _ _ _ Hacc.
    pose proof (dpa_add_point_ge acc (dpa_multiply coeff sample)). lia.
  - now exists output, (set_fir_delay line s).
Qed.

Lemma fir_filter_output_scale_witness :
  exists output s',
    fir_filter 2 (mk_dpa (-20480000) (-4)) (initial_state []) = Some (output, s') /\
    0 <= point output.
Proof.
  apply (fir_filter_output_scale (initial_state []) 2 (mk_dpa (-20480000) (-4))).
  - apply (rect_replicate 3 32).
  - sizes.
  - cbn. sizes.
Defined.

(** Two calls on the same channel without an advance of the cursor: the
    second input replaces the first in the delay line, and the state and
    the output are those of the second call alone. *)
Theorem fir_filter_overwrites (s : state) (channel : Z) (x y : dpa_t) :
  rect ADC_CHANNELS FIR_TAPS (fir_delay s) ->
  0 <= channel < ADC_CHANNELS ->
  0 <= fir_index s < FIR_TAPS ->
  exists out1 s1 out2 s2,
    fir_filter channel x s = Some (out1, s1) /\
    fir_filter channel y s1 = Some (out2, s2) /\
    fir_filter channel y s = Some (out2, s2).
Proof.
  intros Hrect Hch Hcur.
  destruct (fir_filter_run (fun _ => True) s channel x Hrect Hch Hcur I)
    as (line1 & out1 & Hline1 & Hrun1 & _); [trivial |].
  set (s1 := set_fir_delay line1 s) in *.
  assert (Hrect1 : rect ADC_CHANNELS FIR_TAPS (fir_delay s1))
    by exact (store2_rect _ _ _ _ _ _ _ Hline1 Hrect).
  destruct (fir_filter_run (fun _ => True) s1 channel y Hrect1 Hch Hcur I)
    as (line2 & out2 & Hline2 & Hrun2 & _); [trivial |].
  exists out1, s1, out2, (set_fir_delay line2 s1).
  split; [exact Hrun1 |]. split; [exact Hrun2 |].
  rewrite fir_filter_eq in Hrun2 |- *.
  destruct (store2_in_range _ _ _ channel (fir_index s) y Hrect Hch Hcur)
    as [line' Hline'].
  rewrite Hline'. cbn [s1 fir_delay fir_index set_fir_delay] in Hline2, Hrun2.
  rewrite Hline2 in Hrun2.
  assert (line2 = line') by exact (store2_overwrite _ _ _ _ _ _ _ _ Hline1 Hline2 Hline').
  subst line'. change (fir_index s1) with (fir_index s) in Hrun2.
  destruct (fir_sum line2 channel (fir_index s)); [| discriminate].
  injection Hrun2 as ->. reflexivity.
Qed.

Lemma fir_filter_overwrites_witness :
  exists out1 s1 out2 s2,
    fir_filter 0 (mk_dpa 5 0) (initial_state []) = Some (out1, s1) /\
    fir_filter 0 (mk_dpa 7 0) s1 = Some (out2, s2) /\
    fir_filter 0 (mk_dpa 7 0) (initial_state []) = Some (out2, s2).
Proof.
  apply (fir_filter_overwrites (initial_state []) 0 (mk_dpa 5 0) (mk_dpa 7 0)).
  - apply (rect_replicate 3 32).
  - sizes.
  - cbn. sizes.
Defined.

Lemma fir_filter_inv (channel : Z) (input : dpa_t) (s : state) output s' :
  fir_filter channel input s = Some (output, s') ->
  exists line,
    store2 (fir_delay s) channel (fir_index s) input = Some line /\
    fir_sum line channel (fir_index s) = Some output /\
    s' = set_fir_delay line s.
Proof.
  rewrite fir_filter_eq.
  destruct (store2 (fir_delay s) channel (fir_index s) input) as [line|];
    [| discriminate].
  destruct (fir_sum line channel (fir_index s)) as [y|] eqn:Hsum; [| discriminate].
  intros [= <- <-]. now exists line.
Qed.

(** Calls on two different channels can be exchanged: the two outputs
    and the final state do not depend on the order. *)
Theorem fir_filter_channels_commute (s : state) (ch1 ch2 : Z) (x1 x2 : dpa_t) :
  rect ADC_CHANNELS FIR_TAPS (fir_delay s) ->
  0 <= ch1 < ADC_CHANNELS -> 0 <= ch2 < ADC_CHANNELS -> ch1 <> ch2 ->
  0 <= fir_index s < FIR_TAPS ->
  exists y1 y2 s',
    (let* a := fir_filter ch1 x1 in let* b := fir_filter ch2 x2 in ret (a, b)) s
    = Some ((y1, y2), s') /\
    (let* b := fir_filter ch2 x2 in let* a := fir_filter ch1 x1 in ret (a, b)) s
    = Some ((y1, y2), s').
Proof.
  intros Hrect Hch1 Hch2 Hne Hcur.
  destruct (fir_filter_run (fun _ => True) s ch1 x1 Hrect Hch1 Hcur I)
    as (line1 & y1 & Hline1 & Hrun1 & _); [trivial |].
  destruct (fir_filter_run (fun _ => True) s ch2 x2 Hrect Hch2 Hcur I)
    as (line2 & y2 & Hline2 & Hrun2 & _); [trivial |].
  pose proof (store2_rect _ _ _ _ _ _ _ Hline1 Hrect) as Hrect1.
  pose proof (store2_rect _ _ _ _ _ _ _ Hline2 Hrect) as Hrect2.
  destruct (fir_filter_run (fun _ => True) (set_fir_delay line1 s) ch2 x2
              Hrect1 Hch2 Hcur I) as (line12 & y2' & Hline12 & Hrun12 & _); [trivial |].
  destruct (fir_filter_run (fun _ => True) (set_fir_delay line2 s) ch1 x1
              Hrect2 Hch1 Hcur I) as (line21 & y1' & Hline21 & Hrun21 & _); [trivial |].
  cbn [fir_delay fir_index set_fir_delay] in Hline12, Hline21.
  assert (Hsame : line12 = line21)
    by exact (store2_commute _ _ _ _ _ _ _ _ _ _ _ Hne Hline1 Hline12 Hline2 Hline21).
  subst line21.
  apply fir_filter_inv in Hrun1 as Hs1. destruct Hs1 as (l1 & Hl1 & Hsum1 & _).
  apply fir_filter_inv in Hrun2 as Hs2. destruct Hs2 as (l2 & Hl2 & Hsum2 & _).
  apply fir_filter_inv in Hrun12 as Hs12. destruct Hs12 as (l12 & Hl12 & Hsum12 & _).
  apply fir_filter_inv in Hrun21 as Hs21. destruct Hs21 as (l21 & Hl21 & Hsum21 & _).
  cbn [fir_delay fir_index set_fir_delay] in Hl12, Hsum12, Hl21, Hsum21.
  assert (l1 = line1) by congruence. assert (l2 = line2) by congruence.
  assert (l12 = line12) by congruence. assert (l21 = line12) by congruence.
  subst l1 l2 l12 l21.
  assert (Hy2 : y2' = y2).
  { assert (E : fir_sum line12 ch2 (fir_index s) = fir_sum line2 ch2 (fir_index s)).
    { apply fir_sum_ext. intros j.
      apply (load2_store2_ne _ _ _ _ _ _ _ Hline21). congruence. }
    congruence. }
  assert (Hy1 : y1' = y1).
  { assert (E : fir_sum line12 ch1 (fir_index s) = fir_sum line1 ch1 (fir_index s)).
    { apply fir_sum_ext. intros j.
      apply (load2_store2_ne _ _ _ _ _ _ _ Hline12). congruence. }
    congruence. }
  subst y1' y2'.
  exists y1, y2, (set_fir_delay line12 s). split.
  - unfold bind, ret. now rewrite Hrun1, Hrun12.
  - unfold bind, ret. now rewrite Hrun2, Hrun21.
Qed.

Lemma fir_filter_channels_commute_witness :
  let s := initial_state [] in
  exists y1 y2 s',
    (let* a := fir_filter 0 (mk_dpa 3 0) in
     let* b := fir_filter 2 (mk_dpa 9 (-4)) in ret (a, b)) s
    = Some ((y1, y2), s') /\
    (let* b := fir_filter 2 (mk_dpa 9 (-4)) in
     let* a := fir_filter 0 (mk_dpa 3 0) in ret (a, b)) s
    = Some ((y1, y2), s').
Proof.
  intros s.
  apply (fir_filter_channels_commute s 0 2 (mk_dpa 3 0) (mk_dpa 9 (-4))).
  - apply (rect_replicate 3 32).
  - sizes.
  - sizes.
  - lia.
  - cbn. sizes.
Defined.

(** The three constructors of values keep them within the fields of
    [dpa_t]. *)
Lemma dpa_multiply_wf (a b : dpa_t) : dpa_wf (dpa_multiply a b).
Proof.
  unfold dpa_multiply.
  destruct ((_ >? INT32_MAX) || (_ <? INT32_MIN));
    split; cbn [mantissa point]; (apply wrap32_range || apply wrap8_range).
Qed.

Lemma dpa_add_wf (a b : dpa_t) : dpa_wf a -> dpa_wf b -> dpa_wf (dpa_add a b).
Proof.
  intros Ha Hb. unfold dpa_add.
  destruct (point a =? point b);
    [split; cbn [mantissa point]; [apply wrap32_range | apply Ha] |].
  destruct (point a >? point b).
  - destruct (point a - point b >? 10); [assumption |].
    split; cbn [mantissa point]; [apply wrap32_range | apply Ha].
  - destruct (point b - point a >? 10); [assumption |].
    split; cbn [mantissa point]; [apply wrap32_range | apply Hb].
Qed.

Lemma delay_idx_newest cursor :
  0 <= cursor < FIR_TAPS -> Z.rem (cursor - 0 + FIR_TAPS) FIR_TAPS = cursor.
Proof.
  unfold FIR_TAPS. intros H. rewrite Z.rem_mod_nonneg by lia.
  replace (cursor - 0 + 32) with (cursor + 1 * 32) by lia.
  rewrite Z.mod_add by lia. apply Z.mod_small. lia.
Qed.

Lemma delay_idx_older cursor i :
  0 <= cursor < FIR_TAPS -> 1 <= i < FIR_TAPS ->
  Z.rem (cursor - i + FIR_TAPS) FIR_TAPS <> cursor.
Proof.
  unfold FIR_TAPS. intros Hc Hi. rewrite Z.rem_mod_nonneg by lia.
  destruct (Z.le_gt_cases i cursor).
  - replace (cursor - i + 32) with (cursor - i + 1 * 32) by lia.
    rewrite Z.mod_add, Z.mod_small by lia. lia.
  - rewrite Z.mod_small by lia. lia.
Qed.

Lemma for_opt_step {A} (f : Z -> A -> option A) n i acc :
  for_opt (S n) i f acc
  = match f i acc with Some acc' => for_opt n (i + 1) f acc' | None => None end.
Proof. reflexivity. Qed.

(** On a delay line that holds zeros (of a scale from -122 to 6: the
    cleared line, or the zeros left by silent blocks), the output is what
    the first tap makes of the new sample: coefficient 0 times the
    input, added to [{0, 0}]. *)
Theorem fir_filter_newest_sample (s : state) (channel : Z) (input : dpa_t) :
  rect ADC_CHANNELS FIR_TAPS (fir_delay s) ->
  all2 (fun z => mantissa z = 0 /\ -122 <= point z <= 6) (fir_delay s) ->
  0 <= channel < ADC_CHANNELS ->
  0 <= fir_index s < FIR_TAPS ->
  dpa_wf input ->
  exists s',
    fir_filter channel input s
    = Some (dpa_add (mk_dpa 0 0) (dpa_multiply (mk_dpa (-41) (-6)) input), s').
Proof.
  intros Hrect Hzero Hch Hcur Hin.
  destruct (store2_in_range _ _ _ channel (fir_index s) input Hrect Hch Hcur)
    as [line Hline].
  pose proof (store2_rect _ _ _ _ _ _ _ Hline Hrect) as Hrect'.
  set (A := dpa_add (mk_dpa 0 0) (dpa_multiply (mk_dpa (-41) (-6)) input)).
  assert (HA : dpa_wf A).
  { apply dpa_add_wf; [solve_range | apply dpa_multiply_wf]. }
  assert (HAp : 0 <= point A) by apply (dpa_add_point_ge (mk_dpa 0 0)).
  exists (set_fir_delay line s). rewrite fir_filter_eq, Hline.
  assert (Hsum : fir_sum line channel (fir_index s) = Some A); [| now rewrite Hsum].
  unfold fir_sum. change (Z.to_nat FIR_TAPS) with (S 31). rewrite for_opt_step.
  change (load fir_coeffs 0) with (Some (mk_dpa (-41) (-6))).
  cbn [mbind option_bind].
  rewrite delay_idx_newest, (load2_store2_eq _ _ _ _ _ Hline) by assumption.
  cbn [mbind option_bind]. fold A.
  destruct (for_opt_inv (fun _ acc => acc = A)
              (fun i output =>
                 coeff ← load fir_coeffs i;
                 sample ← load2 line channel
                            (Z.rem (fir_index s - i + FIR_TAPS) FIR_TAPS);
                 Some (dpa_add output (dpa_multiply coeff sample)))
              31 (0 + 1) A eq_refl) as (acc & Hrun & ->); [| exact Hrun].
  intros i acc Hi ->.
  destruct (load_in_range fir_coeffs i) as [coeff Hcoeff];
    [rewrite fir_coeffs_length; sizes |].
  assert (Hidx : 0 <= Z.rem (fir_index s - i + FIR_TAPS) FIR_TAPS < FIR_TAPS)
    by (apply delay_idx_range; [assumption | sizes]).
  destruct (load2_in_range _ _ line channel _ Hrect' Hch Hidx) as [sample Hsample].
  exists A. split; [| reflexivity].
  rewrite Hcoeff. cbn [mbind option_bind]. rewrite Hsample. cbn [mbind option_bind].
  f_equal.
  assert (Hold : load2 (fir_delay s) channel
                   (Z.rem (fir_index s - i + FIR_TAPS) FIR_TAPS) = Some sample).
  { rewrite <- Hsample. symmetry.
    apply (load2_store2_ne _ _ _ _ _ _ _ Hline).
    pose proof (delay_idx_older (fir_index s) i Hcur ltac:(sizes)). congruence. }
  pose proof (load2_all2 _ _ _ _ _ Hold Hzero) as [Hm Hp]. cbn beta in Hm, Hp.
  pose proof (fir_coeffs_point i coeff Hcoeff) as Hcp.
  assert (Hcwf : dpa_wf coeff).
  { apply (load_Forall dpa_wf fir_coeffs i coeff Hcoeff).
    repeat (constructor; [solve_range |]). constructor. }
  assert (Hswf : dpa_wf sample) by (split; [rewrite Hm; solve_range | unfold in_int8; lia]).
  apply dpa_add_zero_r; [exact HA | now apply dpa_multiply_zero_r |].
  rewrite dpa_multiply_in_range
    by (assumption || (rewrite Hm, Z.mul_0_r; solve_range)).
  cbn [point]. rewrite wrap8_small by (unfold in_int8; lia). lia.
Qed.

Lemma fir_filter_newest_sample_witness :
  exists s',
    fir_filter 1 (mk_dpa 10000 (-4)) (initial_state [])
    = Some (dpa_add (mk_dpa 0 0) (dpa_multiply (mk_dpa (-41) (-6)) (mk_dpa 10000 (-4))), s').
Proof.
  apply (fir_filter_newest_sample (initial_state []) 1 (mk_dpa 10000 (-4))).
  - apply (rect_replicate 3 32).
  - apply all2_replicate. split; [reflexivity | simpl; lia].
  - sizes.
  - cbn. sizes.
  - solve_range.
Defined.

(** * Further properties of the beamformer *)

Lemma beam_sum_point channels input i sum :
  beam_sum channels input i = Some sum -> 0 <= point sum.
Proof.
  unfold beam_sum.
  assert (Hgen : forall l acc,
             (forall a, acc = Some a -> 0 <= point a) ->
             fold_left (beam_add input i) l acc = Some sum -> 0 <= point sum).
  { induction l as [|ch l IH]; intros acc Hacc Hf; cbn in Hf; [now apply Hacc |].
    refine (IH _ _ Hf). clear Hf IH.
    intros a Ha. unfold beam_add in Ha.
    destruct acc as [a0|]; [| discriminate]. cbn [mbind option_bind] in Ha.
    destruct (load delays ch) as [d|]; [| discriminate]. cbn [mbind option_bind] in Ha.
    destruct (i - d >=? 0).
    - destruct (load2 input ch (i - d)) as [x|]; [| discriminate].
      cbn [mbind option_bind] in Ha. injection Ha as <-.
      pose proof (dpa_add_point_ge a0 x). pose proof (Hacc a0 eq_refl). lia.
    - injection Ha as <-. now apply Hacc. }
  apply Hgen. intros a [= <-]. cbn. lia.
Qed.

(** Every output sample of the beamformer has a scale that is not
    negative, whatever the scales of the input samples. *)
Theorem beamformer_output_scale (input : list (list dpa_t)) (rows cols : Z)
    (output : list dpa_t) (samples i : Z) :
  rect rows cols input ->
  Z.min NUM_SENSORS ADC_CHANNELS <= rows ->
  0 <= samples <= cols ->
  samples <= Z.of_nat (length output) ->
  0 <= i < samples ->
  exists output' y,
    delay_and_sum_beamforming input output samples = Some output' /\
    load output' i = Some y /\ 0 <= point y.
Proof.
  intros Hrect Hrows Hs Hlen Hi.
  destruct (beamforming_run input rows cols Hrect Hrows output samples Hs Hlen)
    as (output' & Hrun & _ & Hall).
  destruct (Hall i Hi) as (sum & Hsum & Hload).
  exists output', (div_mantissa sum NUM_SENSORS).
  split; [exact Hrun |]. split; [exact Hload |].
  exact (beam_sum_point _ _ _ _ Hsum).
Qed.

Lemma beamformer_output_scale_witness :
  let input := [[mk_dpa 8 (-4); mk_dpa 8 (-4); mk_dpa 8 (-4)];
                [mk_dpa 4 (-4); mk_dpa 4 (-4); mk_dpa 4 (-4)];
                [mk_dpa 1 (-4); mk_dpa 1 (-4); mk_dpa 1 (-4)]] in
  exists output' y,
    delay_and_sum_beamforming input (zeros 3) 3 = Some output' /\
    load output' 2 = Some y /\ 0 <= point y.
Proof.
  intros input.
  apply (beamformer_output_scale input 3 3 (zeros 3) 3 2).
  - split; [reflexivity |]. repeat constructor.
  - vm_compute. discriminate.
  - lia.
  - vm_compute. discriminate.
  - lia.
Defined.

(** The first [samples] entries of the output are computed from the
    input alone: what the output array held before has no effect on
    them. *)
Theorem beamformer_ignores_old_output (input : list (list dpa_t)) (rows cols : Z)
    (out1 out2 : list dpa_t) (samples : Z) :
  rect rows cols input ->
  Z.min NUM_SENSORS ADC_CHANNELS <= rows ->
  0 <= samples <= cols ->
  samples <= Z.of_nat (length out1) -> samples <= Z.of_nat (length out2) ->
  exists res1 res2,
    delay_and_sum_beamforming input out1 samples = Some res1 /\
    delay_and_sum_beamforming input out2 samples = Some res2 /\
    forall i, 0 <= i < samples -> load res1 i = load res2 i.
Proof.
  intros Hrect Hrows Hs Hl1 Hl2.
  destruct (beamforming_run input rows cols Hrect Hrows out1 samples Hs Hl1)
    as (res1 & Hrun1 & _ & Hall1).
  destruct (beamforming_run input rows cols Hrect Hrows out2 samples Hs Hl2)
    as (res2 & Hrun2 & _ & Hall2).
  exists res1, res2. split; [exact Hrun1 |]. split; [exact Hrun2 |].
  intros i Hi.
  destruct (Hall1 i Hi) as (sum1 & Hsum1 & ->).
  destruct (Hall2 i Hi) as (sum2 & Hsum2 & ->). congruence.
Qed.

Lemma beamformer_ignores_old_output_witness :
  let input := [[mk_dpa 8 0; mk_dpa 8 0]; [mk_dpa 4 0; mk_dpa 4 0];
                [mk_dpa 1 0; mk_dpa 1 0]] in
  exists res1 res2,
    delay_and_sum_beamforming input [mk_dpa 0 0; mk_dpa 0 0] 2 = Some res1 /\
    delay_and_sum_beamforming input [mk_dpa 77 3; mk_dpa (-5) (-9)] 2 = Some res2 /\
    forall i, 0 <= i < 2 -> load res1 i = load res2 i.
Proof.
  intros input.
  apply (beamformer_ignores_old_output input 3 2
           [mk_dpa 0 0; mk_dpa 0 0] [mk_dpa 77 3; mk_dpa (-5) (-9)] 2).
  - split; [reflexivity |]. repeat constructor.
  - vm_compute. discriminate.
  - lia.
  - simpl. lia.
  - simpl. lia.
Defined.

(** The beamformer writes the first [samples] entries of the output and
    nothing else: the length and the entries from [samples] on are kept. *)
Theorem beamformer_frame (input : list (list dpa_t)) (rows cols : Z)
    (output : list dpa_t) (samples : Z) :
  rect rows cols input ->
  Z.min NUM_SENSORS ADC_CHANNELS <= rows ->
  0 <= samples <= cols ->
  samples <= Z.of_nat (length output) ->
  exists output',
    delay_and_sum_beamforming input output samples = Some output' /\
    length output' = length output /\
    forall j, samples <= j -> load output' j = load output j.
Proof.
  intros Hrect Hrows Hs Hlen.
  destruct (for_opt_inv
              (fun i out =>
                 length out = length output /\
                 forall j, i <= j -> load out j = load output j)
              (beam_sample input) (Z.to_nat samples) 0 output)
    as (out' & Hrun & Hlen' & Hrest).
  - now split.
  - intros i out Hi (Hl & Hkeep).
    destruct (beam_sample_run input rows cols Hrect Hrows i out)
      as (sum & out1 & _ & Hstep & Hl1 & _ & Hother); [lia | rewrite Hl; lia |].
    exists out1. split; [exact Hstep |]. split; [congruence |].
    intros j Hj. rewrite Hother by lia. apply Hkeep. lia.
  - exists out'. split; [exact Hrun |]. split; [exact Hlen' |].
    intros j Hj. apply Hrest. lia.
Qed.

Lemma beamformer_frame_witness :
  let input := [[mk_dpa 8 0; mk_dpa 8 0]; [mk_dpa 4 0; mk_dpa 4 0];
                [mk_dpa 1 0; mk_dpa 1 0]] in
  let output := [mk_dpa 1 1; mk_dpa 2 2; mk_dpa 3 3] in
  exists output',
    delay_and_sum_beamforming input output 2 = Some output' /\
    length output' = length output /\
    forall j, 2 <= j -> load output' j = load output j.
Proof.
  intros input output.
  apply (beamformer_frame input 3 2 output 2).
  - split; [reflexivity |]. repeat constructor.
  - vm_compute. discriminate.
  - lia.
  - simpl. lia.
Defined.

(** At the start of the stream only channel 0, whose delay is 0, has a
    sample to give: the output samples 0 and 1 are the first two samples
    of channel 0 added to [{0, 0}], mantissa divided by the number of
    sensors; the channels delayed by 2 and by 4 are left out. *)
Theorem beamformer_stream_start (input : list (list dpa_t)) (rows cols : Z)
    (output : list dpa_t) (samples i : Z) (x : dpa_t) :
  rect rows cols input ->
  Z.min NUM_SENSORS ADC_CHANNELS <= rows ->
  0 <= samples <= cols ->
  samples <= Z.of_nat (length output) ->
  0 <= i < samples -> i < 2 ->
  load2 input 0 i = Some x ->
  exists output',
    delay_and_sum_beamforming input output samples = Some output' /\
    load output' i = Some (div_mantissa (dpa_add (mk_dpa 0 0) x) NUM_SENSORS).
Proof.
  intros Hrect Hrows Hs Hlen Hi Hi2 Hx.
  destruct (beamforming_run input rows cols Hrect Hrows output samples Hs Hlen)
    as (output' & Hrun & _ & Hall).
  destruct (Hall i Hi) as (sum & Hsum & Hload).
  exists output'. split; [exact Hrun |]. rewrite Hload. do 2 f_equal.
  unfold beam_sum in Hsum.
  change (seqZ 0 (Z.min NUM_SENSORS ADC_CHANNELS)) with [0; 1; 2] in Hsum.
  cbn [fold_left] in Hsum. unfold beam_add in Hsum.
  change (load delays 0) with (Some 0) in Hsum.
  change (load delays 1) with (Some 2) in Hsum.
  change (load delays 2) with (Some 4) in Hsum.
  cbn [mbind option_bind] in Hsum.
  destruct (Z.geb_spec (i - 0) 0); [| lia].
  rewrite Z.sub_0_r, Hx in Hsum. cbn [mbind option_bind] in Hsum.
  destruct (Z.geb_spec (i - 2) 0); [lia |]. cbn [mbind option_bind] in Hsum.
  destruct (Z.geb_spec (i - 4) 0); [lia |]. congruence.
Qed.

Lemma beamformer_stream_start_witness :
  let input := [[mk_dpa 8 0; mk_dpa 9 0; mk_dpa 10 0];
                [mk_dpa 4 0; mk_dpa 4 0; mk_dpa 4 0];
                [mk_dpa 1 0; mk_dpa 1 0; mk_dpa 1 0]] in
  exists output',
    delay_and_sum_beamforming input (zeros 3) 3 = Some output' /\
    load output' 1 = Some (div_mantissa (dpa_add (mk_dpa 0 0) (mk_dpa 9 0)) NUM_SENSORS).
Proof.
  intros input.
  apply (beamformer_stream_start input 3 3 (zeros 3) 3 1 (mk_dpa 9 0)).
  - split; [reflexivity |]. repeat constructor.
  - vm_compute. discriminate.
  - lia.
  - vm_compute. discriminate.
  - lia.
  - lia.
  - reflexivity.
Defined.

(** * Further properties of the transform *)

(** For the transform size of the pipeline, whatever the input samples
    and the old contents of the output arrays: the transform runs to the
    end, it writes the bins below [FFT_SIZE / 2] and nothing else, and
    each of these bins, real and imaginary, has a scale that is not
    negative, so that its conversion to an integer succeeds. *)
Theorem dpa_dft_bins (input re im : list dpa_t) :
  FFT_SIZE <= Z.of_nat (length input) ->
  FFT_SIZE <= Z.of_nat (length re) -> FFT_SIZE <= Z.of_nat (length im) ->
  exists re' im',
    dpa_dft input re im FFT_SIZE = Some (re', im') /\
    length re' = length re /\ length im' = length im /\
    (forall k, 0 <= k < Z.quot FFT_SIZE 2 ->
       exists a b,
         load re' k = Some a /\ load im' k = Some b /\
         0 <= point a /\ 0 <= point b /\
         is_Some (dpa_to_int a) /\ is_Some (dpa_to_int b)) /\
    (forall k, Z.quot FFT_SIZE 2 <= k ->
       load re' k = load re k /\ load im' k = load im k).
Proof.
  intros Hin Hre Him.
  destruct (dpa_dft_run (fun _ => True) (fun acc => 0 <= point acc)) with
    (input := input) (re := re) (im := im) as (re' & im' & Hrun & Hdre & Hdim);
    try assumption.
  - cbn. lia.
  - intros x c acc _ Hacc. pose proof (dpa_add_point_ge acc (dpa_multiply x c)). lia.
  - apply Forall_forall. trivial.
  - destruct Hdre as (Hlre & Hbre & Hkre). destruct Hdim as (Hlim & Hbim & Hkim).
    exists re', im'. split; [exact Hrun |]. split; [exact Hlre |].
    split; [exact Hlim |]. split.
    + intros k Hk. destruct (Hbre k Hk) as (a & Ha & Hpa).
      destruct (Hbim k Hk) as (b & Hb & Hpb).
      exists a, b. repeat split; try assumption.
      * rewrite dpa_to_int_nonneg by assumption. eexists; reflexivity.
      * rewrite dpa_to_int_nonneg by assumption. eexists; reflexivity.
    + intros k Hk. split; [now apply Hkre | now apply Hkim].
Qed.

Lemma dpa_dft_bins_witness :
  let input := replicate 64 (mk_dpa 12345 (-4)) in
  exists re' im',
    dpa_dft input (zeros FFT_SIZE) (zeros FFT_SIZE) FFT_SIZE = Some (re', im') /\
    length re' = 64%nat /\ length im' = 64%nat.
Proof.
  intros input.
  destruct (dpa_dft_bins input (zeros FFT_SIZE) (zeros FFT_SIZE))
    as (re' & im' & Hrun & Hlre & Hlim & _).
  - unfold input. rewrite length_replicate. sizes.
  - unfold zeros. rewrite length_replicate. sizes.
  - unfold zeros. rewrite length_replicate. sizes.
  - exists re', im'. split; [exact Hrun |]. split.
    + rewrite Hlre. unfold zeros. now rewrite length_replicate.
    + rewrite Hlim. unfold zeros. now rewrite length_replicate.
Defined.

(** * Further properties of the pipeline *)

(** ** Conversion *)

Lemma centred_12_bit (raw : Z) :
  0 <= raw <= 4095 -> centred raw = mk_dpa ((raw - 2048) * 10000) (-4).
Proof.
  intros H. unfold centred. rewrite wrap32_small by solve_range.
  rewrite dpa_from_int_small; [reflexivity | lia |].
  change (10 ^ 4) with 10000. solve_range.
Qed.

Lemma converted_store adc sig sig' ch i raw :
  load2 adc ch i = Some raw ->
  store2 sig ch i (centred raw) = Some sig' ->
  converted adc sig ch i -> converted adc sig' ch (i + 1).
Proof.
  intros Hraw Hst Hc r c raw' Hraw' Hrc.
  destruct (decide ((r, c) = (ch, i))) as [[= -> ->] | Hne].
  - rewrite (load2_store2_eq _ _ _ _ _ Hst). congruence.
  - rewrite (load2_store2_ne _ _ _ _ _ _ _ Hst Hne).
    apply (Hc r c raw' Hraw'). destruct Hrc as [? | [-> ?]]; [now left | right].
    split; [reflexivity |]. assert (c <> i) by congruence. lia.
Qed.

Section ConvertExact.
Variable s : state.
Hypothesis adc_rect : rect ADC_CHANNELS BUFFER_SIZE (adc_buffer s).

Lemma convert_body_exact ch i sig :
  0 <= ch < ADC_CHANNELS -> 0 <= i < BUFFER_SIZE ->
  rect ADC_CHANNELS BUFFER_SIZE sig -> converted (adc_buffer s) sig ch i ->
  exists sig',
    convert_body ch i (set_signal_buffer sig s) = Some (tt, set_signal_buffer sig' s) /\
    rect ADC_CHANNELS BUFFER_SIZE sig' /\ converted (adc_buffer s) sig' ch (i + 1).
Proof.
  intros Hch Hi Hsig Hc.
  destruct (load2_in_range _ _ _ ch i adc_rect Hch Hi) as [raw Hraw].
  destruct (store2_in_range _ _ sig ch i (centred raw) Hsig Hch Hi) as [sig' Hsig'].
  exists sig'. split; [| split].
  - unfold convert_body, bind, gets, lift, modify. state_simpl.
    rewrite Hraw. state_simpl. fold (centred raw). rewrite Hsig'. reflexivity.
  - exact (store2_rect _ _ _ _ _ _ _ Hsig' Hsig).
  - exact (converted_store _ _ _ _ _ _ Hraw Hsig' Hc).
Qed.

Lemma convert_stage_positions :
  rect ADC_CHANNELS BUFFER_SIZE (signal_buffer s) ->
  exists sig',
    convert_stage s = Some (tt, set_signal_buffer sig' s) /\
    rect ADC_CHANNELS BUFFER_SIZE sig' /\
    forall ch i raw,
      load2 (adc_buffer s) ch i = Some raw -> load2 sig' ch i = Some (centred raw).
Proof.
  intros Hsig.
  assert (Hs : s = set_signal_buffer (signal_buffer s) s) by now destruct s.
  destruct (for_inv
              (fun ch st => exists sig,
                   st = set_signal_buffer sig s /\
                   rect ADC_CHANNELS BUFFER_SIZE sig /\
                   converted (adc_buffer s) sig ch 0)
              (fun ch => for_ BUFFER_SIZE (convert_body ch)) ADC_CHANNELS s)
    as (s' & Hrun & sig' & -> & Hrect' & Hc').
  - sizes.
  - exists (signal_buffer s). split; [assumption |]. split; [assumption |].
    intros r c raw Hraw Hrc.
    destruct (load2_bound _ _ _ _ _ _ adc_rect Hraw). lia.
  - intros ch st Hch (sig & -> & Hrect & Hc).
    destruct (for_inv
                (fun i st => exists sig1,
                     st = set_signal_buffer sig1 s /\
                     rect ADC_CHANNELS BUFFER_SIZE sig1 /\
                     converted (adc_buffer s) sig1 ch i)
                (convert_body ch) BUFFER_SIZE (set_signal_buffer sig s))
      as (s1 & Hrun1 & sig1 & -> & Hrect1 & Hc1).
    + sizes.
    + now exists sig.
    + intros i st Hi (sig1 & -> & Hrect1 & Hc1).
      destruct (convert_body_exact ch i sig1 Hch Hi Hrect1 Hc1)
        as (sig2 & Hstep & Hrect2 & Hc2).
      eexists. split; [exact Hstep |]. now exists sig2.
    + eexists. split; [exact Hrun1 |]. exists sig1.
      split; [reflexivity |]. split; [assumption |].
      intros r c raw Hraw Hrc. apply (Hc1 r c raw Hraw).
      destruct (load2_bound _ _ _ _ _ _ adc_rect Hraw). lia.
  - exists sig'. split; [exact Hrun |]. split; [assumption |].
    intros ch i raw Hraw. apply (Hc' ch i raw Hraw).
    destruct (load2_bound _ _ _ _ _ _ adc_rect Hraw). lia.
Qed.
End ConvertExact.

(** The conversion stage stores, at the place of every raw sample, the
    sample centred on 2048 with four decimal places: for a 12-bit raw
    sample [raw] the value [{(raw - 2048) * 10000, -4}], which stands
    for [raw - 2048]. Nothing but [signal_buffer] is changed. *)
Theorem convert_stage_exact (s : state) :
  rect ADC_CHANNELS BUFFER_SIZE (adc_buffer s) ->
  all2 (fun raw => 0 <= raw <= 4095) (adc_buffer s) ->
  rect ADC_CHANNELS BUFFER_SIZE (signal_buffer s) ->
  exists sig',
    convert_stage s = Some (tt, set_signal_buffer sig' s) /\
    rect ADC_CHANNELS BUFFER_SIZE sig' /\
    forall ch i raw,
      load2 (adc_buffer s) ch i = Some raw ->
      load2 sig' ch i = Some (mk_dpa ((raw - 2048) * 10000) (-4)) /\
      (denote (mk_dpa ((raw - 2048) * 10000) (-4)) == inject_Z (raw - 2048))%Q.
Proof.
  intros Hadc Hbits Hsig.
  destruct (convert_stage_positions s Hadc Hsig) as (sig' & Hrun & Hrect & Hpos).
  exists sig'. split; [exact Hrun |]. split; [exact Hrect |].
  intros ch i raw Hraw.
  pose proof (load2_all2 _ _ _ _ _ Hraw Hbits) as Hr. cbn beta in Hr.
  split.
  - rewrite (Hpos ch i raw Hraw). f_equal. now apply centred_12_bit.
  - unfold denote. cbn [mantissa point].
    change (Qpower (inject_Z 10) (-4)) with (/ inject_Z 10000)%Q.
    rewrite inject_Z_mult, <- Qmult_assoc, Qmult_inv_r by discriminate.
    apply Qmult_1_r.
Qed.

Lemma convert_stage_exact_witness :
  let s := initial_state (constant_block 4095) in
  exists sig',
    convert_stage s = Some (tt, set_signal_buffer sig' s) /\
    load2 sig' 2 255 = Some (mk_dpa ((4095 - 2048) * 10000) (-4)).
Proof.
  intros s.
  destruct (convert_stage_exact s) as (sig' & Hrun & _ & Hpos).
  - apply (rect_replicate 3 256).
  - apply all2_replicate. lia.
  - apply (rect_replicate 3 256).
  - exists sig'. split; [exact Hrun |].
    apply (Hpos 2 255 4095). reflexivity.
Defined.

(** ** History kept by the delay lines *)

Lemma cursor_distinct c0 i j :
  0 <= c0 -> 0 <= j < i -> i - FIR_TAPS < j ->
  Z.rem (c0 + j) FIR_TAPS <> Z.rem (c0 + i) FIR_TAPS.
Proof.
  unfold FIR_TAPS. intros Hc Hj Hi.
  rewrite !Z.rem_mod_nonneg by lia. intros E.
  pose proof (Z.div_mod (c0 + j) 32 ltac:(lia)).
  pose proof (Z.div_mod (c0 + i) 32 ltac:(lia)).
  assert (i - j = 32 * ((c0 + i) / 32 - (c0 + j) / 32)) by lia.
  lia.
Qed.

Section FirHistory.
Variable s : state.
Variable sig0 : list (list dpa_t).
Variable c0 : Z.
Hypothesis c0_range : 0 <= c0 < FIR_TAPS.

Lemma fir_body_step ch i sig line tr :
  0 <= ch < ADC_CHANNELS -> 0 <= i < BUFFER_SIZE ->
  rect ADC_CHANNELS BUFFER_SIZE sig -> rect ADC_CHANNELS FIR_TAPS line ->
  exists x y sig' line',
    load2 sig ch i = Some x /\
    store2 line ch (Z.rem (c0 + i) FIR_TAPS) x = Some line' /\
    store2 sig ch i y = Some sig' /\
    fir_body ch i (fir_state s sig line (Z.rem (c0 + i) FIR_TAPS) tr)
    = Some (tt, fir_state s sig' line' (Z.rem (c0 + i + 1) FIR_TAPS)
                  (tr ++ cursor_events c0 ch i)).
Proof.
  intros Hch Hi Hsig Hline.
  set (cur := Z.rem (c0 + i) FIR_TAPS).
  assert (Hcur : 0 <= cur < FIR_TAPS)
    by (unfold cur, FIR_TAPS in *; apply Z.rem_bound_pos; lia).
  destruct (load2_in_range _ _ sig ch i Hsig Hch Hi) as [x Hx].
  set (st := log (EvFilter ch i cur) (fir_state s sig line cur tr)).
  destruct (fir_filter_run (fun _ => True) st ch x) as (line' & y & Hstore & Hrun & _);
    try assumption; try trivial.
  subst st. state_simpl in Hstore.
  destruct (store2_in_range _ _ sig ch i y Hsig Hch Hi) as [sig' Hsig'].
  exists x, y, sig', line'.
  split; [exact Hx |]. split; [exact Hstore |]. split; [exact Hsig' |].
  unfold fir_body, bind, gets, lift, modify.
  change (signal_buffer (fir_state s sig line cur tr)) with sig.
  rewrite Hx.
  change (fir_index (fir_state s sig line cur tr)) with cur.
  rewrite Hrun. state_simpl. rewrite Hsig'. state_simpl.
  unfold cur. rewrite cursor_next by lia.
  unfold cursor_events. now rewrite <- app_assoc.
Qed.

Lemma history_step ch i sig line x y sig' line' :
  0 <= ch < ADC_CHANNELS -> 0 <= i < BUFFER_SIZE ->
  history sig0 c0 ch i sig line ->
  load2 sig ch i = Some x ->
  store2 line ch (Z.rem (c0 + i) FIR_TAPS) x = Some line' ->
  store2 sig ch i y = Some sig' ->
  history sig0 c0 ch (i + 1) sig' line'.
Proof.
  intros Hch Hi (Hsig & Hline & Htodo & Hcur & Hdone) Hx Hst Hst'.
  split; [exact (store2_rect _ _ _ _ _ _ _ Hst' Hsig) |].
  split; [exact (store2_rect _ _ _ _ _ _ _ Hst Hline) |].
  split; [| split].
  - intros r j Hrj. rewrite (load2_store2_ne _ _ _ _ _ _ _ Hst').
    + apply Htodo. lia.
    + intros [= -> ->]. lia.
  - intros j Hj Hlo. destruct (Z.eq_dec j i) as [-> | Hne].
    + rewrite (load2_store2_eq _ _ _ _ _ Hst), <- Hx. apply Htodo. lia.
    + rewrite (load2_store2_ne _ _ _ _ _ _ _ Hst).
      * apply Hcur; lia.
      * intros [= E]. apply (cursor_distinct c0 i j); [lia | lia | lia | exact E].
  - intros r j Hr Hj. rewrite (load2_store2_ne _ _ _ _ _ _ _ Hst).
    + now apply Hdone.
    + intros [= -> _]. lia.
Qed.

Lemma history_next_channel ch sig line :
  0 <= ch -> history sig0 c0 ch BUFFER_SIZE sig line ->
  history sig0 c0 (ch + 1) 0 sig line.
Proof.
  intros Hch (Hsig & Hline & Htodo & Hcur & Hdone).
  split; [assumption |]. split; [assumption |]. split; [| split].
  - intros r j Hrj. apply Htodo. lia.
  - intros j Hj. lia.
  - intros r j Hr Hj. destruct (Z.eq_dec r ch) as [-> | Hne].
    + apply Hcur; sizes.
    + apply Hdone; lia.
Qed.

Lemma fir_channel_history ch sig line tr :
  0 <= ch < ADC_CHANNELS ->
  history sig0 c0 ch 0 sig line ->
  exists sig' line',
    for_ BUFFER_SIZE (fir_body ch) (fir_state s sig line c0 tr)
    = Some (tt, fir_state s sig' line' c0 (tr ++ channel_trace c0 ch BUFFER_SIZE)) /\
    history sig0 c0 (ch + 1) 0 sig' line'.
Proof.
  intros Hch Hh.
  destruct (for_inv
              (fun i st => exists sig' line',
                   st = fir_state s sig' line' (Z.rem (c0 + i) FIR_TAPS)
                          (tr ++ channel_trace c0 ch i) /\
                   history sig0 c0 ch i sig' line')
              (fir_body ch) BUFFER_SIZE (fir_state s sig line c0 tr))
    as (s' & Hrun & sig' & line' & -> & Hh').
  - sizes.
  - exists sig, line. split; [| assumption].
    rewrite Z.add_0_r, Z.rem_small by sizes.
    unfold channel_trace. now rewrite seqZ_nil, app_nil_r by lia.
  - intros i st Hi (sig1 & line1 & -> & Hh1).
    pose proof Hh1 as (Hsig1 & Hline1 & _).
    destruct (fir_body_step ch i sig1 line1 (tr ++ channel_trace c0 ch i)
                Hch Hi Hsig1 Hline1)
      as (x & y & sig2 & line2 & Hx & Hst & Hst' & Hstep).
    eexists. split; [exact Hstep |]. exists sig2, line2. split.
    + rewrite channel_trace_step, app_assoc by lia.
      now replace (c0 + (i + 1)) with (c0 + i + 1) by lia.
    + exact (history_step ch i sig1 line1 x y sig2 line2 Hch Hi Hh1 Hx Hst Hst').
  - exists sig', line'. split.
    + now rewrite Hrun, cursor_after_channel.
    + apply history_next_channel; [lia | assumption].
Qed.

Lemma fir_stage_history line tr :
  rect ADC_CHANNELS BUFFER_SIZE sig0 -> rect ADC_CHANNELS FIR_TAPS line ->
  exists sig' line',
    fir_stage (fir_state s sig0 line c0 tr)
    = Some (tt, fir_state s sig' line' c0 (tr ++ block_trace c0 ADC_CHANNELS)) /\
    history sig0 c0 ADC_CHANNELS 0 sig' line'.
Proof.
  intros Hsig Hline.
  destruct (for_inv
              (fun ch st => exists sig' line',
                   st = fir_state s sig' line' c0 (tr ++ block_trace c0 ch) /\
                   history sig0 c0 ch 0 sig' line')
              (fun ch => for_ BUFFER_SIZE (fir_body ch)) ADC_CHANNELS
              (fir_state s sig0 line c0 tr))
    as (s' & Hrun & sig' & line' & -> & Hh').
  - sizes.
  - exists sig0, line. split.
    + unfold block_trace. now rewrite seqZ_nil, app_nil_r by lia.
    + split; [assumption |]. split; [assumption |].
      split; [reflexivity |]. split; intros; lia.
  - intros ch st Hch (sig1 & line1 & -> & Hh1).
    destruct (fir_channel_history ch sig1 line1 (tr ++ block_trace c0 ch) Hch Hh1)
      as (sig2 & line2 & Hstep & Hh2).
    eexists. split; [exact Hstep |]. exists sig2, line2.
    split; [| assumption].
    now rewrite block_trace_step, app_assoc by lia.
  - exists sig', line'. split; [exact Hrun | assumption].
Qed.
End FirHistory.

(** After the FIR stage the delay line of every channel holds the last
    [FIR_TAPS] samples that channel was given, the sample of index [i]
    at position [(c0 + i) % FIR_TAPS], where [c0] is the cursor at the
    start of the stage: this is the state carried into the next block. *)
Theorem fir_stage_keeps_history (s : state) :
  rect ADC_CHANNELS BUFFER_SIZE (signal_buffer s) ->
  rect ADC_CHANNELS FIR_TAPS (fir_delay s) ->
  0 <= fir_index s < FIR_TAPS ->
  exists s',
    fir_stage s = Some (tt, s') /\
    fir_index s' = fir_index s /\
    forall ch i,
      0 <= ch < ADC_CHANNELS -> BUFFER_SIZE - FIR_TAPS <= i < BUFFER_SIZE ->
      load2 (fir_delay s') ch (Z.rem (fir_index s + i) FIR_TAPS)
      = load2 (signal_buffer s) ch i.
Proof.
  intros Hsig Hline Hcur.
  destruct (fir_stage_history s (signal_buffer s) (fir_index s) Hcur
              (fir_delay s) (trace s) Hsig Hline)
    as (sig' & line' & Hrun & _ & _ & _ & _ & Hdone).
  assert (Hs : fir_state s (signal_buffer s) (fir_delay s) (fir_index s) (trace s) = s)
    by now destruct s.
  rewrite Hs in Hrun. eexists. split; [exact Hrun |]. split; [reflexivity |].
  intros ch i Hch Hi. state_simpl. now apply Hdone.
Qed.

Lemma fir_stage_keeps_history_witness :
  let s := set_signal_buffer
             (replicate 3 (replicate 256 (mk_dpa 20470000 (-4))))
             (initial_state []) in
  exists s',
    fir_stage s = Some (tt, s') /\
    load2 (fir_delay s') 1 (Z.rem (0 + 255) FIR_TAPS) = Some (mk_dpa 20470000 (-4)).
Proof.
  intros s.
  destruct (fir_stage_keeps_history s) as (s' & Hrun & _ & Hh).
  - apply (rect_replicate 3 256).
  - apply (rect_replicate 3 32).
  - cbn. sizes.
  - exists s'. split; [exact Hrun |].
    change (0 + 255) with (fir_index s + 255).
    rewrite (Hh 1 255) by sizes. reflexivity.
Defined.

(** ** A whole block *)

(** The four stages of a block one after the other, with what each
    leaves: the converted samples [sig1], the filtered samples [sig2] and
    the delay lines [line2], the beamformed samples [out3], the bins
    [re4] and [im4], the magnitudes printed. *)
Lemma process_audio_block_stages (s : state) :
  block_ready (fun _ => True) (fun _ => True) s ->
  exists sig1 sig2 line2 out3 re4 im4 printed,
    process_audio_block s
    = Some (tt,
            set_console (console s ++ printed)
              (set_fft re4 im4
                 (set_output_buffer out3
                    (fir_state s sig2 line2 (fir_index s)
                       (trace s ++ block_trace (fir_index s) ADC_CHANNELS))))) /\
    (forall ch i raw,
       load2 (adc_buffer s) ch i = Some raw -> load2 sig1 ch i = Some (centred raw)) /\
    history sig1 (fir_index s) ADC_CHANNELS 0 sig2 line2 /\
    Z.of_nat (length out3) = BUFFER_SIZE /\
    Forall (fun y => 0 <= point y) out3 /\
    bins_done (fun b => 0 <= point b) (Z.quot FFT_SIZE 2) (fft_real s) re4 /\
    bins_done (fun b => 0 <= point b) (Z.quot FFT_SIZE 2) (fft_imag s) im4 /\
    length printed = 8%nat.
Proof.
  intros (Hadc & _ & Hsig & Hout & Hline & _ & Hcur & Hre & Him).
  destruct (convert_stage_positions s Hadc Hsig) as (sig1 & Hconv & Hsig1 & Hpos).
  assert (Hs1 : set_signal_buffer sig1 s
                = fir_state s sig1 (fir_delay s) (fir_index s) (trace s))
    by reflexivity.
  destruct (fir_stage_history s sig1 (fir_index s) Hcur (fir_delay s) (trace s)
              Hsig1 Hline) as (sig2 & line2 & Hfir & Hhist).
  pose proof Hhist as (Hsig2 & _).
  set (s2 := fir_state s sig2 line2 (fir_index s)
               (trace s ++ block_trace (fir_index s) ADC_CHANNELS)) in *.
  destruct (beam_stage_run (fun _ => True) (fun y => 0 <= point y)) with (s := s2)
    as (out3 & Hbeam & Hout3 & HB3); try assumption.
  { intros input i sum _ Hsum. exact (beam_sum_point _ _ _ _ Hsum). }
  { apply all2_True. }
  destruct (dft_stage_run (fun y => 0 <= point y) (fun b => 0 <= point b)
              (fun _ => True)) with (s := set_output_buffer out3 s2)
    as (re4 & im4 & printed & Hdft & Hre4 & Him4 & Hl & _); try assumption.
  { cbn. lia. }
  { intros x c acc _ H. pose proof (dpa_add_point_ge acc (dpa_multiply x c)). lia. }
  { intros b Hb. eexists. split; [exact (dpa_to_int_nonneg b Hb) | trivial]. }
  exists sig1, sig2, line2, out3, re4, im4, printed.
  split; [| repeat (split; [assumption |]); assumption].
  unfold process_audio_block, bind.
  rewrite Hconv, Hs1, Hfir. fold s2. rewrite Hbeam. exact Hdft.
Qed.

(** After a block the delay line of every channel holds the last
    [FIR_TAPS] raw samples of the block as the conversion centred them,
    the sample of index [i] at position [(c0 + i) % FIR_TAPS]: the
    filter state carried into the next block does not depend on what
    the filter computed. *)
Theorem process_audio_block_carries_history (s : state) :
  block_ready (fun _ => True) (fun _ => True) s ->
  exists s',
    process_audio_block s = Some (tt, s') /\
    forall ch i raw,
      BUFFER_SIZE - FIR_TAPS <= i ->
      load2 (adc_buffer s) ch i = Some raw ->
      load2 (fir_delay s') ch (Z.rem (fir_index s + i) FIR_TAPS)
      = Some (dpa_from_int (wrap32 (raw - 2048)) 4).
Proof.
  intros Hready. pose proof Hready as (Hadc & _).
  destruct (process_audio_block_stages s Hready)
    as (sig1 & sig2 & line2 & out3 & re4 & im4 & printed & Hrun & Hpos & Hhist & _).
  eexists. split; [exact Hrun |].
  intros ch i raw Hi Hraw. state_simpl.
  destruct Hhist as (_ & _ & _ & _ & Hdone).
  destruct (load2_bound _ _ _ _ _ _ Hadc Hraw) as [Hch Hi'].
  rewrite (Hdone ch i) by lia. exact (Hpos ch i raw Hraw).
Qed.

Lemma process_audio_block_carries_history_witness :
  let s := initial_state (constant_block 4095) in
  exists s',
    process_audio_block s = Some (tt, s') /\
    load2 (fir_delay s') 0 (Z.rem (fir_index s + 255) FIR_TAPS)
    = Some (dpa_from_int (wrap32 (4095 - 2048)) 4).
Proof.
  intros s.
  assert (Hready : block_ready (fun _ => True) (fun _ => True) s)
    by now apply constant_block_ready.
  destruct (process_audio_block_carries_history s Hready) as (s' & Hrun & Hh).
  exists s'. split; [exact Hrun |].
  apply (Hh 0 255 4095); [sizes | reflexivity].
Defined.

Lemma bins_done_length (P : dpa_t -> Prop) k old new :
  bins_done P k old new -> length new = length old.
Proof. now intros (H & _). Qed.

(** A block processed from a state with the declared array sizes runs to
    the end, whatever the buffers hold: no index leaves its array and no
    conversion divides by zero. It leaves the array sizes, the raw
    samples and the cursor as they were, prints eight magnitudes, and
    every beamformed sample and every bin below [FFT_SIZE / 2] has a
    scale that is not negative. *)
Theorem process_audio_block_keeps_ready (s : state) :
  block_ready (fun _ => True) (fun _ => True) s ->
  exists s',
    process_audio_block s = Some (tt, s') /\
    block_ready (fun _ => True) (fun _ => True) s' /\
    adc_buffer s' = adc_buffer s /\
    fir_index s' = fir_index s /\
    length (console s') = (length (console s) + 8)%nat /\
    Forall (fun y => 0 <= point y) (output_buffer s') /\
    (forall k, 0 <= k < Z.quot FFT_SIZE 2 ->
       exists a b, load (fft_real s') k = Some a /\ load (fft_imag s') k = Some b /\
                   0 <= point a /\ 0 <= point b).
Proof.
  intros Hready. pose proof Hready as (Hadc & _ & Hsig & Hout & Hline & _ & Hcur & Hre & Him).
  destruct (process_audio_block_stages s Hready)
    as (sig1 & sig2 & line2 & out3 & re4 & im4 & printed
        & Hrun & _ & Hhist & Hout3 & HB & Hre4 & Him4 & Hl).
  destruct Hhist as (Hsig2 & Hline2 & _).
  eexists. split; [exact Hrun |]. state_simpl.
  split; [| split; [reflexivity | split; [reflexivity | split; [| split]]]].
  - unfold block_ready. state_simpl.
    rewrite (bins_done_length _ _ _ _ Hre4), (bins_done_length _ _ _ _ Him4).
    repeat (split; [assumption || apply all2_True |]). assumption.
  - rewrite length_app, Hl. reflexivity.
  - exact HB.
  - intros k Hk.
    destruct Hre4 as (_ & Hbre & _). destruct Him4 as (_ & Hbim & _).
    destruct (Hbre k Hk) as (a & Ha & Hpa). destruct (Hbim k Hk) as (b & Hb & Hpb).
    now exists a, b.
Qed.

Lemma process_audio_block_keeps_ready_witness :
  let s := initial_state (constant_block 3000) in
  exists s',
    process_audio_block s = Some (tt, s') /\
    fir_index s' = 0 /\ length (console s') = 8%nat.
Proof.
  intros s.
  assert (Hready : block_ready (fun _ => True) (fun _ => True) s)
    by now apply constant_block_ready.
  destruct (process_audio_block_keeps_ready s Hready)
    as (s' & Hrun & _ & _ & Hcur & Hcon & _).
  exists s'. split; [exact Hrun |]. split; [exact Hcur | exact Hcon].
Defined.

(** ** Consecutive blocks *)

Lemma process_audio_block_again (s : state) :
  block_ready (fun _ => True) (fun _ => True) s ->
  exists s',
    process_audio_block s = Some (tt, s') /\
    block_ready (fun _ => True) (fun _ => True) s' /\
    fir_index s' = fir_index s /\
    length (console s') = (length (console s) + 8)%nat /\
    advances (trace s') = advances (trace s) + ADC_CHANNELS * BUFFER_SIZE.
Proof.
  intros Hready. pose proof Hready as (Hadc & _ & Hsig & Hout & Hline & _ & Hcur & Hre & Him).
  destruct (process_audio_block_stages s Hready)
    as (sig1 & sig2 & line2 & out3 & re4 & im4 & printed
        & Hrun & _ & Hhist & Hout3 & _ & Hre4 & Him4 & Hl).
  destruct Hhist as (Hsig2 & Hline2 & _).
  eexists. split; [exact Hrun |]. state_simpl.
  split; [| split; [reflexivity | split]].
  - unfold block_ready. state_simpl.
    rewrite (bins_done_length _ _ _ _ Hre4), (bins_done_length _ _ _ _ Him4).
    repeat (split; [assumption || apply all2_True |]). assumption.
  - rewrite length_app, Hl. reflexivity.
  - now rewrite advances_app, advances_block_trace.
Qed.

Lemma block_ready_refill (s : state) adc :
  block_ready (fun _ => True) (fun _ => True) s ->
  rect ADC_CHANNELS BUFFER_SIZE adc ->
  block_ready (fun _ => True) (fun _ => True) (set_adc_buffer adc s).
Proof.
  intros (_ & _ & H) Hadc. unfold block_ready, set_adc_buffer.
  cbn [adc_buffer signal_buffer output_buffer fir_delay fir_index fft_real fft_imag].
  split; [assumption |]. split; [apply all2_True | exact H].
Qed.

(** Any number of blocks can be processed one after the other, whatever
    raw samples they hold: each run starts from the state the one before
    left, the cursor is back at its start after each block, and each
    block prints eight magnitudes and advances the cursor
    [ADC_CHANNELS * BUFFER_SIZE] times. *)
Theorem run_blocks_total (blocks : list (list (list Z))) (s : state) :
  block_ready (fun _ => True) (fun _ => True) s ->
  Forall (rect ADC_CHANNELS BUFFER_SIZE) blocks ->
  exists s',
    run_blocks blocks s = Some (tt, s') /\
    block_ready (fun _ => True) (fun _ => True) s' /\
    fir_index s' = fir_index s /\
    length (console s') = (length (console s) + 8 * length blocks)%nat /\
    advances (trace s')
    = advances (trace s) + ADC_CHANNELS * BUFFER_SIZE * Z.of_nat (length blocks).
Proof.
  intros Hready Hblocks. revert s Hready.
  induction Hblocks as [|adc rest Hadc _ IH]; intros s Hready.
  - exists s. split; [reflexivity |]. split; [assumption |].
    split; [reflexivity |]. split; cbn [length]; lia.
  - pose proof (block_ready_refill s adc Hready Hadc) as Hready1.
    destruct (process_audio_block_again _ Hready1)
      as (s2 & Hrun2 & Hready2 & Hcur2 & Hcon2 & Hadv2).
    destruct (IH s2 Hready2) as (s' & Hrun & Hready' & Hcur & Hcon & Hadv).
    exists s'. split; [| split; [assumption | split; [| split]]].
    + cbn [run_blocks]. unfold bind at 1 2. unfold modify. now rewrite Hrun2.
    + rewrite Hcur, Hcur2. reflexivity.
    + rewrite Hcon, Hcon2. cbn [length set_adc_buffer console]. lia.
    + rewrite Hadv, Hadv2. cbn [length set_adc_buffer trace]. lia.
Qed.

Lemma run_blocks_total_witness :
  let s := initial_state (constant_block 0) in
  let blocks := [constant_block 100; constant_block 4000; constant_block 2048] in
  exists s',
    run_blocks blocks s = Some (tt, s') /\
    fir_index s' = 0 /\ length (console s') = 24%nat.
Proof.
  intros s blocks.
  assert (Hready : block_ready (fun _ => True) (fun _ => True) s)
    by now apply constant_block_ready.
  assert (Hblocks : Forall (rect ADC_CHANNELS BUFFER_SIZE) blocks)
    by (repeat constructor; apply (rect_replicate 3 256)).
  destruct (run_blocks_total blocks s Hready Hblocks)
    as (s' & Hrun & _ & Hcur & Hcon & _).
  exists s'. split; [exact Hrun |]. split; [exact Hcur | exact Hcon].
Defined.
